(** * Geobridge: region classification, boundary extraction and height
      normalisation of [src/App.js]

    The development embeds the algorithmic core of the globe view:
    - [getCountryCode], the static region table and the derived
      (continent / subregion) classification;
    - [extractCoordinates], [findSharedBoundary], [sortBoundaryPoints] and the
      two boundary generators;
    - the dataset catalogue, [HEIGHT_GETTERS], the statistics of [heightStats]
      and the height callback [getPolygonHeight];
    - the two effects that admit features and the dataset selection handlers;
    - [createPolygonData], the hover and colour callbacks, and the country
      selection game of [App].

    Modelling conventions.
    - A finite JavaScript number is an exact rational ([Q]); [NaN] is a
      separate constructor where the code tests for it.  [Math.sqrt] and
      [Math.pow] belong to the host runtime and are taken as parameters
      ([Math]).
    - A string is a sequence of code units below 256.
    - An object used as a dictionary is a [gmap]; an insertion-ordered [Map]
      and every array is a list.  A lookup in [REGION_MAPPING] also finds
      the properties inherited from [Object.prototype] ([prototypeKeys]).
      The other object literals are read with keys that are not names of
      [Object.prototype]: the ADMIN and NAME of a feature for
      [MANUAL_COUNTRY_MAPPING], dataset identifiers for the catalogue.
    - Arithmetic is exact; the rounding of the 64-bit floating-point
      numbers of the runtime is not part of the model.
    - A [TypeError] raised by a property access on [undefined] is the [Throw]
      completion. *)

From Stdlib Require Import QArith Qround Qminmax Qabs Lqa Lia ZArith List Bool.
From Stdlib Require Import String Ascii Permutation Sorted Qpower.
From Stdlib Require Import DecimalString DecimalNat.
From stdpp Require Import base option list gmap strings.
Import ListNotations.

(* ================================================================== *)
(** * JavaScript values                                                *)
(* ================================================================== *)

Module JS.

(** Completion of an evaluation: a value, or a thrown exception. *)
Inductive completion (A : Type) : Type :=
| Normal (a : A)
| Throw.
Arguments Normal {A} a.
Arguments Throw {A}.

Definition bind {A B} (c : completion A) (k : A -> completion B)
  : completion B :=
  match c with
  | Normal a => k a
  | Throw => Throw
  end.

(** [arr.forEach(f)] where the callback threads an accumulator and may
    throw. *)
Fixpoint forEach {A S} (f : S -> A -> completion S) (arr : list A) (s : S)
  : completion S :=
  match arr with
  | [] => Normal s
  | a :: rest => bind (f s a) (forEach f rest)
  end.

(** Numbers as the accessors can return them. *)
Inductive number : Type :=
| NaN
| Num (q : Q).

Definition isNaN (v : number) : bool :=
  match v with NaN => true | Num _ => false end.

(** Comparisons on finite numbers. *)
Definition ltb (a b : Q) : bool := negb (Qle_bool b a).
Definition gtb (a b : Q) : bool := ltb b a.
Definition eqb (a b : Q) : bool := Qeq_bool a b.

(** [v < 0]; every comparison with [NaN] is false. *)
Definition negative (v : number) : bool :=
  match v with NaN => false | Num q => ltb q 0 end.

(** Truthiness of an optional finite number and of an optional string. *)
Definition truthyNum (v : option Q) : option Q :=
  match v with
  | Some q => if eqb q 0 then None else Some q
  | None => None
  end.

Definition truthyStr (v : option string) : option string :=
  match v with
  | Some EmptyString => None
  | Some s => Some s
  | None => None
  end.

(** [a || b] on optional strings: [a] when truthy, else [b]. *)
Definition orStr (a b : option string) : option string :=
  match truthyStr a with
  | Some s => Some s
  | None => b
  end.

(** [Math.floor(n * p)] used as an array index. *)
Definition floorIndex (n : nat) (p : Q) : nat :=
  Z.to_nat (Qfloor (inject_Z (Z.of_nat n) * p)).

(** [Math.max(...xs)] and [Math.min(...xs)] of a non-empty array. *)
Definition maxOf (x : Q) (xs : list Q) : Q := fold_left Qmax xs x.
Definition minOf (x : Q) (xs : list Q) : Q := fold_left Qmin xs x.

(** [xs.reduce((sum, val) => sum + val, 0)]. *)
Definition sum (xs : list Q) : Q := fold_left Qplus xs 0%Q.

(** [xs.sort((a, b) => a - b)]: stable ascending sort. *)
Fixpoint insertSorted (x : Q) (xs : list Q) : list Q :=
  match xs with
  | [] => [x]
  | y :: ys => if ltb x y then x :: y :: ys else y :: insertSorted x ys
  end.

Definition sortAscending (xs : list Q) : list Q :=
  fold_right insertSorted [] xs.

(** [xs.includes(v)]. *)
Definition includes (xs : list Q) (v : Q) : bool := existsb (eqb v) xs.

(** [String.prototype.toLowerCase] on code units below 256. *)
Definition lowerChar (c : ascii) : ascii :=
  let n := nat_of_ascii c in
  if ((65 <=? n) && (n <=? 90))%nat
     || ((192 <=? n) && (n <=? 222) && negb (n =? 215))%nat
  then ascii_of_nat (n + 32)
  else c.

Fixpoint toLowerCase (s : string) : string :=
  match s with
  | EmptyString => EmptyString
  | String c rest => String (lowerChar c) (toLowerCase rest)
  end.

(** The character class [\s]: tab, line feed, vertical tab, form feed,
    carriage return, space and no-break space. *)
Definition isWhiteSpace (c : ascii) : bool :=
  let n := nat_of_ascii c in
  ((n =? 9) || (n =? 10) || (n =? 11) || (n =? 12) || (n =? 13)
   || (n =? 32) || (n =? 160))%nat.

(** [s.replace(/[cls]+/g, '_')]: every maximal run of characters of the
    class becomes one underscore.  [inRun] records that the previous
    character was in the class. *)
Fixpoint replaceRuns (cls : ascii -> bool) (inRun : bool) (s : string)
  : string :=
  match s with
  | EmptyString => EmptyString
  | String c rest =>
      if cls c
      then if inRun
           then replaceRuns cls true rest
           else String "_" (replaceRuns cls true rest)
      else String c (replaceRuns cls false rest)
  end.

(** Template literal interpolation of a length. *)
Definition decimal (n : nat) : string :=
  NilEmpty.string_of_uint (Nat.to_uint n).

End JS.

Notation "'let*' x ':=' c 'in' k" := (JS.bind c (fun x => k))
  (at level 10, x name, c at level 100, k at level 200).

(** Host functions of the runtime that have no rational model. *)
Record Math : Type := {
  sqrt : Q -> Q;
  pow : Q -> Q -> Q
}.

(* ================================================================== *)
(** * Features                                                         *)
(* ================================================================== *)

Definition point : Type := (Q * Q)%type.
Definition ring : Type := list point.

Inductive geometry : Type :=
| Polygon (coordinates : list ring)
| MultiPolygon (coordinates : list (list ring))
| OtherGeometry.

(** The members of the property bag that the code reads. *)
Record propertyBag : Type := {
  ISO_A2 : option string;
  ADMIN : option string;
  NAME : option string;
  CONTINENT : option string;
  SUBREGION : option string;
  REGION_UN : option string;
  GDP_MD_EST : option Q;
  GDP_MD : option Q;
  POP_EST : option Q;
  POP2005 : option Q
}.

(** A GeoJSON feature; [properties] may be [null]. *)
Record feature : Type := {
  properties : option propertyBag;
  geom : geometry
}.

(** [country.properties?.field]. *)
Definition prop {A} (field : propertyBag -> option A) (country : feature)
  : option A :=
  match properties country with
  | Some bag => field bag
  | None => None
  end.

(* ================================================================== *)
(** * Region tables and country codes                                  *)
(* ================================================================== *)

Definition REGIONS : list (string * list string) := [
  ("north_america", ["CA"; "US"; "MX"]);
  ("central_america_caribbean",
    ["GT"; "BZ"; "HN"; "SV"; "NI"; "CR"; "PA"; "CU"; "JM"; "HT";
     "DO"; "KN"; "AG"; "DM"; "LC"; "BB"; "VC"; "GD"; "BS"]);
  ("south_america",
    ["AR"; "BR"; "BO"; "CL"; "PY"; "UY"; "CO"; "EC"; "VE";
     "GY"; "SR"; "PE"]);
  ("southwest_europe", ["ES"; "PT"; "AD"]);
  ("south_europe", ["IT"; "GR"; "MT"; "SM"]);
  ("central_europe", ["DE"; "AT"; "LI"; "CH"; "PL"; "HU"; "SK"; "CZ"; "SI"]);
  ("west_europe", ["GB"; "IE"; "NL"; "BE"; "LU"; "MC"; "FR"]);
  ("north_europe", ["DK"; "IS"; "NO"; "SE"; "FI"]);
  ("southeast_europe",
    ["AL"; "BA"; "HR"; "MK"; "ME"; "RS"; "RO"; "BG"; "XK"]);
  ("east_europe", ["RU"; "EE"; "LV"; "LT"; "BY"; "UA"; "MD"]);
  ("north_africa", ["EG"; "LY"; "DZ"; "MA"; "TN"]);
  ("central_africa", ["TD"; "CF"; "CM"; "GQ"; "GA"; "CG"; "CD"; "AO"]);
  ("east_africa",
    ["SD"; "ER"; "DJ"; "SO"; "ET"; "SS"; "KE"; "UG"; "TZ";
     "RW"; "BI"; "ZM"; "MW"; "MZ"; "ZW"; "KM"; "MG"]);
  ("west_africa",
    ["EH"; "MR"; "ML"; "SN"; "GM"; "GW"; "GN"; "SL"; "LR";
     "CI"; "GH"; "TG"; "BJ"; "BF"; "NE"; "NG"]);
  ("south_africa", ["NA"; "BW"; "ZA"; "SZ"; "LS"]);
  ("middle_east",
    ["GE"; "CY"; "TR"; "SY"; "LB"; "AZ"; "AM"; "IR"; "IQ";
     "IL"; "JO"; "SA"; "YE"; "OM"; "BH"; "QA"; "AE"; "KW"; "PS"]);
  ("indian_subcontinent", ["IN"; "AF"; "PK"; "NP"; "BD"; "BT"; "LK"]);
  ("central_asia", ["KZ"; "UZ"; "TM"; "TJ"; "KG"]);
  ("eastern_asia",
    ["CN"; "KP"; "KR"; "JP"; "MM"; "TH"; "KH"; "VN"; "LA";
     "ID"; "PH"; "PG"; "MY"; "CN-TW"; "MN"]);
  ("oceania",
    ["AU"; "NZ"; "FJ"; "VU"; "SB"; "PW"; "NR"; "MH"; "WS"; "TO"; "KI"]);
  ("antarctica", ["AQ"])
].

(** The reduction that inverts [REGIONS]: [acc[country] = region]. *)
Definition REGION_MAPPING : gmap string string :=
  fold_left
    (fun acc '(region, countries) =>
       fold_left (fun acc country => <[country := region]> acc) countries acc)
    REGIONS ∅.

Definition EXCLUDED_COUNTRIES : gset string := list_to_set [
  "MU"; "JE"; "GG"; "IM"; "FO"; "AX"; "PM"; "CV"; "GS"; "MV"; "IO"; "MP"; "FM";
  "SC"; "NF"; "ST"; "SH"; "BM"; "TV"; "AS"; "NU"; "CK"; "PF"; "PN"; "WF"; "TC";
  "KY"; "AW"; "CW"; "VI"; "VG"; "AI"; "MF"; "SX"; "BL"; "MS"; "HM"; "TF"; "GL";
  "XN"; "-99"
].

Definition MANUAL_COUNTRY_MAPPING : gmap string string :=
  <["Norway" := "NO"]> (<["France" := "FR"]> (<["Kosovo" := "XK"]>
  (<["Somaliland" := "XS"]> (<["Northern Cyprus" := "XN"]> ∅)))).

(** [MANUAL_COUNTRY_MAPPING[key]] with a key that may be [undefined] and is
    not a name of [Object.prototype]. *)
Definition manualLookup (key : option string) : option string :=
  match key with
  | Some k => MANUAL_COUNTRY_MAPPING !! k
  | None => None
  end.

(** [getCountryCode]; [None] is [undefined]. *)
Definition getCountryCode (country : feature) : option string :=
  let iso2 := prop ISO_A2 country in
  let admin := prop ADMIN country in
  let name := prop NAME country in
  match JS.truthyStr iso2 with
  | Some code =>
      if negb (String.eqb code "-99") && negb (String.eqb code "n/a")
      then Some code
      else JS.orStr (manualLookup admin) (JS.orStr (manualLookup name) iso2)
  | None => JS.orStr (manualLookup admin) (JS.orStr (manualLookup name) iso2)
  end.

(** The property names that an object literal inherits from
    [Object.prototype].  The value found under each of them is a function or
    an object, so it is truthy, and two of them are the same object only when
    the names are the same. *)
Definition prototypeKeys : list string := [
  "constructor"; "__defineGetter__"; "__defineSetter__"; "hasOwnProperty";
  "__lookupGetter__"; "__lookupSetter__"; "isPrototypeOf";
  "propertyIsEnumerable"; "toString"; "valueOf"; "__proto__";
  "toLocaleString"
].

Definition inherited (key : string) : bool :=
  existsb (String.eqb key) prototypeKeys.

(** What stands for a region in the globe view: a string, or the member of
    [Object.prototype] that [REGION_MAPPING[code]] returns when the code is
    an inherited property name.  A string read as a region key is the key
    [Named] by it. *)
Inductive regionKey : Type :=
| Named (name : string)
| Builtin (key : string).

Coercion Named : string >-> regionKey.

(** [a === b] on region keys. *)
Definition regionEqb (a b : regionKey) : bool :=
  match a, b with
  | Named x, Named y => String.eqb x y
  | Builtin x, Builtin y => String.eqb x y
  | _, _ => false
  end.

(** A region key used as a condition. *)
Definition truthyRegion (key : regionKey) : bool :=
  match key with
  | Named name => negb (String.eqb name "")
  | Builtin _ => true
  end.

(** [v || ...] on the result of a lookup. *)
Definition truthyKey (v : option regionKey) : option regionKey :=
  match v with
  | Some key => if truthyRegion key then Some key else None
  | None => None
  end.

(** [REGION_MAPPING[code]] on the plain object: an own property first, then
    the prototype.  The code [undefined] is the property name "undefined",
    which is neither. *)
Definition regionOf (code : option string) : option regionKey :=
  match code with
  | Some c =>
      match REGION_MAPPING !! c with
      | Some region => Some (Named region)
      | None => if inherited c then Some (Builtin c) else None
      end
  | None => None
  end.

(** [EXCLUDED_COUNTRIES.has(code)]. *)
Definition excluded (code : option string) : bool :=
  match code with
  | Some c => bool_decide (c ∈ EXCLUDED_COUNTRIES)
  | None => false
  end.

(** [codes.includes(code)]. *)
Definition includesCode (codes : list string) (code : option string) : bool :=
  match code with
  | Some c => existsb (String.eqb c) codes
  | None => false
  end.

(* ================================================================== *)
(** * Boundary extraction                                              *)
(* ================================================================== *)

Record BoundarySegment : Type := {
  coordinates : list point;
  regions : list string;
  countries : list (option string);
  id : string;
  type : string
}.

(** [polygon[0].length]; an empty polygon has no outer ring and the access
    throws. *)
Definition outerLength (polygon : list ring) : JS.completion nat :=
  match polygon with
  | outer :: _ => JS.Normal (length outer)
  | [] => JS.Throw
  end.

(** [extractCoordinates]: the outer ring of a polygon, the outer ring of the
    part with the most vertices of a multi-polygon, an empty array otherwise.
    The inner [option] is [undefined] ([coordinates[0]] of an empty array). *)
Definition extractCoordinates (geometry : geometry)
  : JS.completion (option ring) :=
  match geometry with
  | Polygon coordinates => JS.Normal (head coordinates)
  | MultiPolygon coordinates =>
      match coordinates with
      | [] => JS.Throw
      | first :: _ =>
          let* maxLength := outerLength first in
          let* largest :=
            JS.forEach
              (fun '(largestPolygon, maxLength) polygon =>
                 let* len := outerLength polygon in
                 JS.Normal (if (maxLength <? len)%nat
                            then (polygon, len)
                            else (largestPolygon, maxLength)))
              coordinates (first, maxLength) in
          JS.Normal (head (fst largest))
      end
  | OtherGeometry => JS.Normal (Some [])
  end.

(** An array with its indices, as [forEach((x, index) => ...)] sees it. *)
Definition indexed {A} (xs : list A) : list (nat * A) :=
  combine (seq 0 (length xs)) xs.

(** [Math.sqrt(Math.pow(a[0] - b[0], 2) + Math.pow(a[1] - b[1], 2))]. *)
Definition distance (M : Math) (a b : point) : Q :=
  sqrt M ((fst a - fst b) * (fst a - fst b)
          + (snd a - snd b) * (snd a - snd b))%Q.

(** One step of the scan that selects the closest remaining point;
    [minDistance = None] is [Infinity]. *)
Definition closer (M : Math) (lastPoint : point)
    (st : nat * option Q) (ip : nat * point) : nat * option Q :=
  let d := distance M lastPoint (snd ip) in
  if match snd st with
     | None => true
     | Some minDistance => JS.ltb d minDistance
     end
  then (fst ip, Some d)
  else st.

Definition closest (M : Math) (lastPoint : point) (remaining : list point)
  : nat :=
  fst (fold_left (closer M lastPoint) (indexed remaining) (0%nat, None)).

(** The [while (remaining.length > 0)] loop of [sortBoundaryPoints]; every
    iteration removes one element of [remaining], so [length remaining]
    iterations are enough. *)
Fixpoint chainLoop (M : Math) (fuel : nat) (sorted remaining : list point)
  : list point :=
  match fuel with
  | O => sorted
  | S fuel' =>
      match remaining, last sorted with
      | _ :: _, Some lastPoint =>
          let closestIndex := closest M lastPoint remaining in
          match remaining !! closestIndex with
          | Some p =>
              chainLoop M fuel' (sorted ++ [p]) (delete closestIndex remaining)
          | None => sorted
          end
      | _, _ => sorted
      end
  end.

Definition sortBoundaryPoints (M : Math) (points : list point) : list point :=
  if (length points <=? 2)%nat then points
  else match points with
       | first :: rest => chainLoop M (length rest) [first] rest
       | [] => points
       end.

(** The body of the inner [coords2.forEach] of [findSharedBoundary]. *)
Definition matchPoint (M : Math) (tolerance : Q) (coord1 : point)
    (st : list point * gset nat) (ic : nat * point) : list point * gset nat :=
  if bool_decide (fst ic ∈ snd st) then st
  else if JS.ltb (distance M coord1 (snd ic)) tolerance
       then (fst st ++ [coord1], {[fst ic]} ∪ snd st)
       else st.

(** The shared points before ordering: the state of [sharedPoints] after the
    two nested loops. *)
Definition sharedPoints (M : Math) (coords1 coords2 : option ring)
    (tolerance : Q) : JS.completion (list point) :=
  match coords1 with
  | None => JS.Throw
  | Some c1 =>
      let* st :=
        JS.forEach
          (fun st coord1 =>
             match coords2 with
             | None => JS.Throw
             | Some c2 =>
                 JS.Normal (fold_left (matchPoint M tolerance coord1)
                                      (indexed c2) st)
             end)
          c1 ([], ∅) in
      JS.Normal (fst st)
  end.

Definition findSharedBoundary (M : Math) (coords1 coords2 : option ring)
    (tolerance : Q) : JS.completion (list point) :=
  let* shared := sharedPoints M coords1 coords2 tolerance in
  JS.Normal (if (2 <=? length shared)%nat
             then sortBoundaryPoints M shared
             else shared).

(** The body of the two nested [forEach] over the features of two regions:
    push a segment when at least two points are shared. *)
Definition pushBoundary (M : Math) (kind region1Name region2Name : string)
    (boundaries : list BoundarySegment) (country1 country2 : feature)
  : JS.completion (list BoundarySegment) :=
  let* coords1 := extractCoordinates (geom country1) in
  let* coords2 := extractCoordinates (geom country2) in
  let* sharedBoundary := findSharedBoundary M coords1 coords2 0.01 in
  JS.Normal
    (if (2 <=? length sharedBoundary)%nat
     then boundaries ++ [
       {| coordinates := sharedBoundary;
          regions := [region1Name; region2Name];
          countries := [getCountryCode country1; getCountryCode country2];
          id := "boundary_" +:+ region1Name +:+ "_" +:+ region2Name +:+ "_"
                +:+ JS.decimal (length boundaries);
          type := kind |} ]
     else boundaries).

Definition betweenRegions (M : Math) (kind region1Name region2Name : string)
    (region1Features region2Features : list feature)
    (boundaries : list BoundarySegment)
  : JS.completion (list BoundarySegment) :=
  JS.forEach
    (fun bs country1 =>
       JS.forEach
         (fun bs country2 =>
            pushBoundary M kind region1Name region2Name bs country1 country2)
         region2Features bs)
    region1Features boundaries.

(** [for (i ...) for (j = i + 1 ...)] over the entries of a table. *)
Fixpoint forEachPair {A S} (f : S -> A -> A -> JS.completion S)
    (entries : list A) (s : S) : JS.completion S :=
  match entries with
  | [] => JS.Normal s
  | e1 :: later =>
      let* s' := JS.forEach (fun s e2 => f s e1 e2) later s in
      forEachPair f later s'
  end.

Definition createManualRegionBoundaries (M : Math) (countries : list feature)
  : JS.completion (list BoundarySegment) :=
  forEachPair
    (fun boundaries '(region1Name, region1Countries)
                    '(region2Name, region2Countries) =>
       let region1Features :=
         List.filter (fun country =>
                        includesCode region1Countries (getCountryCode country))
                     countries in
       let region2Features :=
         List.filter (fun country =>
                        includesCode region2Countries (getCountryCode country))
                     countries in
       betweenRegions M "manual_boundary" region1Name region2Name
                      region1Features region2Features boundaries)
    REGIONS [].

(** [.toLowerCase().replace(/[\s&]+/g, '_')]. *)
Definition isSeparator (c : ascii) : bool :=
  JS.isWhiteSpace c || (nat_of_ascii c =? 38)%nat.

Definition slug (s : string) : string :=
  JS.replaceRuns isSeparator false (JS.toLowerCase s).

(** The chain of tests on the continent, written twice in the source
    ([createDataDrivenRegions] and [getCountryRegion]). *)
Definition derivedRegionKey (continent subregion : string) : string :=
  if String.eqb continent "Europe" then slug ("europe_" +:+ subregion)
  else if String.eqb continent "Africa" then slug ("africa_" +:+ subregion)
  else if String.eqb continent "Asia" then slug ("asia_" +:+ subregion)
  else if String.eqb continent "North America" then
    if String.eqb subregion "Northern America"
    then "north_america"
    else "central_america_caribbean"
  else if String.eqb continent "South America" then "south_america"
  else if String.eqb continent "Oceania" then slug ("oceania_" +:+ subregion)
  else slug continent.

(** [bag.CONTINENT || 'Unknown'] and
    [bag.SUBREGION || bag.REGION_UN || 'Unknown']. *)
Definition continentOf (bag : option propertyBag) : string :=
  default "Unknown" (JS.truthyStr (bag ≫= CONTINENT)).

Definition subregionOf (bag : option propertyBag) : string :=
  default "Unknown"
    (JS.truthyStr (JS.orStr (bag ≫= SUBREGION) (bag ≫= REGION_UN))).

(** [if (!regionMap.has(key)) regionMap.set(key, []);
     regionMap.get(key).push(country)] on an insertion-ordered [Map]. *)
Fixpoint mapPush (regionMap : list (string * list feature)) (key : string)
    (country : feature) : list (string * list feature) :=
  match regionMap with
  | [] => [(key, [country])]
  | (k, members) :: rest =>
      if String.eqb k key
      then (k, members ++ [country]) :: rest
      else (k, members) :: mapPush rest key country
  end.

(** [createDataDrivenRegions]; [country.properties.CONTINENT] throws on a
    [null] property bag. *)
Definition createDataDrivenRegions (countries : list feature)
  : JS.completion (list (string * list feature)) :=
  JS.forEach
    (fun regionMap country =>
       match properties country with
       | None => JS.Throw
       | Some bag =>
           let continent := continentOf (Some bag) in
           let subregion := subregionOf (Some bag) in
           JS.Normal
             (mapPush regionMap (derivedRegionKey continent subregion) country)
       end)
    countries [].

Definition createDataDrivenRegionBoundaries (M : Math)
    (countries : list feature) : JS.completion (list BoundarySegment) :=
  let* dataRegions := createDataDrivenRegions countries in
  forEachPair
    (fun boundaries '(region1Name, region1Countries)
                    '(region2Name, region2Countries) =>
       betweenRegions M "data_driven_boundary" region1Name region2Name
                      region1Countries region2Countries boundaries)
    dataRegions [].

(* ================================================================== *)
(** * Dataset catalogue and height getters                             *)
(* ================================================================== *)

Module Dataset.
(** A descriptor of [AVAILABLE_DATASETS]; [name], [format] and
    [disabledReason] only feed labels and are left out. *)
Record t : Type := {
  id : string;
  category : string;
  unit : string;
  disabled : bool;
  getter : feature -> JS.completion JS.number
}.
End Dataset.

(** [a || b || 0] on two optional numeric properties. *)
Definition firstTruthy (a b : option Q) : Q :=
  match JS.truthyNum a with
  | Some q => q
  | None => default 0%Q (JS.truthyNum b)
  end.

(** [feat.properties.GDP_MD_EST || feat.properties.GDP_MD || 0]. *)
Definition gdpGetter (feat : feature) : JS.completion JS.number :=
  match properties feat with
  | None => JS.Throw
  | Some bag => JS.Normal (JS.Num (firstTruthy (GDP_MD_EST bag) (GDP_MD bag)))
  end.

(** [feat.properties.POP_EST || feat.properties.POP2005 || 0]. *)
Definition populationGetter (feat : feature) : JS.completion JS.number :=
  match properties feat with
  | None => JS.Throw
  | Some bag => JS.Normal (JS.Num (firstTruthy (POP_EST bag) (POP2005 bag)))
  end.

(** The object literal [AVAILABLE_DATASETS] in source order; a key written
    twice keeps its last descriptor.  Every accessor other than [gdp] and
    [population] reads the fetch cache or an inline table and is supplied by
    [external]. *)
Section Catalogue.

Variable external : string -> feature -> JS.completion JS.number.

Definition descriptor (key category unit : string) (disabled : bool)
  : string * Dataset.t :=
  (key, {| Dataset.id := key; Dataset.category := category;
           Dataset.unit := unit; Dataset.disabled := disabled;
           Dataset.getter := external key |}).

Definition datasetLiteral : list (string * Dataset.t) := [
  ("gdp", {| Dataset.id := "gdp"; Dataset.category := "Built-in";
             Dataset.unit := "B$"; Dataset.disabled := false;
             Dataset.getter := gdpGetter |});
  ("population",
    {| Dataset.id := "population"; Dataset.category := "Built-in";
       Dataset.unit := "M"; Dataset.disabled := false;
       Dataset.getter := populationGetter |});
  descriptor "area" "Built-in" "K km²" false;
  descriptor "neighbors" "Built-in" "" false;
  descriptor "forest_area" "World Bank" "%" false;
  descriptor "co2_emissions" "World Bank" "t/capita" true;
  descriptor "urban_population" "World Bank" "%" false;
  descriptor "internet_users" "World Bank" "%" false;
  descriptor "education_expenditure" "World Bank" "% GDP" true;
  descriptor "renewable_electricity" "World Bank" "%" true;
  descriptor "life_expectancy" "World Bank" "years" true;
  descriptor "gdp_growth" "World Bank" "%" true;
  descriptor "unemployment" "World Bank" "%" true;
  descriptor "exports_gdp" "World Bank" "% GDP" true;
  descriptor "military_expenditure" "World Bank" "% GDP" false;
  descriptor "population_density" "Calculated" "people/km²" false;
  descriptor "gdp_per_capita" "Calculated" "USD" false;
  descriptor "economic_complexity" "Economic" "index" false;
  descriptor "digital_competitiveness" "Technology" "score" false;
  descriptor "energy_security" "Energy" "index" false;
  descriptor "corruption_index" "Governance" "score" false;
  descriptor "innovation_index" "Innovation" "score" false;
  descriptor "life_expectancy" "Our World in Data" "years" false;
  descriptor "internet_usage" "Our World in Data" "%" false;
  descriptor "coffee_production" "FAOSTAT" "tonnes" false;
  descriptor "crop_yield" "FAOSTAT" "index" false;
  descriptor "road_density" "World Bank" "km/100km²" false;
  descriptor "urbanization" "World Bank" "%" false;
  descriptor "industrial_production" "UN Data" "index" false;
  descriptor "tourism_arrivals" "UN Data" "M" false;
  descriptor "oil_production" "Energy Institute" "bbl/day" false;
  descriptor "energy_consumption" "Energy Institute" "TWh" false;
  descriptor "gold_production" "USGS Minerals" "tonnes" false;
  descriptor "copper_reserves" "USGS Minerals" "Mt" false;
  descriptor "road_density" "World Bank" "km/100km²" false;
  descriptor "urbanization" "World Bank" "%" false;
  descriptor "gdp_per_capita" "World Bank" "USD" false;
  descriptor "population_density" "World Bank" "/km²" false;
  descriptor "military_expenditure" "World Bank" "% GDP" false;
  descriptor "healthcare_expenditure" "World Bank" "% GDP" false
].

Definition AVAILABLE_DATASETS : gmap string Dataset.t :=
  fold_left (fun acc kd => <[fst kd := snd kd]> acc) datasetLiteral ∅.

End Catalogue.

(** The wrapper that [HEIGHT_GETTERS] puts around an accessor:
    [try { value = getter(feat); return isNaN(value) || value < 0 ? 0 : value }
     catch (error) { console.warn(...); return 0 }]. *)
Definition guarded (dataset : Dataset.t) (feat : feature)
  : JS.completion JS.number :=
  match Dataset.getter dataset feat with
  | JS.Normal value =>
      JS.Normal (if JS.isNaN value || JS.negative value
                 then JS.Num 0
                 else value)
  | JS.Throw => JS.Normal (JS.Num 0)
  end.

(** [Object.fromEntries(Object.entries(catalogue)
      .filter(([key, dataset]) => !dataset.disabled).map(...))]. *)
Definition HEIGHT_GETTERS (catalogue : gmap string Dataset.t)
  : gmap string (feature -> JS.completion JS.number) :=
  guarded <$> filter (fun kd => Dataset.disabled (snd kd) = false) catalogue.

(** The number a height getter hands to arithmetic.  A getter of
    [HEIGHT_GETTERS] always completes with a finite number, so the last two
    cases do not arise for it. *)
Definition numberOf (c : JS.completion JS.number) : Q :=
  match c with
  | JS.Normal (JS.Num q) => q
  | JS.Normal JS.NaN => 0
  | JS.Throw => 0
  end.

(* ================================================================== *)
(** * Height statistics                                                *)
(* ================================================================== *)

Record HeightStatistics : Type := {
  max : Q;
  min : Q;
  mean : Q;
  median : Q;
  values : list Q;
  adjustedMax : Q;
  outliers : list Q
}.

Definition defaultStatistics : HeightStatistics :=
  {| max := 1; min := 0; mean := 0.5; median := 0.5; values := [];
     adjustedMax := 1; outliers := [] |}.

(** [values[Math.floor(values.length * p)]]. *)
Definition percentile (values : list Q) (p : Q) : Q :=
  nth (JS.floorIndex (length values) p) values 0%Q.

Module Stats.
Section Locals.
(** The locals of [heightStats] for a non-empty sorted array
    [values = first :: rest]. *)
Variables (first : Q) (rest : list Q).
Let values := first :: rest.
Let n := length values.

Definition max : Q := JS.maxOf first rest.
Definition min : Q := JS.minOf first rest.
Definition mean : Q := (JS.sum values / inject_Z (Z.of_nat n))%Q.
Definition median : Q :=
  if (n mod 2 =? 0)%nat
  then ((nth (n / 2 - 1) values 0 + nth (n / 2) values 0) / 2)%Q
  else nth (n / 2) values 0%Q.

Definition q1 : Q := percentile values 0.25.
Definition q3 : Q := percentile values 0.75.
Definition p95 : Q := percentile values 0.95.
Definition p99 : Q := percentile values 0.99.

Definition iqr : Q := (q3 - q1)%Q.
Definition outlierThreshold : Q := (q3 + iqr * 2.5)%Q.

Definition maxToP95Ratio : Q := (max / Qmax p95 1)%Q.
Definition maxToMeanRatio : Q := (max / Qmax mean 1)%Q.
Definition maxToMedianRatio : Q := (max / Qmax median 1)%Q.

Definition isExtremeCrusher : bool :=
  JS.gtb maxToP95Ratio 3.0
  || JS.gtb maxToMeanRatio 8.0
  || JS.gtb maxToMedianRatio 10.0
  || JS.gtb max outlierThreshold.

Definition extremeOutliers : list Q :=
  List.filter
    (fun v => JS.gtb v outlierThreshold
              || JS.gtb (v / Qmax p95 1) 2.5
              || JS.gtb (v / Qmax mean 1) 6.0)
    values.

Definition dampenedMax : Q :=
  let option1 := (p95 * 1.5)%Q in
  let option2 := (mean * 3.0)%Q in
  let option3 := (median * 4.0)%Q in
  let adjustedMax := Qmax (Qmax option1 option2) option3 in
  let adjustedMax := Qmax adjustedMax (max * 0.3) in
  Qmin adjustedMax (max * 0.8).

Definition result : HeightStatistics :=
  Build_HeightStatistics
    max min mean median values
    (if isExtremeCrusher then dampenedMax else max)
    (if isExtremeCrusher then extremeOutliers else []).
End Locals.
End Stats.

(** [features.map(heightGetter).filter(v => v > 0).sort((a, b) => a - b)]. *)
Definition positiveValues (heightGetter : feature -> JS.completion JS.number)
    (features : list feature) : list Q :=
  JS.sortAscending
    (List.filter (fun v => JS.gtb v 0)
                 (map (fun feat => numberOf (heightGetter feat)) features)).

(** The statistics of a sorted array of positive values (the memo body after
    [values] is computed). *)
Definition statisticsOf (values : list Q) : HeightStatistics :=
  match values with
  | [] => defaultStatistics
  | first :: rest => Stats.result first rest
  end.

Definition crusher (values : list Q) : bool :=
  match values with
  | [] => false
  | first :: rest => Stats.isExtremeCrusher first rest
  end.

Definition computeStatistics
    (heightGetter : feature -> JS.completion JS.number)
    (features : list feature) : HeightStatistics :=
  statisticsOf (positiveValues heightGetter features).

(** The memo [heightStats]; calling [features.map] with the [undefined]
    getter of an unknown or disabled key throws. *)
Definition heightStats (catalogue : gmap string Dataset.t)
    (features : list feature) (heightFilter : string)
  : JS.completion HeightStatistics :=
  if (length features =? 0)%nat || String.eqb heightFilter "none"
  then JS.Normal defaultStatistics
  else match HEIGHT_GETTERS catalogue !! heightFilter with
       | None => JS.Throw
       | Some heightGetter => JS.Normal (computeStatistics heightGetter features)
       end.

(* ================================================================== *)
(** * Region of a country and polygon height                           *)
(* ================================================================== *)

(** [getCountryRegion]: [useDataDrivenRegions] selects the derived key,
    otherwise [REGION_MAPPING[countryCode] || 'unknown']. *)
Definition getCountryRegion (useDataDrivenRegions : bool) (country : feature)
  : regionKey :=
  let countryCode := getCountryCode country in
  if useDataDrivenRegions
  then Named (derivedRegionKey (continentOf (properties country))
                               (subregionOf (properties country)))
  else default (Named "unknown") (truthyKey (regionOf countryCode)).

(** An element of [polygonData]: a feature with its layer and identifier. *)
Record polygonDatum : Type := {
  feat : feature;
  layer : string;
  pid : string
}.

Definition createPolygonData (countries : list feature) : list polygonDatum :=
  let surfaceOutlines :=
    map (fun '(index, feature) =>
           {| feat := feature; layer := "surface";
              pid := "surface_" +:+ JS.decimal index |})
        (indexed countries) in
  let elevatedCountries :=
    map (fun '(index, feature) =>
           {| feat := feature; layer := "elevated";
              pid := "elevated_" +:+ JS.decimal index |})
        (indexed countries) in
  surfaceOutlines ++ elevatedCountries.

(** [a / b] when the quotient is a finite number. *)
Definition quotient (a b : Q) : option Q :=
  if JS.eqb b 0 then None else Some (a / b)%Q.

(** [Math.min(bound, a / b)]: a quotient [+Infinity] is cut to [bound]; [NaN]
    and [-Infinity] stay and are not finite. *)
Definition minWithQuotient (bound a b : Q) : option Q :=
  match quotient a b with
  | Some q => Some (Qmin bound q)
  | None => if JS.gtb a 0 then Some bound else None
  end.

Definition baseHeight : Q := 0.005.

Definition isBuiltIn (heightFilter : string) : bool :=
  existsb (String.eqb heightFilter) ["gdp"; "population"; "area"; "neighbors"].

(** The value of [normalized] before any scaling. *)
Definition normalize (stats : HeightStatistics) (value : Q) : option Q :=
  let isOutlier := JS.includes (outliers stats) value in
  let workingMax := adjustedMax stats in
  let range := (workingMax - min stats)%Q in
  if isOutlier && JS.gtb value workingMax
  then r ← quotient (value - workingMax) (max stats - workingMax);
       Some (1.0 + r * 0.8)%Q
  else minWithQuotient 1.0 (value - min stats) range.

(** Phases 1 to 4 of the adaptive exponent; an empty [values] makes every
    intermediate result [NaN]. *)
Definition adaptiveExponent (M : Math) (stats : HeightStatistics) : option Q :=
  let values := values stats in
  let mean := mean stats in
  let max := max stats in
  let min := min stats in
  match values with
  | [] => None
  | _ :: _ =>
    let sortedValues := JS.sortAscending values in
    let stdDev :=
      sqrt M (fold_left (fun sum val => sum + (val - mean) * (val - mean))
                        values 0
              / inject_Z (Z.of_nat (length values)))%Q in
    let coefficientOfVariation := (stdDev / Qmax mean 0.001)%Q in
    let p90 := percentile sortedValues 0.90 in
    let p95 := percentile sortedValues 0.95 in
    let p99 := percentile sortedValues 0.99 in
    let maxToP95Ratio := (max / Qmax p95 0.001)%Q in
    let maxToP90Ratio := (max / Qmax p90 0.001)%Q in
    let p99ToP90Ratio := (p99 / Qmax p90 0.001)%Q in
    let topCompression := ((max - p95) / Qmax (max - min) 0.001)%Q in
    let exponent :=
      (if JS.ltb coefficientOfVariation 0.4
       then 2.0 + (0.4 - coefficientOfVariation) * 2.5
       else if JS.gtb coefficientOfVariation 1.2
            then Qmax 0.4 (1.0 - (coefficientOfVariation - 1.2) * 0.3)
            else 1.0 + (0.8 - Qabs (coefficientOfVariation - 0.8)) * 1.5)%Q in
    let exponent :=
      (if JS.gtb maxToP95Ratio 3.0
       then let outlierIntensity := Qmin 1.0 ((maxToP95Ratio - 3.0) / 7.0) in
            exponent * (1.0 - outlierIntensity * 0.6)
       else exponent)%Q in
    let exponent :=
      (if JS.gtb topCompression 0.3
       then let compressionFactor := Qmin 1.0 ((topCompression - 0.3) / 0.4) in
            exponent * (1.0 - compressionFactor * 0.4)
       else exponent)%Q in
    let exponent :=
      (if JS.gtb p99ToP90Ratio 2.0 then exponent * 0.8 else exponent)%Q in
    let exponent :=
      if JS.gtb maxToP90Ratio 5.0 then Qmin exponent 0.6 else exponent in
    Some (if JS.gtb exponent 1.0
          then Qmax 1.1 (Qmin 3.5 exponent)
          else Qmax 0.3 (Qmin 0.95 exponent))
  end.

(** Phases 5 and 6: the power and the smoothing of the two ends. *)
Definition adaptiveScale (M : Math) (exponent normalized : Q) : Q :=
  let normalized := pow M normalized exponent in
  (if JS.gtb exponent 1.0 && JS.gtb normalized 0.9
   then let topPortion := (normalized - 0.9) / 0.1 in
        0.9 + (topPortion * 0.1 * 0.85)
   else if JS.ltb exponent 1.0 && JS.ltb normalized 0.1
        then let bottomPortion := normalized / 0.1 in
             bottomPortion * 0.15
        else normalized)%Q.

(** The scaling selected by the dataset: fixed for the four built-in
    identifiers, adaptive for every other one. *)
Definition scale (M : Math) (heightFilter : string) (stats : HeightStatistics)
    (normalized : Q) : option Q :=
  if isBuiltIn heightFilter
  then if String.eqb heightFilter "gdp" then Some normalized
       else if String.eqb heightFilter "area" then Some (pow M normalized 0.7)
       else if String.eqb heightFilter "population"
            then Some (pow M normalized 0.6)
            else Some normalized
  else exponent ← adaptiveExponent M stats;
       Some (adaptiveScale M exponent normalized).

Definition heightMultiplier (catalogue : gmap string Dataset.t)
    (heightFilter : string) : Q :=
  let dataset := catalogue !! heightFilter in
  if isBuiltIn heightFilter then 0.3
  else if from_option (fun d => String.eqb (Dataset.unit d) "%") false dataset
       then 0.25
       else if from_option
                 (fun d => String.eqb (Dataset.category d) "USGS Minerals"
                           || String.eqb (Dataset.category d) "Energy Institute")
                 false dataset
            then 0.28
            else 0.25.

(** [calculatedHeight] as it stands before the hover effects, for the value
    the height getter returned; [None] when the result is not a finite
    number. *)
Definition calculatedHeight (M : Math) (catalogue : gmap string Dataset.t)
    (heightFilter : string) (stats : HeightStatistics) (value : Q)
  : option Q :=
  let isOutlier := JS.includes (outliers stats) value in
  if JS.gtb value 0 && JS.gtb (max stats) (min stats)
  then normalized ← normalize stats value;
       normalized ← scale M heightFilter stats normalized;
       let heightMultiplier := heightMultiplier catalogue heightFilter in
       Some (if isOutlier && JS.gtb normalized 1.0
             then baseHeight + (heightMultiplier * 1.0)
                  + ((normalized - 1.0) * heightMultiplier * 0.8)
             else normalized * heightMultiplier + baseHeight)%Q
  else Some baseHeight.

(** The additive hover effect; [country === hoverD] compares the two polygon
    objects, which have distinct identifiers. *)
Definition hoverDelta (useDataDrivenRegions : bool)
    (hoverD : option polygonDatum) (country : polygonDatum) : Q :=
  match hoverD with
  | None => 0
  | Some hovered =>
      let hoveredRegion := getCountryRegion useDataDrivenRegions (feat hovered) in
      let countryRegion := getCountryRegion useDataDrivenRegions (feat country) in
      let same := String.eqb (pid country) (pid hovered) in
      if truthyRegion hoveredRegion
         && regionEqb countryRegion hoveredRegion
      then if same then 0.05 else 0.02
      else if same then 0.01 else 0
  end.

Definition getPolygonHeight (M : Math) (catalogue : gmap string Dataset.t)
    (useDataDrivenRegions : bool) (hoverD : option polygonDatum)
    (heightFilter : string) (heightStats : HeightStatistics)
    (country : polygonDatum) : JS.completion (option Q) :=
  if String.eqb (layer country) "surface" then JS.Normal (Some 0%Q)
  else
    let* calculated :=
      if negb (String.eqb heightFilter "none")
      then match HEIGHT_GETTERS catalogue !! heightFilter with
           | None => JS.Throw
           | Some heightGetter =>
               JS.Normal
                 (calculatedHeight M catalogue heightFilter heightStats
                    (numberOf (heightGetter (feat country))))
           end
      else JS.Normal (Some baseHeight) in
    JS.Normal
      (h ← calculated;
       Some (h + hoverDelta useDataDrivenRegions hoverD country)%Q).

(* ================================================================== *)
(** * Effects: admitted features, boundaries, dataset selection        *)
(* ================================================================== *)

(** [REGION_MAPPING[code]] used as a condition. *)
Definition hasRegion (f : feature) : bool :=
  bool_decide (is_Some (truthyKey (regionOf (getCountryCode f)))).

(** The load effect: drop excluded countries, keep those with a region, and
    hand the collection to [rewind] of the geometry library, which re-orients
    rings. *)
Definition loadCountries (rewind : geometry -> geometry)
    (features : list feature) : list feature :=
  let filtered :=
    List.filter (fun f => negb (excluded (getCountryCode f))) features in
  let withRegionsOnly := List.filter hasRegion filtered in
  map (fun f => {| properties := properties f; geom := rewind (geom f) |})
      withRegionsOnly.

(** The effect that refreshes [regionBoundaries]; with no feature the state
    keeps its value. *)
Definition regionBoundariesEffect (M : Math) (useDataDrivenRegions : bool)
    (features : list feature) (regionBoundaries : list BoundarySegment)
  : JS.completion (list BoundarySegment) :=
  if (0 <? length features)%nat
  then let withRegionsOnly := List.filter hasRegion features in
       if useDataDrivenRegions
       then createDataDrivenRegionBoundaries M withRegionsOnly
       else createManualRegionBoundaries M withRegionsOnly
  else JS.Normal regionBoundaries.

(** State of the dataset selection and of the height filter. *)
Record selection : Type := {
  selectedDatasets : list string;
  heightFilter : string
}.

Definition initialSelection : selection :=
  {| selectedDatasets :=
       ["gdp"; "population"; "area"; "neighbors";
        "forest_area"; "internet_users"; "urban_population";
        "military_expenditure"];
     heightFilter := "none" |}.

Definition handleDatasetSelect (catalogue : gmap string Dataset.t)
    (datasetId : string) (prev : list string) : list string :=
  if from_option Dataset.disabled false (catalogue !! datasetId)
  then prev
  else if existsb (String.eqb datasetId) prev
       then List.filter (fun id => negb (String.eqb id datasetId)) prev
       else prev ++ [datasetId].

Definition handleDatasetDeselect (datasetId : string) (prev : list string)
  : list string :=
  List.filter (fun id => negb (String.eqb id datasetId)) prev.

(** The keys of [heightFilterButtons] (labels left out). *)
Definition heightFilterButtons (selectedDatasets : list string) : list string :=
  map (fun datasetId => datasetId) selectedDatasets.

Inductive event : Type :=
| SelectDataset (datasetId : string)
| DeselectDataset (datasetId : string)
| ClickHeightButton (key : string).

(** One user action; a height button exists only for a selected dataset. *)
Definition dispatch (catalogue : gmap string Dataset.t) (st : selection)
    (e : event) : selection :=
  match e with
  | SelectDataset datasetId =>
      {| selectedDatasets :=
           handleDatasetSelect catalogue datasetId (selectedDatasets st);
         heightFilter := heightFilter st |}
  | DeselectDataset datasetId =>
      {| selectedDatasets := handleDatasetDeselect datasetId (selectedDatasets st);
         heightFilter := heightFilter st |}
  | ClickHeightButton key =>
      if existsb (String.eqb key) (heightFilterButtons (selectedDatasets st))
      then {| selectedDatasets := selectedDatasets st;
              heightFilter :=
                if String.eqb (heightFilter st) key then "none" else key |}
      else st
  end.

Definition run (catalogue : gmap string Dataset.t) (events : list event)
  : selection :=
  fold_left (dispatch catalogue) events initialSelection.

(* ================================================================== *)
(** * Statements: accessors, selection, classification                   *)
(* ================================================================== *)

(** The three failures of a raw accessor named by the failure policy. *)
Definition accessorFails (c : JS.completion JS.number) : Prop :=
  c = JS.Throw \/ c = JS.Normal JS.NaN
  \/ exists q, c = JS.Normal (JS.Num q) /\ (q < 0)%Q.

(** The invariant of the dataset selection: no selected identifier, and no
    identifier held by the height filter, names a disabled descriptor. *)
Definition selectable (catalogue : gmap string Dataset.t) (datasetId : string)
  : Prop :=
  from_option Dataset.disabled false (catalogue !! datasetId) = false.

Definition selectionOk (catalogue : gmap string Dataset.t) (st : selection)
  : Prop :=
  Forall (selectable catalogue) (selectedDatasets st)
  /\ (heightFilter st = "none" \/ selectable catalogue (heightFilter st)).

(** Derived classification as the specification words it.  [slugify] is the
    normalisation of a key; the four continents that keep their subregion are
    tested by name. *)
Definition keepsSubregion (continent : string) : bool :=
  existsb (String.eqb continent) ["Europe"; "Africa"; "Asia"; "Oceania"].

Definition derivedKeySpec (slugify : string -> string)
    (continent subregion : string) : string :=
  if keepsSubregion continent then slugify (continent +:+ "_" +:+ subregion)
  else if String.eqb continent "North America" then
    if String.eqb subregion "Northern America"
    then "north_america"
    else "central_america_caribbean"
  else if String.eqb continent "South America" then "south_america"
  else slugify continent.

(** "Lower-cased, non-alphanumeric runs collapsed to an underscore". *)
Definition isAlphaNumeric (c : ascii) : bool :=
  let n := nat_of_ascii c in
  (((48 <=? n) && (n <=? 57)) || ((65 <=? n) && (n <=? 90))
   || ((97 <=? n) && (n <=? 122)))%nat.

Definition alphaNumericSlug (s : string) : string :=
  JS.replaceRuns (fun c => negb (isAlphaNumeric c)) false (JS.toLowerCase s).

(* ================================================================== *)
(** * Statements: boundaries                                             *)
(* ================================================================== *)

(** A geometry whose polygons all have an outer ring. *)
Definition wellFormed (g : geometry) : Prop :=
  match g with
  | Polygon coordinates => coordinates <> []
  | MultiPolygon coordinates =>
      coordinates <> [] /\ Forall (fun polygon => polygon <> []) coordinates
  | OtherGeometry => True
  end.

(** What a completed extraction returned. *)
Definition returned {A} (c : JS.completion (list A)) : list A :=
  match c with
  | JS.Normal xs => xs
  | JS.Throw => []
  end.

(** The extraction selected by the classification mode. *)
Definition extractBoundaries (M : Math) (useDataDrivenRegions : bool)
    (countries : list feature) : JS.completion (list BoundarySegment) :=
  if useDataDrivenRegions
  then createDataDrivenRegionBoundaries M countries
  else createManualRegionBoundaries M countries.



(** A resolved code that the static table knows and the exclusion set does
    not contain. *)
Definition admittedCode (code : option string) : Prop :=
  exists c region,
    code = Some c /\ REGION_MAPPING !! c = Some region
    /\ c ∉ EXCLUDED_COUNTRIES.

Definition admitted (f : feature) : Prop := admittedCode (getCountryCode f).

(** The square of the planar Euclidean distance between two points; the
    distance itself is its square root, so one distance is below another
    exactly when the squares are. *)
Definition squaredDistance (a b : point) : Q :=
  ((fst a - fst b) * (fst a - fst b) + (snd a - snd b) * (snd a - snd b))%Q.

(** What the ordering of points needs of [Math.sqrt]: on the squared
    distances between the points at hand it keeps the strict order, as the
    real square root does. *)
Definition sqrtOrders (M : Math) (points : list point) : Prop :=
  forall a b c,
    In a points -> In b points -> In c points ->
    (squaredDistance a b < squaredDistance a c)%Q ->
    (sqrt M (squaredDistance a b) < sqrt M (squaredDistance a c))%Q.


(** The planar distance between two points is below the tolerance. *)
Definition closeTo (tolerance : Q) (p q : point) : bool :=
  negb (Qle_bool (tolerance * tolerance) (squaredDistance p q)).

(** The vertices of ring B, one for every position of the ring, that are
    within the tolerance of some vertex of ring A.  A closed ring holds its
    first vertex again at its last position. *)
Definition closePositions (tolerance : Q) (ringA ringB : ring) : list point :=
  List.filter (fun q => existsb (fun p => closeTo tolerance p q) ringA) ringB.

(** Two points with the same coordinates. *)
Definition samePoint (p q : point) : bool :=
  Qeq_bool (fst p) (fst q) && Qeq_bool (snd p) (snd q).

Fixpoint distinctPoints (points : list point) : list point :=
  match points with
  | [] => []
  | p :: rest =>
      if existsb (samePoint p) rest
      then distinctPoints rest
      else p :: distinctPoints rest
  end.

(** The points that two rings share within the tolerance: the points of
    ring A, each counted once, that are within the tolerance of some point
    of ring B. *)
Definition commonPoints (tolerance : Q) (ringA ringB : ring) : list point :=
  distinctPoints
    (List.filter (fun p => existsb (fun q => closeTo tolerance p q) ringB)
                 ringA).

(** The greedy chain: every point is, among the points not yet used, one at
    the least distance from its predecessor. *)
Inductive greedyFrom (M : Math) : point -> list point -> Prop :=
| greedy_done (lastPoint : point) : greedyFrom M lastPoint []
| greedy_step (lastPoint p : point) (rest : list point) :
    (forall r, In r (p :: rest) ->
               (distance M lastPoint p <= distance M lastPoint r)%Q) ->
    greedyFrom M p rest ->
    greedyFrom M lastPoint (p :: rest).

(** The state of the scan after the points [done]: nothing chosen yet, or the
    index of a point of [L] whose distance is least among [done]. *)
Definition scanned (M : Math) (lastPoint : point) (L done : list point)
    (st : nat * option Q) : Prop :=
  match snd st with
  | None => done = []
  | Some m =>
      exists p, L !! fst st = Some p
                /\ m = distance M lastPoint p
                /\ Forall (fun r => (m <= distance M lastPoint r)%Q) done
  end.

(* ================================================================== *)
(** * Statements: statistics and height                                  *)
(* ================================================================== *)

(** [x] cut to the interval from [lo] to [hi]. *)
Definition clamp (lo hi x : Q) : Q :=
  if JS.ltb x lo then lo else if JS.ltb hi x then hi else x.

(** The element at the index of the [k]-th percentile of an array. *)
Definition atPercent (values : list Q) (k : nat) : Q :=
  nth (length values * k / 100) values 0%Q.

(** The arithmetic mean of an array. *)
Definition average (values : list Q) : Q :=
  (JS.sum values / inject_Z (Z.of_nat (length values)))%Q.

(** The crusher condition with every ratio taken against a denominator that
    is at least 1, over [values = first :: rest]. *)
Definition crusherCondition (first : Q) (rest : list Q) : Prop :=
  let values := first :: rest in
  let max := Stats.max first rest in
  let Q1 := atPercent values 25 in
  let Q3 := atPercent values 75 in
  let p95 := atPercent values 95 in
  (3.0 < max / Qmax p95 1
   \/ 8.0 < max / Qmax (average values) 1
   \/ 10.0 < max / Qmax (Stats.median first rest) 1
   \/ Q3 + 2.5 * (Q3 - Q1) < max)%Q.

(** The condition with the plain ratios, as the specification states it. *)
Definition plainRatioCondition (first : Q) (rest : list Q) : Prop :=
  let values := first :: rest in
  let max := Stats.max first rest in
  let Q1 := atPercent values 25 in
  let Q3 := atPercent values 75 in
  let p95 := atPercent values 95 in
  (3.0 < max / p95
   \/ 8.0 < max / average values
   \/ 10.0 < max / Stats.median first rest
   \/ Q3 + 2.5 * (Q3 - Q1) < max)%Q.

(** Scenario A: two features whose values under the active dataset are 100
    and 100,000,000, in either order. *)
Definition scenarioA (heightGetter : feature -> JS.completion JS.number)
    (f1 f2 : feature) : Prop :=
  (numberOf (heightGetter f1) = 100%Q
   /\ numberOf (heightGetter f2) = 100000000%Q)
  \/ (numberOf (heightGetter f1) = 100000000%Q
      /\ numberOf (heightGetter f2) = 100%Q).

(** What the height bound needs from [Math.pow]: a power of a number of the
    unit interval with a positive exponent stays in the unit interval. *)
Definition unitPower (M : Math) : Prop :=
  forall x e, (0 <= x <= 1)%Q -> (0 < e)%Q -> (0 <= pow M x e <= 1)%Q.

(* ================================================================== *)
(** * Sample inputs                                                      *)
(* ================================================================== *)

(** A rational stand-in for the host functions, used to evaluate the code on
    concrete inputs: square roots to six decimals, powers with the exponent
    rounded down to an integer. *)
Definition sampleMath : Math :=
  {| sqrt := fun q => (Z.sqrt (Qfloor (q * 1000000000000)) # 1000000)%Q;
     pow := fun x e => Qpower x (Qfloor e) |}.

(** A catalogue whose external accessors find no data. *)
Definition offlineCatalogue : gmap string Dataset.t :=
  AVAILABLE_DATASETS (fun _ _ => JS.Normal (JS.Num 0)).

(** The descriptor [AVAILABLE_DATASETS.gdp]. *)
Definition gdpDataset : Dataset.t :=
  {| Dataset.id := "gdp"; Dataset.category := "Built-in";
     Dataset.unit := "B$"; Dataset.disabled := false;
     Dataset.getter := gdpGetter |}.

(** A property bag with a country code, its continent and subregion and a
    GDP estimate, and the polygon feature that carries it. *)
Definition bagOf (iso2 continent subregion : string) (gdp : Q) : propertyBag :=
  {| ISO_A2 := Some iso2; ADMIN := None; NAME := None;
     CONTINENT := Some continent; SUBREGION := Some subregion;
     REGION_UN := None;
     GDP_MD_EST := Some gdp; GDP_MD := None;
     POP_EST := None; POP2005 := None |}.

Definition countryOf (iso2 continent subregion : string) (gdp : Q)
    (outer : ring) : feature :=
  {| properties := Some (bagOf iso2 continent subregion gdp);
     geom := Polygon [outer] |}.

(** A feature that only carries a GDP estimate. *)
Definition gdpFeature (gdp : Q) : feature :=
  countryOf "FR" "Europe" "Western Europe" gdp [].

(** A feature whose property bag is [null]. *)
Definition bareFeature : feature :=
  {| properties := None; geom := OtherGeometry |}.

(** A country of South-Eastern Asia. *)
Definition vietnam : feature :=
  countryOf "VN" "Asia" "South-Eastern Asia" 200000 [].

(** Two neighbouring squares: Spain to the east of France, sharing the edge
    from (1,0) to (1,1). *)
Definition france : feature :=
  countryOf "FR" "Europe" "Western Europe" 2700000
    [(0, 0); (1, 0); (1, 1); (0, 1); (0, 0)]%Q.

Definition spain : feature :=
  countryOf "ES" "Europe" "Southern Europe" 1400000
    [(1, 0); (2, 0); (2, 1); (1, 1); (1, 0)]%Q.

(** A square that touches [france] at the corner (1,1) only; the corner is
    not the vertex that closes its ring. *)
Definition italy : feature :=
  countryOf "IT" "Europe" "Southern Europe" 2000000
    [(2, 1); (2, 2); (1, 2); (1, 1); (2, 1)]%Q.

(** The square of [italy] with its ring closed on the corner (1,1), the
    only point it has in common with [france]. *)
Definition cornerSquare : feature :=
  countryOf "IT" "Europe" "Southern Europe" 2000000
    [(1, 1); (2, 1); (2, 2); (1, 2); (1, 1)]%Q.

(** An excluded territory, and a country that no region lists. *)
Definition greenland : feature :=
  countryOf "GL" "North America" "Northern America" 3000 [].

Definition brunei : feature :=
  countryOf "BN" "Asia" "South-Eastern Asia" 30000 [].

(** A feature whose ISO code is a property name of [Object.prototype], on
    the square of [france]. *)
Definition stray : feature :=
  countryOf "constructor" "Europe" "Western Europe" 1000
    [(0, 0); (1, 0); (1, 1); (0, 1); (0, 0)]%Q.

(** A raw collection: two admitted countries, the two features above and a
    feature with a [null] property bag. *)
Definition rawCollection : list feature :=
  [france; greenland; spain; brunei; bareFeature].

(** Four collinear points, discovered out of order. *)
Definition samplePoints : list point := [(0, 0); (5, 0); (1, 0); (3, 0)]%Q.

(** Three features whose GDP estimates are below one. *)
Definition smallEconomies : list feature :=
  [gdpFeature 0.01; gdpFeature 0.01; gdpFeature 0.5].

(** Five features with close GDP estimates. *)
Definition closeEconomies : list feature :=
  [gdpFeature 9; gdpFeature 10; gdpFeature 10; gdpFeature 10; gdpFeature 11].

(** The polygon of the elevated layer for the feature at [index]. *)
Definition elevated (index : nat) (f : feature) : polygonDatum :=
  {| feat := f; layer := "elevated";
     pid := "elevated_" +:+ JS.decimal index |}.

(* ================================================================== *)
(** * Statements: further properties of the code                       *)
(* ================================================================== *)

(** What the load effect makes of one feature: same property bag, geometry
    handed to [rewind]. *)
Definition rewound (rewind : geometry -> geometry) (f : feature) : feature :=
  {| properties := properties f; geom := rewind (geom f) |}.

(** An ISO code that [getCountryCode] does not accept as it stands: missing,
    empty, or one of the two sentinels. *)
Definition invalidIso (f : feature) : Prop :=
  JS.truthyStr (prop ISO_A2 f) = None
  \/ prop ISO_A2 f = Some "-99"
  \/ prop ISO_A2 f = Some "n/a".

(** Norway as the source data records it: the ISO code is the sentinel. *)
Definition norway : feature :=
  {| properties :=
       Some {| ISO_A2 := Some "-99"; ADMIN := Some "Norway";
               NAME := Some "Norway"; CONTINENT := Some "Europe";
               SUBREGION := Some "Northern Europe"; REGION_UN := None;
               GDP_MD_EST := Some 400000%Q; GDP_MD := None;
               POP_EST := None; POP2005 := None |};
     geom := Polygon [[]] |}.

(* ================================================================== *)
(** * Colours, hover and the country selection game                    *)
(* ================================================================== *)

(** [handlePolygonHover]: the hovered polygon becomes [null] or an elevated
    polygon; a surface polygon leaves the state as it is. *)
Definition handlePolygonHover (hoverD country : option polygonDatum)
  : option polygonDatum :=
  match country with
  | None => None
  | Some polygon =>
      if String.eqb (layer polygon) "elevated" then Some polygon else hoverD
  end.

(** [country === hoverD]. *)
Definition isHovered (hoverD : option polygonDatum) (country : polygonDatum)
  : bool :=
  match hoverD with
  | Some hovered => String.eqb (pid country) (pid hovered)
  | None => false
  end.

(** [hoveredRegion && countryRegion === hoveredRegion]. *)
Definition inHoveredRegion (useDataDrivenRegions : bool)
    (hoverD : option polygonDatum) (country : polygonDatum) : bool :=
  match hoverD with
  | Some hovered =>
      let hoveredRegion := getCountryRegion useDataDrivenRegions (feat hovered) in
      let countryRegion := getCountryRegion useDataDrivenRegions (feat country) in
      truthyRegion hoveredRegion
      && regionEqb countryRegion hoveredRegion
  | None => false
  end.

(** The loop over [Object.entries(playerCountries)] of [getCountryColor]:
    the colour of the first player whose list includes the code. *)
Fixpoint playerColor (teamColors : gmap string string)
    (playerCountries : list (string * list string))
    (countryCode : option string) : option string :=
  match playerCountries with
  | [] => None
  | (playerId, playerCountryList) :: rest =>
      if includesCode playerCountryList countryCode
      then Some (default "#666666" (JS.truthyStr (teamColors !! playerId)))
      else playerColor teamColors rest countryCode
  end.

Definition getCountryColor (useDataDrivenRegions : bool)
    (hoverD : option polygonDatum) (heightFilter : string)
    (playerCountries : list (string * list string))
    (teamColors : gmap string string) (country : polygonDatum) : string :=
  if String.eqb (layer country) "surface" then "transparent"
  else
    let countryCode := getCountryCode (feat country) in
    match playerColor teamColors playerCountries countryCode with
    | Some color => color
    | None =>
        if negb (String.eqb heightFilter "none")
        then if isHovered hoverD country then "rgba(255, 255, 255, 0.5)"
             else if inHoveredRegion useDataDrivenRegions hoverD country
                  then "rgba(80, 80, 80, 0.5)"
                  else "rgba(255, 255, 255, 0.05)"
        else if isHovered hoverD country then "rgba(255, 255, 255, 0.5)"
             else if inHoveredRegion useDataDrivenRegions hoverD country
                  then "rgba(80, 80, 80, 0.5)"
                  else "rgba(0, 0, 0, 0)"
    end.

Definition getSideColor (useDataDrivenRegions : bool)
    (hoverD : option polygonDatum) (heightFilter : string)
    (country : polygonDatum) : string :=
  if String.eqb (layer country) "surface" then "transparent"
  else if negb (String.eqb heightFilter "none")
       then if isHovered hoverD country then "rgba(255, 255, 255, 0.7)"
            else if inHoveredRegion useDataDrivenRegions hoverD country
                 then "rgba(255, 255, 255, 0.5)"
                 else "rgba(255, 255, 255, 0.05)"
       else if isHovered hoverD country then "rgba(255, 255, 255, 1)"
            else if inHoveredRegion useDataDrivenRegions hoverD country
                 then "rgba(255, 255, 255, 1)"
                 else "rgba(0, 0, 0, 0)".

Definition getStrokeColor (country : polygonDatum) : string :=
  if String.eqb (layer country) "surface" then "#000000" else "#666666".

(** The colours of the two teams. *)
Definition teamColors : gmap string string :=
  <["player1" := "#00FFFF"]> (<["player2" := "#FF00FF"]> ∅).

(** State of the game held by [App]. *)
Record game : Type := {
  selectedCountries : list string;
  gamePhase : string;
  currentPlayer : nat;
  playerCountries : list (string * list string)
}.

Definition initialGame : game :=
  {| selectedCountries := [];
     gamePhase := "country_selection";
     currentPlayer := 0;
     playerCountries := [("player1", []); ("player2", [])] |}.

(** [{...prev, [playerKey]: [...prev[playerKey], countryCode]}]: the list
    under [playerKey] gets the code appended; spreading [undefined] throws
    when the key is missing. *)
Fixpoint appendCountry (prev : list (string * list string))
    (playerKey countryCode : string)
  : JS.completion (list (string * list string)) :=
  match prev with
  | [] => JS.Throw
  | (key, countries) :: rest =>
      if String.eqb key playerKey
      then JS.Normal ((key, countries ++ [countryCode]) :: rest)
      else let* rest' := appendCountry rest playerKey countryCode in
           JS.Normal ((key, countries) :: rest')
  end.

Definition handleCountrySelect (g : game) (countryCode : string)
  : JS.completion game :=
  let playerKey := "player" +:+ JS.decimal (currentPlayer g + 1) in
  let* players := appendCountry (playerCountries g) playerKey countryCode in
  JS.Normal
    {| selectedCountries := selectedCountries g ++ [countryCode];
       gamePhase := gamePhase g;
       currentPlayer :=
         if String.eqb (gamePhase g) "country_selection"
         then (currentPlayer g + 1) mod 2
         else currentPlayer g;
       playerCountries := players |}.

(** [handleCountryClick] with [onCountrySelect = handleCountrySelect]. *)
Definition handleCountryClick (g : game) (country : polygonDatum)
  : JS.completion game :=
  if negb (String.eqb (gamePhase g) "country_selection")
     || negb (String.eqb (layer country) "elevated")
  then JS.Normal g
  else
    match JS.truthyStr (getCountryCode (feat country)) with
    | None => JS.Normal g
    | Some countryCode =>
        if String.eqb countryCode "-99" then JS.Normal g
        else
          let isAlreadySelected :=
            existsb (fun entry => includesCode (snd entry) (Some countryCode))
                    (playerCountries g) in
          if isAlreadySelected then JS.Normal g
          else handleCountrySelect g countryCode
    end.

Definition resetGame (g : game) : game :=
  {| selectedCountries := [];
     gamePhase := "country_selection";
     currentPlayer := 0;
     playerCountries := [("player1", []); ("player2", [])] |}.

Inductive gameEvent : Type :=
| ClickPolygon (country : polygonDatum)
| SetPhase (phase : string)
| ResetGame.

Definition gameStep (g : game) (e : gameEvent) : JS.completion game :=
  match e with
  | ClickPolygon country => handleCountryClick g country
  | SetPhase phase =>
      JS.Normal {| selectedCountries := selectedCountries g;
                   gamePhase := phase;
                   currentPlayer := currentPlayer g;
                   playerCountries := playerCountries g |}
  | ResetGame => JS.Normal (resetGame g)
  end.

Definition play (events : list gameEvent) : JS.completion game :=
  JS.forEach gameStep events initialGame.

(** The lists of the two players in a state of the game. *)
Definition countriesOf (g : game) (playerId : string) : list string :=
  default [] (snd <$> List.find (fun entry => String.eqb (fst entry) playerId)
                                (playerCountries g)).

(** What every reachable state of the game satisfies. *)
Definition gameOk (g : game) : Prop :=
  exists player1 player2,
    playerCountries g = [("player1", player1); ("player2", player2)]
    /\ NoDup (selectedCountries g)
    /\ Permutation (selectedCountries g) (player1 ++ player2)
    /\ currentPlayer g = (length (selectedCountries g) mod 2)%nat
    /\ length player1 = ((length (selectedCountries g) + 1) / 2)%nat
    /\ length player2 = (length (selectedCountries g) / 2)%nat
    /\ Forall (fun code => code <> "" /\ code <> "-99") (selectedCountries g).

(* ================================================================== *)
(** * Statements about geometry and segments                           *)
(* ================================================================== *)

(** The number of vertices of the outer ring of a polygon part. *)
Definition outerSize (polygon : list ring) : nat := length (hd [] polygon).



(** The identifier and the tag that the generator of kind [kind] gives to the
    segment it pushes at position [index]. *)
Definition labelledAt (kind : string) (index : nat) (seg : BoundarySegment)
  : Prop :=
  exists region1 region2,
    regions seg = [region1; region2]
    /\ id seg = "boundary_" +:+ region1 +:+ "_" +:+ region2 +:+ "_"
                +:+ JS.decimal index
    /\ type seg = kind.

(** The tag of each classification mode. *)
Definition kindOf (useDataDrivenRegions : bool) : string :=
  if useDataDrivenRegions then "data_driven_boundary" else "manual_boundary".

(** A multi-part geometry: a small part, a part with five vertices, and a
    second part with five vertices. *)
Definition archipelago : geometry :=
  MultiPolygon
    [ [[(0, 0); (1, 0); (0, 0)]];
      [[(5, 5); (6, 5); (6, 6); (5, 6); (5, 5)];
       [(5.2, 5.2); (5.4, 5.2); (5.2, 5.2)]];
      [[(8, 8); (9, 8); (9, 9); (8, 9); (8, 8)]] ]%Q.

(** A feature whose geometry is neither a polygon nor a multi-polygon. *)
Definition pointFeature : feature :=
  {| properties := Some (bagOf "MT" "Europe" "Southern Europe" 10000);
     geom := OtherGeometry |}.

(* ================================================================== *)
(** * Statements about statistics, heights and the selection           *)
(* ================================================================== *)

(** Five features of which one has a far larger GDP estimate. *)
Definition spreadEconomies : list feature :=
  [gdpFeature 1; gdpFeature 2; gdpFeature 3; gdpFeature 4; gdpFeature 100].

(** A key of the catalogue whose descriptor is not disabled. *)
Definition enabledKey (catalogue : gmap string Dataset.t) (datasetId : string)
  : Prop :=
  exists dataset, catalogue !! datasetId = Some dataset
                  /\ Dataset.disabled dataset = false.

(** An action the page offers: the drop-down lists the identifiers of the
    catalogue only. *)
Definition offered (catalogue : gmap string Dataset.t) (e : event) : Prop :=
  match e with
  | SelectDataset datasetId => is_Some (catalogue !! datasetId)
  | DeselectDataset _ | ClickHeightButton _ => True
  end.

(** Every selected identifier, and the height filter unless it is "none",
    is an enabled key of the catalogue. *)
Definition selectionKnown (catalogue : gmap string Dataset.t) (st : selection)
  : Prop :=
  Forall (enabledKey catalogue) (selectedDatasets st)
  /\ (heightFilter st = "none" \/ enabledKey catalogue (heightFilter st)).

(** The features that the derived classification of [getCountryRegion] puts
    under [key], in the order of the collection. *)
Definition derivedMembers (key : string) (countries : list feature)
  : list feature :=
  List.filter
    (fun country => regionEqb (getCountryRegion true country) (Named key))
    countries.

(** The two bands of the adaptive exponent. *)
Definition inBands (exponent : Q) : Prop :=
  (0.3 <= exponent <= 0.95)%Q \/ (1.1 <= exponent <= 3.5)%Q.

(* ================================================================== *)
(** * Height getters never fail (C7)                                   *)
(* ================================================================== *)

Lemma HEIGHT_GETTERS_lookup (catalogue : gmap string Dataset.t) (key : string)
    (heightGetter : feature -> JS.completion JS.number) :
  HEIGHT_GETTERS catalogue !! key = Some heightGetter <->
  exists dataset, catalogue !! key = Some dataset
                  /\ Dataset.disabled dataset = false
                  /\ heightGetter = guarded dataset.
Proof.
  unfold HEIGHT_GETTERS. rewrite lookup_fmap, fmap_Some. split.
  - intros (dataset & Hlook & ->).
    apply map_lookup_filter_Some in Hlook as [Hlook Hen].
    exists dataset. auto.
  - intros (dataset & Hlook & Hen & ->).
    exists dataset. split; [|reflexivity].
    apply map_lookup_filter_Some. auto.
Qed.

Lemma guarded_finite (dataset : Dataset.t) (feat : feature) :
  exists q, guarded dataset feat = JS.Normal (JS.Num q) /\ (0 <= q)%Q.
Proof.
  unfold guarded. destruct (Dataset.getter dataset feat) as [[|q]|].
  - exists 0%Q. split; [reflexivity | lra].
  - simpl. unfold JS.ltb. destruct (Qle_bool 0 q) eqn:Hq; simpl.
    + exists q. split; [reflexivity|]. now apply Qle_bool_iff.
    + exists 0%Q. split; [reflexivity | lra].
  - exists 0%Q. split; [reflexivity | lra].
Qed.

Lemma guarded_failure (dataset : Dataset.t) (feat : feature) :
  accessorFails (Dataset.getter dataset feat) ->
  guarded dataset feat = JS.Normal (JS.Num 0).
Proof.
  unfold guarded. intros [-> | [-> | (q & -> & Hq)]]; try reflexivity.
  simpl. unfold JS.ltb.
  destruct (Qle_bool 0 q) eqn:Hle; [|reflexivity].
  apply Qle_bool_iff in Hle. lra.
Qed.

(** C7.  For every catalogue and every enabled dataset, i.e. every entry of
    [HEIGHT_GETTERS], the getter wraps the raw accessor of that dataset; on
    every feature it completes normally with a finite non-negative number
    (no exception reaches the caller), and it yields 0, which is the value
    statistics and height computation then read, whenever the raw accessor
    throws, returns NaN or returns a negative number. *)
Theorem height_getter_failure_policy
    (catalogue : gmap string Dataset.t) (key : string)
    (heightGetter : feature -> JS.completion JS.number) :
  HEIGHT_GETTERS catalogue !! key = Some heightGetter ->
  exists dataset,
    catalogue !! key = Some dataset
    /\ forall feat : feature,
         (exists q, heightGetter feat = JS.Normal (JS.Num q) /\ (0 <= q)%Q)
         /\ (accessorFails (Dataset.getter dataset feat) ->
             heightGetter feat = JS.Normal (JS.Num 0)
             /\ numberOf (heightGetter feat) = 0%Q).
Proof.
  intros Hlook. apply HEIGHT_GETTERS_lookup in Hlook
    as (dataset & Hcat & _ & ->).
  exists dataset. split; [assumption|]. intros feat. split.
  - apply guarded_finite.
  - intros Hfail. rewrite (guarded_failure _ _ Hfail). split; reflexivity.
Qed.

Lemma height_getter_failure_policy_witness :
  exists dataset,
    offlineCatalogue !! "gdp" = Some dataset
    /\ forall feat : feature,
         (exists q, guarded gdpDataset feat = JS.Normal (JS.Num q) /\ (0 <= q)%Q)
         /\ (accessorFails (Dataset.getter dataset feat) ->
             guarded gdpDataset feat = JS.Normal (JS.Num 0)
             /\ numberOf (guarded gdpDataset feat) = 0%Q).
Proof.
  apply (height_getter_failure_policy offlineCatalogue "gdp" (guarded gdpDataset)).
  vm_compute. reflexivity.
Defined.

(* ================================================================== *)
(** * Disabled datasets (C8)                                           *)
(* ================================================================== *)

Lemma HEIGHT_GETTERS_disabled (catalogue : gmap string Dataset.t)
    (key : string) (dataset : Dataset.t) :
  catalogue !! key = Some dataset ->
  Dataset.disabled dataset = true ->
  HEIGHT_GETTERS catalogue !! key = None.
Proof.
  intros Hcat Hdis.
  destruct (HEIGHT_GETTERS catalogue !! key) as [g|] eqn:Hg; [|reflexivity].
  apply HEIGHT_GETTERS_lookup in Hg as (d & Hd & Hen & _).
  congruence.
Qed.

Lemma filter_keeps_selectable (catalogue : gmap string Dataset.t)
    (keep : string -> bool) (ids : list string) :
  Forall (selectable catalogue) ids ->
  Forall (selectable catalogue) (List.filter keep ids).
Proof.
  induction 1 as [|datasetId ids Hid _ IH]; simpl; [constructor|].
  destruct (keep datasetId); [constructor|]; assumption.
Qed.

Lemma dispatch_selectionOk (catalogue : gmap string Dataset.t)
    (st : selection) (e : event) :
  selectionOk catalogue st -> selectionOk catalogue (dispatch catalogue st e).
Proof.
  intros [Hsel Hfilter]. destruct e as [datasetId|datasetId|key]; simpl.
  - split; [|exact Hfilter]. simpl. unfold handleDatasetSelect.
    destruct (from_option Dataset.disabled false (catalogue !! datasetId))
      eqn:Hdis; [exact Hsel|].
    destruct (existsb (String.eqb datasetId) (selectedDatasets st)).
    + now apply filter_keeps_selectable.
    + apply Forall_app. split; [exact Hsel|]. constructor; [exact Hdis|constructor].
  - split; [|exact Hfilter]. now apply filter_keeps_selectable.
  - destruct (existsb (String.eqb key) (heightFilterButtons (selectedDatasets st)))
      eqn:Hbutton; [|split; assumption].
    split; [exact Hsel|]. simpl.
    destruct (String.eqb (heightFilter st) key); [now left|right].
    apply existsb_exists in Hbutton as (k & Hin & Heq).
    apply String.eqb_eq in Heq. subst k.
    unfold heightFilterButtons in Hin. rewrite map_id in Hin.
    rewrite Forall_forall in Hsel. apply Hsel.
    now apply list_elem_of_In.
Qed.

Lemma run_selectionOk (catalogue : gmap string Dataset.t) :
  selectionOk catalogue initialSelection ->
  forall events, selectionOk catalogue (run catalogue events).
Proof.
  intros Hinit events. unfold run.
  revert Hinit. generalize initialSelection.
  induction events as [|e events IH]; intros st Hst; simpl; [exact Hst|].
  apply IH. now apply dispatch_selectionOk.
Qed.

Lemma initialSelection_ok
    (external : string -> feature -> JS.completion JS.number) :
  selectionOk (AVAILABLE_DATASETS external) initialSelection.
Proof.
  split; [|now left].
  unfold initialSelection, selectedDatasets.
  repeat (constructor; [vm_compute; reflexivity|]). constructor.
Qed.

Lemma none_is_no_dataset
    (external : string -> feature -> JS.completion JS.number) :
  AVAILABLE_DATASETS external !! "none" = None.
Proof. vm_compute. reflexivity. Qed.

(** The key [life_expectancy] is written twice; the second descriptor, which
    is not disabled, is the one the catalogue holds. *)
Example life_expectancy_enabled
    (external : string -> feature -> JS.completion JS.number) :
  Dataset.disabled <$> (AVAILABLE_DATASETS external !! "life_expectancy")
  = Some false
  /\ Dataset.category <$> (AVAILABLE_DATASETS external !! "life_expectancy")
     = Some "Our World in Data".
Proof. split; vm_compute; reflexivity. Qed.

(** C8.  In the catalogue of the application, whatever the external
    accessors return, a descriptor marked disabled has no entry in
    [HEIGHT_GETTERS]; after any sequence of user actions its identifier is
    neither selected, nor offered as a height button, nor held by the height
    filter; the statistics memo run on its key computes nothing (the call
    throws), and every statistics record the memo produces in a reachable
    state is the default record or is computed from the guarded accessor of a
    descriptor that is not disabled. *)
Theorem disabled_dataset_excluded
    (external : string -> feature -> JS.completion JS.number)
    (key : string) (dataset : Dataset.t) :
  AVAILABLE_DATASETS external !! key = Some dataset ->
  Dataset.disabled dataset = true ->
  let catalogue := AVAILABLE_DATASETS external in
  HEIGHT_GETTERS catalogue !! key = None
  /\ (forall events,
        ~ In key (selectedDatasets (run catalogue events))
        /\ ~ In key (heightFilterButtons (selectedDatasets (run catalogue events)))
        /\ heightFilter (run catalogue events) <> key)
  /\ (forall features, features <> [] ->
        heightStats catalogue features key = JS.Throw)
  /\ (forall events features stats,
        heightStats catalogue features (heightFilter (run catalogue events))
          = JS.Normal stats ->
        stats = defaultStatistics
        \/ exists source,
             catalogue !! heightFilter (run catalogue events) = Some source
             /\ Dataset.disabled source = false
             /\ stats = computeStatistics (guarded source) features).
Proof.
  intros Hcat Hdis catalogue.
  assert (Hnone : key <> "none").
  { intros ->. unfold catalogue in *. rewrite none_is_no_dataset in Hcat.
    discriminate. }
  assert (Hunsel : ~ selectable catalogue key).
  { unfold selectable, catalogue. rewrite Hcat. simpl. rewrite Hdis.
    discriminate. }
  split; [now apply (HEIGHT_GETTERS_disabled _ _ dataset)|].
  split; [|split].
  - intros events.
    pose proof (run_selectionOk catalogue (initialSelection_ok external) events)
      as [Hsel Hfilter].
    rewrite Forall_forall in Hsel.
    assert (Hnot : ~ In key (selectedDatasets (run catalogue events))).
    { intros Hin. apply Hunsel, Hsel. now apply list_elem_of_In. }
    split; [exact Hnot|]. split.
    + unfold heightFilterButtons. now rewrite map_id.
    + intros Heq. destruct Hfilter as [Hf|Hf]; rewrite Heq in Hf;
        [now apply Hnone | now apply Hunsel].
  - intros features Hne. unfold heightStats.
    destruct features as [|f features]; [contradiction|].
    apply String.eqb_neq in Hnone. rewrite Hnone.
    change (length (f :: features) =? 0)%nat with false. cbv beta iota delta [orb].
    now rewrite (HEIGHT_GETTERS_disabled _ _ dataset).
  - intros events features stats. unfold heightStats.
    destruct ((length features =? 0)%nat
              || String.eqb (heightFilter (run catalogue events)) "none").
    + intros [= <-]. now left.
    + destruct (HEIGHT_GETTERS catalogue !! heightFilter (run catalogue events))
        as [g|] eqn:Hg; [|discriminate].
      intros [= <-]. right.
      apply HEIGHT_GETTERS_lookup in Hg as (source & Hsrc & Hen & ->).
      exists source. auto.
Qed.

Lemma disabled_dataset_excluded_witness :
  HEIGHT_GETTERS offlineCatalogue !! "co2_emissions" = None
  /\ (forall events,
        ~ In "co2_emissions" (selectedDatasets (run offlineCatalogue events))
        /\ ~ In "co2_emissions"
                (heightFilterButtons (selectedDatasets (run offlineCatalogue events)))
        /\ heightFilter (run offlineCatalogue events) <> "co2_emissions")
  /\ (forall features, features <> [] ->
        heightStats offlineCatalogue features "co2_emissions" = JS.Throw)
  /\ (forall events features stats,
        heightStats offlineCatalogue features
                    (heightFilter (run offlineCatalogue events))
          = JS.Normal stats ->
        stats = defaultStatistics
        \/ exists source,
             offlineCatalogue !! heightFilter (run offlineCatalogue events)
               = Some source
             /\ Dataset.disabled source = false
             /\ stats = computeStatistics (guarded source) features).
Proof.
  apply (disabled_dataset_excluded
           (fun _ _ => JS.Normal (JS.Num 0)) "co2_emissions"
           (snd (descriptor (fun _ _ => JS.Normal (JS.Num 0))
                            "co2_emissions" "World Bank" "t/capita" true))).
  - vm_compute. reflexivity.
  - reflexivity.
Defined.

(* ================================================================== *)
(** * Derived classification (C6)                                      *)
(* ================================================================== *)

Lemma replaceRuns_clean (cls : ascii -> bool) (s : string) :
  cls "_"%char = false ->
  forall inRun c,
    In c (list_ascii_of_string (JS.replaceRuns cls inRun s)) -> cls c = false.
Proof.
  intros Hunderscore. induction s as [|a rest IH]; intros inRun c; simpl.
  - intros [].
  - destruct (cls a) eqn:Ha.
    + destruct inRun; simpl; [apply IH|].
      intros [<-|Hin]; [exact Hunderscore | now apply (IH true)].
    + simpl. intros [<-|Hin]; [exact Ha | now apply (IH false)].
Qed.

(** A derived key holds no white space and no ampersand. *)
Lemma slug_clean (s : string) (c : ascii) :
  In c (list_ascii_of_string (slug s)) -> isSeparator c = false.
Proof. apply replaceRuns_clean. reflexivity. Qed.

Example slug_samples :
  slug "Australia and New Zealand" = "australia_and_new_zealand"
  /\ slug "Trinidad  &  Tobago" = "trinidad_tobago"
  /\ slug "Seven seas (open ocean)" = "seven_seas_(open_ocean)".
Proof. repeat split; vm_compute; reflexivity. Qed.

Lemma derivedRegionKey_spec (continent subregion : string) :
  derivedRegionKey continent subregion
  = derivedKeySpec slug continent subregion.
Proof.
  unfold derivedRegionKey, derivedKeySpec, keepsSubregion. simpl existsb.
  destruct (String.eqb continent "Europe") eqn:HE.
  { apply String.eqb_eq in HE. subst continent. reflexivity. }
  destruct (String.eqb continent "Africa") eqn:HAf.
  { apply String.eqb_eq in HAf. subst continent. reflexivity. }
  destruct (String.eqb continent "Asia") eqn:HAs.
  { apply String.eqb_eq in HAs. subst continent. reflexivity. }
  destruct (String.eqb continent "North America") eqn:HN.
  { apply String.eqb_eq in HN. subst continent. reflexivity. }
  destruct (String.eqb continent "South America") eqn:HS.
  { apply String.eqb_eq in HS. subst continent. reflexivity. }
  destruct (String.eqb continent "Oceania") eqn:HO.
  { apply String.eqb_eq in HO. subst continent. reflexivity. }
  reflexivity.
Qed.

(** The claim as written fails: a hyphen is not collapsed. *)
Lemma derived_key_keeps_hyphen :
  getCountryRegion true vietnam = "asia_south-eastern_asia"
  /\ derivedKeySpec alphaNumericSlug
       (continentOf (properties vietnam)) (subregionOf (properties vietnam))
     = "asia_south_eastern_asia"
  /\ getCountryRegion true vietnam
     <> derivedKeySpec alphaNumericSlug
          (continentOf (properties vietnam)) (subregionOf (properties vietnam)).
Proof.
  split; [vm_compute; reflexivity|].
  split; [vm_compute; reflexivity|].
  vm_compute. discriminate.
Qed.

(** C6 (amended).  For every feature, with the continent defaulting to
    "Unknown" and the subregion to the UN region and then to "Unknown",
    derived-mode classification returns: for Europe, Africa, Asia and Oceania
    the key "<continent>_<subregion>" lower-cased with every run of
    white-space and ampersand characters collapsed to one underscore (other
    characters, a hyphen or a parenthesis for instance, are kept); for North
    America "north_america" when the subregion is "Northern America" and
    "central_america_caribbean" otherwise; for South America "south_america";
    for any other continent the continent name normalised the same way.  The
    grouping step of boundary extraction files the feature under the same
    key. *)
Theorem derived_classification (country : feature) :
  let continent := continentOf (properties country) in
  let subregion := subregionOf (properties country) in
  getCountryRegion true country = derivedKeySpec slug continent subregion
  /\ createDataDrivenRegions [country]
     = match properties country with
       | Some _ =>
           JS.Normal [(derivedKeySpec slug continent subregion, [country])]
       | None => JS.Throw
       end.
Proof.
  simpl. split.
  - unfold getCountryRegion. f_equal. apply derivedRegionKey_spec.
  - unfold createDataDrivenRegions. simpl.
    destruct (properties country) as [bag|]; [|reflexivity].
    simpl. now rewrite derivedRegionKey_spec.
Qed.

(* ================================================================== *)
(** * Loops that may throw                                             *)
(* ================================================================== *)

Lemma bind_Normal {A B} (c : JS.completion A) (k : A -> JS.completion B)
    (b : B) :
  JS.bind c k = JS.Normal b -> exists a, c = JS.Normal a /\ k a = JS.Normal b.
Proof. destruct c as [a|]; simpl; [eauto | discriminate]. Qed.

Lemma forEach_invariant {A S} (P : S -> Prop)
    (f : S -> A -> JS.completion S) (arr : list A) :
  (forall s a s', In a arr -> P s -> f s a = JS.Normal s' -> P s') ->
  forall s s', P s -> JS.forEach f arr s = JS.Normal s' -> P s'.
Proof.
  induction arr as [|a arr IH]; intros Hstep s s' Hs Hrun; simpl in Hrun.
  - now injection Hrun as <-.
  - apply bind_Normal in Hrun as (s1 & Hf & Hrest).
    apply (IH (fun s a s' Hin => Hstep s a s' (or_intror Hin)) s1 s');
      [|exact Hrest].
    apply (Hstep s a s1); [now left | exact Hs | exact Hf].
Qed.

Lemma forEachPair_invariant {A S} (R : A -> A -> Prop) (P : S -> Prop)
    (f : S -> A -> A -> JS.completion S) (entries : list A) :
  ForallOrdPairs R entries ->
  (forall s e1 e2 s', R e1 e2 -> P s -> f s e1 e2 = JS.Normal s' -> P s') ->
  forall s s', P s -> forEachPair f entries s = JS.Normal s' -> P s'.
Proof.
  intros Hord Hstep. induction Hord as [|e1 later Hall Hord IH];
    intros s s' Hs Hrun; simpl in Hrun.
  - now injection Hrun as <-.
  - apply bind_Normal in Hrun as (s1 & Hinner & Hrest).
    apply (IH s1 s'); [|exact Hrest].
    apply (forEach_invariant P (fun s e2 => f s e1 e2) later) with (s := s);
      [|exact Hs|exact Hinner].
    intros t e2 t' Hin Ht Hf. apply (Hstep t e1 e2 t'); [|exact Ht|exact Hf].
    rewrite List.Forall_forall in Hall. now apply Hall.
Qed.

Lemma ordered_pairs_of_table {A B} (entries : list (A * B)) :
  NoDup (map fst entries) ->
  ForallOrdPairs
    (fun e1 e2 => fst e1 <> fst e2 /\ In e1 entries /\ In e2 entries) entries.
Proof.
  intros Hnd.
  assert (Hgen : forall l, NoDup (map fst l) -> incl l entries ->
             ForallOrdPairs
               (fun e1 e2 => fst e1 <> fst e2 /\ In e1 entries /\ In e2 entries)
               l).
  { induction l as [|e l IH]; intros Hl Hincl; [constructor|].
    simpl in Hl. apply NoDup_cons in Hl as [Hnotin Hl].
    constructor.
    - apply List.Forall_forall. intros e2 He2. split; [|split].
      + intros Heq. apply Hnotin. rewrite Heq.
        apply list_elem_of_In. now apply in_map.
      + apply Hincl. now left.
      + apply Hincl. now right.
    - apply IH; [exact Hl|]. intros x Hx. apply Hincl. now right. }
  apply Hgen; [exact Hnd | apply incl_refl].
Qed.

(* ================================================================== *)
(** * Boundary segments (C5)                                           *)
(* ================================================================== *)



Lemma REGIONS_names_distinct : NoDup (map fst REGIONS).
Proof.
  apply (bool_decide_unpack _). vm_compute. exact I.
Qed.


Lemma mapPush_keys (regionMap : list (string * list feature)) (key : string)
    (country : feature) (pool : list feature) :
  NoDup (map fst regionMap) ->
  Forall (fun entry => incl (snd entry) pool) regionMap ->
  In country pool ->
  NoDup (map fst (mapPush regionMap key country))
  /\ Forall (fun entry => incl (snd entry) pool) (mapPush regionMap key country)
  /\ (forall k, In k (map fst (mapPush regionMap key country)) ->
                k = key \/ In k (map fst regionMap)).
Proof.
  intros Hnd Hall Hin.
  induction regionMap as [|[k members] rest IH]; simpl.
  - split; [|split].
    + apply NoDup_singleton.
    + constructor; [|constructor]. intros c [<-|[]]. exact Hin.
    + intros k [<-|[]]. now left.
  - simpl in Hnd. apply NoDup_cons in Hnd as [Hk Hnd].
    apply Forall_cons_iff in Hall as [Hm Hall].
    destruct (String.eqb k key) eqn:Heq; simpl.
    + split; [|split].
      * apply NoDup_cons. split; assumption.
      * constructor; [|exact Hall]. simpl in *.
        intros c Hc. apply in_app_or in Hc as [Hc|[<-|[]]]; auto.
      * intros k' Hk'. now right.
    + destruct (IH Hnd Hall) as (IHnd & IHall & IHkeys).
      split; [|split].
      * apply NoDup_cons. split; [|exact IHnd]. intros Hk'.
        apply list_elem_of_In, IHkeys in Hk' as [->|Hk'].
        -- rewrite String.eqb_refl in Heq. discriminate.
        -- apply Hk. now apply list_elem_of_In.
      * constructor; assumption.
      * intros k' [<-|Hk']; [right; now left|].
        apply IHkeys in Hk' as [->|Hk']; [now left | right; now right].
Qed.

Lemma dataDrivenRegions_table (countries : list feature)
    (regionMap : list (string * list feature)) :
  createDataDrivenRegions countries = JS.Normal regionMap ->
  NoDup (map fst regionMap)
  /\ Forall (fun entry => incl (snd entry) countries) regionMap.
Proof.
  unfold createDataDrivenRegions. intros Hrun.
  refine (forEach_invariant
            (fun m => NoDup (map fst m)
                      /\ Forall (fun entry => incl (snd entry) countries) m)
            _ countries _ [] regionMap _ Hrun).
  - intros m country m' Hin [Hnd Hall] Hstep.
    destruct (properties country) as [bag|]; [|discriminate].
    injection Hstep as <-.
    destruct (mapPush_keys m
                (derivedRegionKey (continentOf (Some bag)) (subregionOf (Some bag)))
                country countries Hnd Hall Hin) as (H1 & H2 & _).
    split; assumption.
  - split; [apply NoDup_nil_2 | constructor].
Qed.



(** One emitted segment for the two squares: the shared edge. *)
Example france_spain_boundary :
  map coordinates (returned (extractBoundaries sampleMath false [france; spain]))
  = [[(1, 0); (1, 1)]%Q]
  /\ map regions (returned (extractBoundaries sampleMath false [france; spain]))
     = [["southwest_europe"; "west_europe"]].
Proof. split; vm_compute; reflexivity. Qed.

(** The count is a count of recorded matches: a vertex of the first ring is
    recorded once for every unconsumed vertex of the second ring within the
    tolerance.  A ring that repeats its first vertex as its last one is
    matched twice there, so two squares that touch at that single corner
    yield a segment made of the same point twice. *)
Example touching_corner_recorded_twice :
  sharedPoints sampleMath
    (Some [(0, 0); (1, 0); (1, 1); (0, 1); (0, 0)]%Q)
    (Some [(1, 1); (2, 1); (2, 2); (1, 2); (1, 1)]%Q) 0.01
  = JS.Normal [(1, 1); (1, 1)]%Q.
Proof. vm_compute. reflexivity. Qed.

(* ================================================================== *)
(** * Admitted features (C10)                                          *)
(* ================================================================== *)

Lemma inherited_In (key : string) :
  inherited key = true <-> In key prototypeKeys.
Proof.
  unfold inherited. rewrite existsb_exists. split.
  - intros (k & Hk & Heq). apply String.eqb_eq in Heq. now subst k.
  - intros Hk. exists key. split; [exact Hk | apply String.eqb_refl].
Qed.

Lemma REGION_MAPPING_values_truthy (code region : string) :
  REGION_MAPPING !! code = Some region -> region <> "".
Proof.
  revert code region. apply map_Forall_lookup.
  apply (bool_decide_unpack _). vm_compute. exact I.
Qed.

(** What a truthy [REGION_MAPPING[code]] is: the region that lists the code,
    or the inherited member when the code is a name of [Object.prototype]
    that no region lists. *)
Lemma regionOf_truthy (code : option string) (key : regionKey) :
  truthyKey (regionOf code) = Some key <->
  exists c,
    code = Some c
    /\ ((exists region, REGION_MAPPING !! c = Some region /\ key = Named region)
        \/ (REGION_MAPPING !! c = None /\ In c prototypeKeys
            /\ key = Builtin c)).
Proof.
  unfold regionOf. destruct code as [c|].
  - destruct (REGION_MAPPING !! c) as [region|] eqn:Hreg.
    + pose proof (REGION_MAPPING_values_truthy c region Hreg) as Hne.
      apply String.eqb_neq in Hne.
      cbn [truthyKey truthyRegion]. rewrite Hne. cbn [negb]. split.
      * intros [= <-]. exists c. split; [reflexivity|]. left.
        exists region. split; [exact Hreg | reflexivity].
      * intros (c' & Hc & Hcase). injection Hc as <-.
        destruct Hcase as [(r & Hr & ->)|(Hr & _)]; congruence.
    + destruct (inherited c) eqn:Hin.
      * apply inherited_In in Hin. cbn [truthyKey truthyRegion]. split.
        -- intros [= <-]. exists c. split; [reflexivity|]. right. auto.
        -- intros (c' & Hc & Hcase). injection Hc as <-.
           destruct Hcase as [(r & Hr & _)|(_ & _ & ->)];
             [congruence | reflexivity].
      * cbn [truthyKey]. split; [discriminate|].
        intros (c' & Hc & Hcase). injection Hc as <-.
        destruct Hcase as [(r & Hr & _)|(_ & H & _)]; [congruence|].
        apply inherited_In in H. congruence.
  - cbn [truthyKey]. split; [discriminate | intros (c & H & _); discriminate].
Qed.

(** The three outcomes of [REGION_MAPPING[countryCode] || 'unknown']. *)
Lemma static_region_cases (country : feature) :
  (exists c region,
     getCountryCode country = Some c
     /\ REGION_MAPPING !! c = Some region
     /\ getCountryRegion false country = Named region)
  \/ (exists c,
        getCountryCode country = Some c
        /\ REGION_MAPPING !! c = None /\ In c prototypeKeys
        /\ getCountryRegion false country = Builtin c)
  \/ (getCountryRegion false country = Named "unknown"
      /\ forall c, getCountryCode country = Some c ->
                   REGION_MAPPING !! c = None /\ ~ In c prototypeKeys).
Proof.
  unfold getCountryRegion. cbv iota zeta.
  destruct (truthyKey (regionOf (getCountryCode country))) as [key|] eqn:Hkey.
  - apply regionOf_truthy in Hkey
      as (c & Hc & [(region & Hreg & ->)|(Hnone & Hin & ->)]).
    + left. exists c, region. auto.
    + right. left. exists c. auto.
  - right. right. split; [reflexivity|]. intros c Hc.
    destruct (REGION_MAPPING !! c) as [region|] eqn:Hreg.
    + assert (H : truthyKey (regionOf (getCountryCode country))
                  = Some (Named region)).
      { apply regionOf_truthy. exists c. split; [exact Hc|]. left. eauto. }
      congruence.
    + split; [reflexivity|]. intros Hin.
      assert (H : truthyKey (regionOf (getCountryCode country))
                  = Some (Builtin c)).
      { apply regionOf_truthy. exists c. split; [exact Hc|]. right. auto. }
      congruence.
Qed.

Lemma hasRegion_admits (f : feature) :
  hasRegion f = true <->
  exists c,
    getCountryCode f = Some c
    /\ (is_Some (REGION_MAPPING !! c) \/ In c prototypeKeys).
Proof.
  unfold hasRegion. rewrite bool_decide_eq_true. split.
  - intros [key Hkey]. apply regionOf_truthy in Hkey as (c & Hc & Hcase).
    exists c. split; [exact Hc|].
    destruct Hcase as [(region & Hreg & _)|(_ & Hin & _)]; [left; eauto | now right].
  - intros (c & Hc & Hcase).
    destruct (REGION_MAPPING !! c) as [region|] eqn:Hreg.
    + exists (Named region). apply regionOf_truthy. exists c.
      split; [exact Hc|]. left. eauto.
    + destruct Hcase as [[r Hr]|Hin]; [discriminate|].
      exists (Builtin c). apply regionOf_truthy. exists c.
      split; [exact Hc|]. right. auto.
Qed.

Lemma prototypeKeys_unlisted :
  Forall (fun key => REGION_MAPPING !! key = None
                     /\ (key ∉ EXCLUDED_COUNTRIES)
                     /\ key <> "-99" /\ key <> "n/a" /\ key <> ""
                     /\ Forall (fun entry => key ∉ snd entry) REGIONS)
         prototypeKeys.
Proof. apply (bool_decide_unpack _). vm_compute. exact I. Qed.

Lemma In_indexed {A} (x : A) (l : list A) :
  In x l -> exists i, In (i, x) (indexed l).
Proof.
  unfold indexed. generalize 0%nat.
  induction l as [|y l IH]; intros start Hx; [contradiction|].
  destruct Hx as [->|Hx].
  - exists start. now left.
  - destruct (IH (S start) Hx) as [i Hi]. exists i. now right.
Qed.

(** The features that the load step keeps: codes of the static table that
    are not excluded, and codes that are names of [Object.prototype]. *)
Lemma loadCountries_admitted (rewind : geometry -> geometry)
    (data : list feature) :
  Forall (fun f => admitted f
                   \/ exists key, getCountryCode f = Some key
                                  /\ In key prototypeKeys)
         (loadCountries rewind data).
Proof.
  unfold loadCountries. apply List.Forall_forall. intros f Hf.
  apply in_map_iff in Hf as (g & <- & Hg).
  apply filter_In in Hg as [Hg Hreg].
  apply filter_In in Hg as [_ Hex].
  apply hasRegion_admits in Hreg as (c & Hcode & Hcase).
  unfold admitted, admittedCode.
  change (getCountryCode {| properties := properties g; geom := rewind (geom g) |})
    with (getCountryCode g).
  destruct Hcase as [[region Hregion]|Hin]; [left | right; eauto].
  exists c, region. repeat split; [exact Hcode | exact Hregion|].
  rewrite Hcode in Hex. simpl in Hex.
  apply negb_true_iff, bool_decide_eq_false in Hex. exact Hex.
Qed.

Lemma valid_iso_code (f : feature) (key : string) :
  prop ISO_A2 f = Some key ->
  key <> "" -> key <> "-99" -> key <> "n/a" ->
  getCountryCode f = Some key.
Proof.
  intros Hiso H0 H1 H2. unfold getCountryCode. rewrite Hiso.
  destruct key as [|a key]; [contradiction|]. cbn [JS.truthyStr].
  apply String.eqb_neq in H1, H2. now rewrite H1, H2.
Qed.

(** C10.  The claim fails for a feature whose ISO code is a property name
    that the table object inherits ("constructor", "toString", ...): the
    lookup [REGION_MAPPING[code]] finds the inherited member, which is
    truthy, so the load step and the boundary effect keep the feature, it is
    handed to classification, boundary extraction and the polygon data, and
    yet no region of the static table lists its code. *)
Theorem inherited_code_is_admitted
    (rewind : geometry -> geometry) (data : list feature) (f : feature)
    (key : string) :
  In f data ->
  prop ISO_A2 f = Some key ->
  In key prototypeKeys ->
  let features := loadCountries rewind data in
  let kept := rewound rewind f in
  In kept features
  /\ In kept (List.filter hasRegion features)
  /\ In kept (map feat (createPolygonData features))
  /\ getCountryCode kept = Some key
  /\ ~ admitted kept
  /\ (forall region countries,
        In (region, countries) REGIONS -> ~ In key countries)
  /\ getCountryRegion false kept = Builtin key.
Proof.
  intros Hf Hiso Hkey features kept.
  pose proof (proj1 (List.Forall_forall _ _) prototypeKeys_unlisted key Hkey)
    as (Hnone & Hnex & H99 & Hna & Hempty & Hunlisted).
  assert (Hcode : getCountryCode f = Some key)
    by (now apply valid_iso_code).
  assert (Hkept : getCountryCode kept = Some key) by exact Hcode.
  assert (Hreg : hasRegion kept = true).
  { apply hasRegion_admits. exists key. split; [exact Hkept | now right]. }
  assert (Hin : In kept features).
  { unfold features, loadCountries.
    apply (in_map (rewound rewind)). apply filter_In. split.
    - apply filter_In. split; [exact Hf|]. rewrite Hcode. cbn [excluded].
      apply negb_true_iff, bool_decide_eq_false. exact Hnex.
    - exact Hreg. }
  split; [exact Hin|].
  split; [apply filter_In; split; [exact Hin | exact Hreg]|].
  split.
  { destruct (In_indexed kept features Hin) as [i Hi].
    unfold createPolygonData. rewrite map_app. apply in_or_app. left.
    rewrite map_map. apply in_map_iff. now exists (i, kept). }
  split; [exact Hkept|].
  split.
  { intros (c & region & Hc & Hregion & _). rewrite Hkept in Hc.
    injection Hc as <-. congruence. }
  split.
  { intros region countries Hin' Hlisted.
    apply (proj1 (List.Forall_forall _ _) Hunlisted (region, countries) Hin').
    now apply list_elem_of_In. }
  unfold getCountryRegion. rewrite Hkept.
  assert (Htruthy : truthyKey (regionOf (Some key)) = Some (Builtin key)).
  { apply regionOf_truthy. exists key. split; [reflexivity|]. right. auto. }
  now rewrite Htruthy.
Qed.

(* ================================================================== *)
(** * Nearest-neighbour ordering (C9)                                  *)
(* ================================================================== *)

Lemma ltb_lt (a b : Q) : JS.ltb a b = true <-> (a < b)%Q.
Proof.
  unfold JS.ltb. rewrite negb_true_iff. split.
  - intros H. apply Qnot_le_lt. intros Hle.
    apply Qle_bool_iff in Hle. congruence.
  - intros H. destruct (Qle_bool b a) eqn:Hle; [|reflexivity].
    apply Qle_bool_iff in Hle. lra.
Qed.

Lemma ltb_ge (a b : Q) : JS.ltb a b = false <-> (b <= a)%Q.
Proof.
  unfold JS.ltb. rewrite negb_false_iff. apply Qle_bool_iff.
Qed.

Lemma closer_scan (M : Math) (lastPoint : point) (L : list point) :
  forall todo done st,
    L = done ++ todo ->
    scanned M lastPoint L done st ->
    scanned M lastPoint L L
      (fold_left (closer M lastPoint)
                 (combine (seq (length done) (length todo)) todo) st).
Proof.
  induction todo as [|x todo IH]; intros done st HL Hst.
  - simpl. rewrite app_nil_r in HL. now subst done.
  - simpl. replace (S (length done)) with (length (done ++ [x]))
      by (rewrite length_app; simpl; lia).
    apply IH; [now rewrite <- app_assoc|].
    assert (Hx : L !! length done = Some x).
    { rewrite HL. rewrite lookup_app_r by lia.
      now rewrite Nat.sub_diag. }
    unfold scanned, closer in *. simpl.
    destruct (snd st) as [m|] eqn:Hm.
    + destruct Hst as (p & Hp & -> & Hdone).
      destruct (JS.ltb (distance M lastPoint x) (distance M lastPoint p))
        eqn:Hlt; simpl.
      * apply ltb_lt in Hlt. exists x. split; [exact Hx|]. split; [reflexivity|].
        apply Forall_app. split.
        -- eapply List.Forall_impl; [|exact Hdone]. simpl. intros r Hr. lra.
        -- constructor; [lra|constructor].
      * apply ltb_ge in Hlt. rewrite Hm. exists p.
        split; [exact Hp|]. split; [reflexivity|].
        apply Forall_app. split; [exact Hdone|].
        constructor; [exact Hlt|constructor].
    + subst done. simpl. exists x. split; [exact Hx|]. split; [reflexivity|].
      constructor; [lra|constructor].
Qed.

Lemma closest_least (M : Math) (lastPoint : point) (remaining : list point) :
  remaining <> [] ->
  exists p,
    remaining !! closest M lastPoint remaining = Some p
    /\ forall r, In r remaining ->
                 (distance M lastPoint p <= distance M lastPoint r)%Q.
Proof.
  intros Hne. unfold closest, indexed.
  pose proof (closer_scan M lastPoint remaining remaining [] (0%nat, None)
                eq_refl eq_refl) as Hscan.
  simpl in Hscan. unfold scanned in Hscan.
  destruct (fold_left (closer M lastPoint)
              (combine (seq 0 (length remaining)) remaining) (0%nat, None))
    as [index [m|]]; simpl in *.
  - destruct Hscan as (p & Hp & -> & Hall). exists p. split; [exact Hp|].
    intros r Hr. rewrite List.Forall_forall in Hall. now apply Hall.
  - contradiction.
Qed.

Lemma chainLoop_greedy (M : Math) :
  forall fuel sorted lastPoint remaining,
    last sorted = Some lastPoint ->
    fuel = length remaining ->
    exists tail,
      chainLoop M fuel sorted remaining = sorted ++ tail
      /\ Permutation remaining tail
      /\ greedyFrom M lastPoint tail.
Proof.
  induction fuel as [|fuel IH]; intros sorted lastPoint remaining Hlast Hfuel.
  - destruct remaining; [|discriminate]. exists []. simpl.
    rewrite app_nil_r. repeat split; constructor.
  - destruct remaining as [|r0 rest]; [discriminate|].
    destruct (closest_least M lastPoint (r0 :: rest)) as (p & Hp & Hleast);
      [discriminate|].
    cbn [chainLoop]. rewrite Hlast, Hp.
    destruct (IH (sorted ++ [p]) p
                 (delete (closest M lastPoint (r0 :: rest)) (r0 :: rest)))
      as (tail & Hrun & Hperm & Hgreedy).
    + apply last_snoc.
    + rewrite length_delete by (rewrite Hp; eauto).
      simpl in Hfuel. simpl. lia.
    + exists (p :: tail).
      assert (Hall : Permutation (r0 :: rest) (p :: tail)).
      { rewrite <- Hperm. now apply delete_Permutation. }
      split; [|split].
      * rewrite Hrun. now rewrite <- app_assoc.
      * exact Hall.
      * constructor; [|exact Hgreedy].
        intros r Hr. apply Hleast.
        eapply Permutation_in; [symmetry; exact Hall | exact Hr].
Qed.

Lemma greedy_consecutive (M : Math) (first : point) (tail : list point) :
  greedyFrom M first tail ->
  forall pre a b post,
    first :: tail = pre ++ a :: b :: post ->
    forall r, In r (b :: post) -> (distance M a b <= distance M a r)%Q.
Proof.
  induction 1 as [lastPoint | lastPoint p rest Hleast Hrest IH];
    intros pre a b post Hsplit r Hr.
  - destruct pre as [|x [|y pre]]; discriminate.
  - destruct pre as [|x pre]; simpl in Hsplit.
    + injection Hsplit as <- <- <-. now apply Hleast.
    + injection Hsplit as <- Hsplit. now apply (IH pre a b post).
Qed.

(** Under [sqrtOrders] the distance that the code computes orders the points
    as the planar Euclidean distance does. *)
Lemma least_distance_planar (M : Math) (points : list point) (a b r : point) :
  sqrtOrders M points ->
  In a points -> In b points -> In r points ->
  (distance M a b <= distance M a r)%Q ->
  (squaredDistance a b <= squaredDistance a r)%Q.
Proof.
  intros Horders Ha Hb Hr Hleast.
  destruct (Qlt_le_dec (squaredDistance a r) (squaredDistance a b))
    as [Hlt|Hle]; [|exact Hle].
  pose proof (Horders a r b Ha Hr Hb Hlt) as Hroot.
  change (sqrt M (squaredDistance a r)) with (distance M a r) in Hroot.
  change (sqrt M (squaredDistance a b)) with (distance M a b) in Hroot.
  lra.
Qed.

(** C9.  For every list of at least three shared points, provided
    [Math.sqrt] keeps the strict order of the squared distances between
    these points, the ordering that is emitted is a permutation of the
    points, starts with the first discovered point, and each later point is
    one at the least planar Euclidean distance from its predecessor among the
    points the chain has not used before it; the loop ends when every point
    is used.  This ordering is what [findSharedBoundary] returns for these
    shared points. *)
Theorem sortBoundaryPoints_nearest_neighbour (M : Math) (points : list point) :
  (3 <= length points)%nat ->
  sqrtOrders M points ->
  Permutation points (sortBoundaryPoints M points)
  /\ head (sortBoundaryPoints M points) = head points
  /\ (forall pre a b post,
        sortBoundaryPoints M points = pre ++ a :: b :: post ->
        forall r, In r (b :: post) ->
                  (squaredDistance a b <= squaredDistance a r)%Q)
  /\ (forall coords1 coords2 tolerance,
        sharedPoints M coords1 coords2 tolerance = JS.Normal points ->
        findSharedBoundary M coords1 coords2 tolerance
          = JS.Normal (sortBoundaryPoints M points)).
Proof.
  intros Hlen Horders.
  destruct points as [|first rest]; [simpl in Hlen; lia|].
  destruct (chainLoop_greedy M (length rest) [first] first rest eq_refl eq_refl)
    as (tail & Hrun & Hperm & Hgreedy).
  assert (Hsort : sortBoundaryPoints M (first :: rest) = first :: tail).
  { unfold sortBoundaryPoints.
    destruct (length (first :: rest) <=? 2)%nat eqn:Hle.
    - apply Nat.leb_le in Hle. lia.
    - exact Hrun. }
  rewrite Hsort.
  assert (Hall : Permutation (first :: rest) (first :: tail))
    by now constructor.
  split; [exact Hall|]. split; [reflexivity|]. split.
  - intros pre a b post Hsplit r Hr.
    assert (Hmember : forall x, In x (a :: b :: post) ->
                                In x (first :: rest)).
    { intros x Hx. apply (Permutation_in x (Permutation_sym Hall)).
      rewrite Hsplit. apply in_or_app. now right. }
    apply (least_distance_planar M (first :: rest)); try assumption.
    + apply Hmember. now left.
    + apply Hmember. right. now left.
    + apply Hmember. now right.
    + exact (greedy_consecutive M first tail Hgreedy pre a b post Hsplit r Hr).
  - intros coords1 coords2 tolerance Hshared. unfold findSharedBoundary.
    rewrite Hshared. cbn [JS.bind].
    replace (2 <=? length (first :: rest))%nat with true
      by (symmetry; apply Nat.leb_le; lia).
    now rewrite Hsort.
Qed.

(** The square roots to six decimals keep the order of the squared distances
    1, 4, 9, 16 and 25 between the sample points. *)
Lemma samplePoints_ordered : sqrtOrders sampleMath samplePoints.
Proof.
  intros a b c Ha Hb Hc.
  repeat (destruct Ha as [<-|Ha]; [|]); try contradiction;
    repeat (destruct Hb as [<-|Hb]; [|]); try contradiction;
    repeat (destruct Hc as [<-|Hc]; [|]); try contradiction;
    vm_compute; intros H; first [discriminate H | reflexivity].
Qed.

Lemma sortBoundaryPoints_nearest_neighbour_witness :
  Permutation samplePoints (sortBoundaryPoints sampleMath samplePoints)
  /\ head (sortBoundaryPoints sampleMath samplePoints) = head samplePoints
  /\ (forall pre a b post,
        sortBoundaryPoints sampleMath samplePoints = pre ++ a :: b :: post ->
        forall r, In r (b :: post) ->
                  (squaredDistance a b <= squaredDistance a r)%Q)
  /\ (forall coords1 coords2 tolerance,
        sharedPoints sampleMath coords1 coords2 tolerance
          = JS.Normal samplePoints ->
        findSharedBoundary sampleMath coords1 coords2 tolerance
          = JS.Normal (sortBoundaryPoints sampleMath samplePoints)).
Proof.
  apply (sortBoundaryPoints_nearest_neighbour sampleMath samplePoints).
  - simpl. lia.
  - exact samplePoints_ordered.
Defined.

Example samplePoints_sorted :
  sortBoundaryPoints sampleMath samplePoints = [(0, 0); (1, 0); (3, 0); (5, 0)]%Q.
Proof. vm_compute. reflexivity. Qed.

Lemma inherited_code_is_admitted_witness :
  let features := loadCountries (fun g => g) [spain; stray] in
  let kept := rewound (fun g => g) stray in
  In kept features
  /\ In kept (List.filter hasRegion features)
  /\ In kept (map feat (createPolygonData features))
  /\ getCountryCode kept = Some "constructor"
  /\ ~ admitted kept
  /\ (forall region countries,
        In (region, countries) REGIONS -> ~ In "constructor" countries)
  /\ getCountryRegion false kept = Builtin "constructor".
Proof.
  apply (inherited_code_is_admitted (fun g => g) [spain; stray] stray
           "constructor").
  - simpl. tauto.
  - reflexivity.
  - simpl. tauto.
Defined.

(** In derived mode the feature gets a region key of its own and a boundary
    segment with its neighbour. *)
Example stray_in_boundaries :
  map getCountryCode (loadCountries (fun g => g) [spain; stray; greenland])
  = [Some "ES"; Some "constructor"]
  /\ map countries
         (returned (regionBoundariesEffect sampleMath true
                      (loadCountries (fun g => g) [spain; stray; greenland])
                      []))
     = [[Some "ES"; Some "constructor"]].
Proof. split; vm_compute; reflexivity. Qed.

Example rawCollection_loaded :
  map getCountryCode (loadCountries (fun g => g) rawCollection)
  = [Some "FR"; Some "ES"]
  /\ map regions
         (returned (regionBoundariesEffect sampleMath true
                      (loadCountries (fun g => g) rawCollection) []))
     = [["europe_western_europe"; "europe_southern_europe"]].
Proof. split; vm_compute; reflexivity. Qed.

(* ================================================================== *)
(** * Height statistics (C1, C2)                                       *)
(* ================================================================== *)

Lemma gtb_gt (a b : Q) : JS.gtb a b = true <-> (b < a)%Q.
Proof. unfold JS.gtb. apply ltb_lt. Qed.

Lemma floorIndex_percent (n k : nat) :
  JS.floorIndex n (Z.of_nat k # 100) = (n * k / 100)%nat.
Proof.
  unfold JS.floorIndex, Qfloor, Qmult, inject_Z. simpl Qnum. simpl Qden.
  change (Z.pos (1 * 100)) with (Z.of_nat 100).
  rewrite <- Nat2Z.inj_mul, <- Nat2Z.inj_div. apply Nat2Z.id.
Qed.

Lemma percentile_atPercent (values : list Q) (k : nat) :
  percentile values (Z.of_nat k # 100) = atPercent values k.
Proof. unfold percentile, atPercent. now rewrite floorIndex_percent. Qed.

(** A percentile index below 100 stays inside a non-empty array. *)
Lemma percent_index_in_range (n k : nat) :
  (0 < n)%nat -> (k < 100)%nat -> (n * k / 100 < n)%nat.
Proof.
  intros Hn Hk. apply Nat.Div0.div_lt_upper_bound. nia.
Qed.

Lemma insertSorted_In (x y : Q) (xs : list Q) :
  In y (JS.insertSorted x xs) <-> y = x \/ In y xs.
Proof.
  induction xs as [|z xs IH]; simpl; [intuition congruence|].
  destruct (JS.ltb x z); simpl; [intuition congruence|].
  rewrite IH. intuition congruence.
Qed.

Lemma sortAscending_In (y : Q) (xs : list Q) :
  In y (JS.sortAscending xs) <-> In y xs.
Proof.
  induction xs as [|x xs IH]; simpl; [tauto|].
  rewrite insertSorted_In, IH. intuition congruence.
Qed.

Lemma positiveValues_positive
    (heightGetter : feature -> JS.completion JS.number)
    (features : list feature) (v : Q) :
  In v (positiveValues heightGetter features) -> (0 < v)%Q.
Proof.
  unfold positiveValues. rewrite sortAscending_In, filter_In.
  intros [_ Hv]. now apply gtb_gt.
Qed.

Lemma maxOf_ge (xs : list Q) : forall x, (x <= JS.maxOf x xs)%Q.
Proof.
  unfold JS.maxOf. induction xs as [|y ys IH]; intros x; simpl; [lra|].
  eapply Qle_trans; [apply Q.le_max_l | apply IH].
Qed.

Lemma maxOf_greatest (xs : list Q) :
  forall x v, In v (x :: xs) -> (v <= JS.maxOf x xs)%Q.
Proof.
  unfold JS.maxOf. induction xs as [|y ys IH]; intros x v Hv; simpl.
  - destruct Hv as [<-|[]]. lra.
  - destruct Hv as [<-|[<-|Hv]].
    + eapply Qle_trans; [apply Q.le_max_l | apply (maxOf_ge ys)].
    + eapply Qle_trans; [apply Q.le_max_r | apply (maxOf_ge ys)].
    + apply IH. now right.
Qed.

Lemma maxOf_In (xs : list Q) : forall x, In (JS.maxOf x xs) (x :: xs).
Proof.
  unfold JS.maxOf. induction xs as [|y ys IH]; intros x; [now left|].
  cbn [fold_left].
  destruct (IH (Qmax x y)) as [Heq|Hin]; [|right; now right].
  rewrite <- Heq. unfold Qmax, GenericMinMax.gmax.
  destruct (x ?= y)%Q; simpl; auto.
Qed.

Lemma crusher_reflects (first : Q) (rest : list Q) :
  crusher (first :: rest) = true <-> crusherCondition first rest.
Proof.
  unfold crusher, Stats.isExtremeCrusher, crusherCondition.
  rewrite !orb_true_iff, !gtb_gt.
  unfold Stats.maxToP95Ratio, Stats.maxToMeanRatio, Stats.maxToMedianRatio,
    Stats.outlierThreshold, Stats.iqr, Stats.p95, Stats.q3, Stats.q1.
  change 0.95%Q with (Z.of_nat 95 # 100).
  change 0.75%Q with (Z.of_nat 75 # 100).
  change 0.25%Q with (Z.of_nat 25 # 100).
  rewrite !percentile_atPercent.
  change (Stats.mean first rest) with (average (first :: rest)).
  set (Q1 := atPercent (first :: rest) 25).
  set (Q3 := atPercent (first :: rest) 75).
  assert (Heq : (Q3 + (Q3 - Q1) * 2.5 == Q3 + 2.5 * (Q3 - Q1))%Q) by ring.
  rewrite Heq. tauto.
Qed.

(** The claim as written fails when the median is below one: the plain ratio
    of the maximum to the median exceeds 10 and the distribution is not
    flagged. *)
Lemma crusher_ignores_small_median :
  ~ (forall heightGetter features first rest,
       positiveValues heightGetter features = first :: rest ->
       (crusher (first :: rest) = true <-> plainRatioCondition first rest)).
Proof.
  intros Hclaim.
  specialize (Hclaim (guarded gdpDataset) smallEconomies 0.01%Q [0.01; 0.5]%Q
                     eq_refl).
  assert (Hplain : plainRatioCondition 0.01 [0.01; 0.5]%Q).
  { right. right. left. vm_compute. reflexivity. }
  apply Hclaim in Hplain. vm_compute in Hplain. discriminate.
Qed.

(** C1 (amended).  For every feature set and active dataset whose positive
    values are non-empty, the statistics flag the distribution as an
    outlier-crusher if and only if at least one of the following holds over
    the ascending-sorted positive values: max / max(p95, 1) > 3.0,
    max / max(mean, 1) > 8.0, max / max(median, 1) > 10.0, or
    max > Q3 + 2.5 * (Q3 - Q1), where Q1, Q3 and p95 are the elements at the
    indices floor(n * 25 / 100), floor(n * 75 / 100) and floor(n * 95 / 100)
    of the sorted array, and max is its greatest element. *)
Theorem crusher_detection
    (heightGetter : feature -> JS.completion JS.number)
    (features : list feature) (first : Q) (rest : list Q) :
  positiveValues heightGetter features = first :: rest ->
  (crusher (positiveValues heightGetter features) = true
   <-> crusherCondition first rest)
  /\ In (Stats.max first rest) (first :: rest)
  /\ (forall v, In v (first :: rest) -> (v <= Stats.max first rest)%Q).
Proof.
  intros Hvalues. rewrite Hvalues. split; [apply crusher_reflects|]. split.
  - apply maxOf_In.
  - intros v Hv. now apply maxOf_greatest.
Qed.

Lemma crusher_detection_witness :
  (crusher (positiveValues (guarded gdpDataset) closeEconomies) = true
   <-> crusherCondition 9 [10; 10; 10; 11]%Q)
  /\ In (Stats.max 9 [10; 10; 10; 11]%Q) [9; 10; 10; 10; 11]%Q
  /\ (forall v, In v [9; 10; 10; 10; 11]%Q ->
                (v <= Stats.max 9 [10; 10; 10; 11]%Q)%Q).
Proof.
  apply (crusher_detection (guarded gdpDataset) closeEconomies
                           9%Q [10; 10; 10; 11]%Q).
  vm_compute. reflexivity.
Defined.

(** When the 95th percentile, the mean and the median are all at least one,
    the guards are inert and the plain ratios decide. *)
Lemma crusher_plain_ratios (first : Q) (rest : list Q) :
  (1 <= atPercent (first :: rest) 95)%Q ->
  (1 <= average (first :: rest))%Q ->
  (1 <= Stats.median first rest)%Q ->
  (crusher (first :: rest) = true <-> plainRatioCondition first rest).
Proof.
  intros Hp95 Hmean Hmedian. rewrite crusher_reflects.
  unfold crusherCondition, plainRatioCondition.
  cbv zeta.
  rewrite (Q.max_l _ _ Hp95), (Q.max_l _ _ Hmean), (Q.max_l _ _ Hmedian).
  tauto.
Qed.

Lemma clamp_min_max (lo hi x : Q) :
  (lo <= hi)%Q -> (Qmin (Qmax x lo) hi == clamp lo hi x)%Q.
Proof.
  intros Hle. unfold clamp.
  destruct (JS.ltb x lo) eqn:Hlo.
  - apply ltb_lt in Hlo.
    destruct (Q.max_spec x lo) as [[_ Hmax]|[Hge _]]; [|lra].
    rewrite Hmax. apply Q.min_l. exact Hle.
  - apply ltb_ge in Hlo. rewrite (Q.max_l _ _ Hlo).
    destruct (JS.ltb hi x) eqn:Hhi.
    + apply ltb_lt in Hhi. apply Q.min_r. lra.
    + apply ltb_ge in Hhi. apply Q.min_l. exact Hhi.
Qed.

Lemma clamp_bounds (lo hi x : Q) :
  (lo <= hi)%Q -> (lo <= clamp lo hi x <= hi)%Q.
Proof.
  intros Hle. unfold clamp.
  destruct (JS.ltb x lo) eqn:Hlo; [lra|]. apply ltb_ge in Hlo.
  destruct (JS.ltb hi x) eqn:Hhi; [lra|]. apply ltb_ge in Hhi. lra.
Qed.

Lemma Stats_max_positive (first : Q) (rest : list Q) :
  (0 < first)%Q -> (0 < Stats.max first rest)%Q.
Proof.
  intros Hfirst. eapply Qlt_le_trans; [exact Hfirst | apply maxOf_ge].
Qed.

Lemma dampenedMax_clamp (first : Q) (rest : list Q) :
  (0 < first)%Q ->
  let max := Stats.max first rest in
  (Stats.dampenedMax first rest
   == clamp (0.3 * max) (0.8 * max)
        (Qmax (Qmax (atPercent (first :: rest) 95 * 1.5)
                    (average (first :: rest) * 3.0))
              (Stats.median first rest * 4.0)))%Q.
Proof.
  intros Hfirst max.
  pose proof (Stats_max_positive first rest Hfirst) as Hmax. fold max in Hmax.
  unfold Stats.dampenedMax, Stats.p95. cbv zeta.
  change 0.95%Q with (Z.of_nat 95 # 100). rewrite percentile_atPercent.
  change (Stats.mean first rest) with (average (first :: rest)).
  fold max.
  assert (H3 : (max * 0.3 == 0.3 * max)%Q) by ring.
  assert (H8 : (max * 0.8 == 0.8 * max)%Q) by ring.
  rewrite H3, H8. apply clamp_min_max. lra.
Qed.

(** The claim read with the plain ratios fails: for the positive values
    0.01, 0.01 and 0.5 the ratio of the maximum to the median is 50, yet the
    adjusted maximum is the maximum 0.5 and exceeds 0.8 * max = 0.4. *)
Lemma plain_ratio_leaves_max :
  ~ (forall heightGetter features first rest,
       positiveValues heightGetter features = first :: rest ->
       let stats := computeStatistics heightGetter features in
       let greatest :=
         Qmax (Qmax (atPercent (first :: rest) 95 * 1.5)
                    (average (first :: rest) * 3.0))
              (Stats.median first rest * 4.0) in
       (plainRatioCondition first rest ->
          (adjustedMax stats
           == clamp (0.3 * max stats) (0.8 * max stats) greatest)%Q
          /\ (0.3 * max stats <= adjustedMax stats <= 0.8 * max stats)%Q)
       /\ (~ plainRatioCondition first rest ->
             adjustedMax stats = max stats /\ outliers stats = [])).
Proof.
  intros Hclaim.
  destruct (Hclaim (guarded gdpDataset) smallEconomies 0.01%Q [0.01; 0.5]%Q
                   eq_refl) as [Hclamped _].
  assert (Hplain : plainRatioCondition 0.01 [0.01; 0.5]%Q).
  { right. right. left. vm_compute. reflexivity. }
  apply Hclamped in Hplain as [_ [_ Hupper]].
  vm_compute in Hupper. now apply Hupper.
Qed.

(** C2 (amended).  Whenever the outlier-crusher condition holds, each ratio
    taken against a denominator that is at least 1, the adjusted maximum of
    the statistics equals the greatest of p95 * 1.5, mean * 3.0 and
    median * 4.0 cut to the interval from 0.3 * max to 0.8 * max, so it lies
    between these two bounds; whenever the condition does not hold, the
    adjusted maximum is the maximum and the outlier set is empty. *)
Theorem adjusted_max_clamped
    (heightGetter : feature -> JS.completion JS.number)
    (features : list feature) (first : Q) (rest : list Q) :
  positiveValues heightGetter features = first :: rest ->
  let stats := computeStatistics heightGetter features in
  let greatest :=
    Qmax (Qmax (atPercent (first :: rest) 95 * 1.5)
               (average (first :: rest) * 3.0))
         (Stats.median first rest * 4.0) in
  (crusherCondition first rest ->
     (adjustedMax stats == clamp (0.3 * max stats) (0.8 * max stats) greatest)%Q
     /\ (0.3 * max stats <= adjustedMax stats <= 0.8 * max stats)%Q)
  /\ (~ crusherCondition first rest ->
        adjustedMax stats = max stats /\ outliers stats = []).
Proof.
  intros Hvalues stats greatest.
  assert (Hfirst : (0 < first)%Q).
  { apply (positiveValues_positive heightGetter features).
    rewrite Hvalues. now left. }
  assert (Hstats : stats = Stats.result first rest).
  { unfold stats, computeStatistics. now rewrite Hvalues. }
  rewrite Hstats. unfold Stats.result. cbn [adjustedMax max outliers].
  pose proof (Stats_max_positive first rest Hfirst) as Hmax.
  pose proof (crusher_reflects first rest) as Hreflect.
  cbn [crusher] in Hreflect.
  split; intros Hcondition.
  - rewrite (proj2 Hreflect Hcondition).
    pose proof (dampenedMax_clamp first rest Hfirst) as Hclamp.
    cbv zeta in Hclamp. fold greatest in Hclamp.
    split; [exact Hclamp|]. rewrite Hclamp. apply clamp_bounds. lra.
  - destruct (Stats.isExtremeCrusher first rest);
      [destruct Hcondition; now apply Hreflect | split; reflexivity].
Qed.

Lemma adjusted_max_clamped_witness :
  let stats := computeStatistics (guarded gdpDataset) closeEconomies in
  let greatest :=
    Qmax (Qmax (atPercent [9; 10; 10; 10; 11]%Q 95 * 1.5)
               (average [9; 10; 10; 10; 11]%Q * 3.0))
         (Stats.median 9 [10; 10; 10; 11]%Q * 4.0) in
  (crusherCondition 9 [10; 10; 10; 11]%Q ->
     (adjustedMax stats == clamp (0.3 * max stats) (0.8 * max stats) greatest)%Q
     /\ (0.3 * max stats <= adjustedMax stats <= 0.8 * max stats)%Q)
  /\ (~ crusherCondition 9 [10; 10; 10; 11]%Q ->
        adjustedMax stats = max stats /\ outliers stats = []).
Proof.
  apply (adjusted_max_clamped (guarded gdpDataset) closeEconomies
                              9%Q [10; 10; 10; 11]%Q).
  vm_compute. reflexivity.
Defined.

(** The five close values satisfy the condition through the threshold test:
    the maximum 11 exceeds Q3 + 2.5 * (Q3 - Q1) = 10. *)
Example closeEconomies_condition : crusherCondition 9 [10; 10; 10; 11]%Q.
Proof. right. right. right. vm_compute. reflexivity. Qed.

Example closeEconomies_statistics :
  crusher [9; 10; 10; 10; 11]%Q = true
  /\ (adjustedMax (computeStatistics (guarded gdpDataset) closeEconomies)
      == 8.8)%Q
  /\ outliers (computeStatistics (guarded gdpDataset) closeEconomies) = [11%Q].
Proof. repeat split; vm_compute; reflexivity. Qed.

(* ================================================================== *)
(** * Scenario A (C3)                                                  *)
(* ================================================================== *)

Lemma scenarioA_values (heightGetter : feature -> JS.completion JS.number)
    (f1 f2 : feature) :
  scenarioA heightGetter f1 f2 ->
  positiveValues heightGetter [f1; f2] = [100; 100000000]%Q.
Proof.
  unfold positiveValues. cbn [map].
  intros [[-> ->]|[-> ->]]; vm_compute; reflexivity.
Qed.

Lemma ratio_gt (k x d : Q) : (0 < d)%Q -> (k < x / d)%Q -> (k * d < x)%Q.
Proof.
  intros Hd Hk.
  assert (Heq : (x / d * d == x)%Q) by (field; lra).
  rewrite <- Heq. apply Qmult_lt_compat_r; assumption.
Qed.

(** With at most two positive values nothing is ever flagged: the third
    quartile and the 95th percentile are the maximum, and the mean and the
    median are at least half of it. *)
Lemma two_values_never_crush (a b : Q) :
  (0 < a)%Q -> (a <= b)%Q -> crusher [a; b] = false.
Proof.
  intros Ha Hab. destruct (crusher [a; b]) eqn:Hc; [|reflexivity].
  apply crusher_reflects in Hc. exfalso. revert Hc.
  unfold crusherCondition. cbv zeta.
  change (atPercent [a; b] 95) with b.
  change (atPercent [a; b] 75) with b.
  change (atPercent [a; b] 25) with a.
  change (Stats.max a [b]) with (Qmax a b).
  change (Stats.median a [b]) with ((a + b) / 2)%Q.
  change (average [a; b]) with ((0 + a + b) / inject_Z 2)%Q.
  rewrite (Q.max_r _ _ Hab).
  assert (Hmean : ((0 + a + b) / inject_Z 2 == (a + b) / 2)%Q) by field.
  rewrite Hmean.
  set (h := ((a + b) / 2)%Q).
  assert (Hh : (2 * h == a + b)%Q) by (unfold h; field).
  pose proof (Q.le_max_l b 1) as Hb1. pose proof (Q.le_max_r b 1) as Hb2.
  pose proof (Q.le_max_l h 1) as Hh1. pose proof (Q.le_max_r h 1) as Hh2.
  intros [H|[H|[H|H]]].
  - apply ratio_gt in H; lra.
  - apply ratio_gt in H; lra.
  - apply ratio_gt in H; lra.
  - lra.
Qed.

(** The claim as written fails: with two values the third quartile and the
    95th percentile are the maximum itself, and no test of the crusher
    condition fires. *)
Lemma scenario_A_never_crushes :
  ~ exists heightGetter f1 f2,
      scenarioA heightGetter f1 f2
      /\ crusher (positiveValues heightGetter [f1; f2]) = true
      /\ (exists n,
            normalize (computeStatistics heightGetter [f1; f2]) 100000000
              = Some n /\ (1 < n)%Q)
      /\ JS.includes (outliers (computeStatistics heightGetter [f1; f2]))
                     100000000 = true.
Proof.
  intros (heightGetter & f1 & f2 & Hscenario & Hcrusher & _).
  rewrite (scenarioA_values _ _ _ Hscenario) in Hcrusher.
  vm_compute in Hcrusher. discriminate.
Qed.

(** C3 (amended).  For every input of exactly two features under one active
    dataset, with positive values 100 and 100,000,000, the crusher condition
    does not trigger: the adjusted maximum is the maximum 100,000,000, the
    outlier set is empty, so the larger value is not flagged; the larger
    value's normalized height is exactly 1.0 and the smaller value's is
    exactly 0. *)
Theorem scenario_A_statistics
    (heightGetter : feature -> JS.completion JS.number) (f1 f2 : feature) :
  scenarioA heightGetter f1 f2 ->
  let stats := computeStatistics heightGetter [f1; f2] in
  crusher (positiveValues heightGetter [f1; f2]) = false
  /\ values stats = [100; 100000000]%Q
  /\ adjustedMax stats = max stats
  /\ max stats = 100000000%Q
  /\ outliers stats = []
  /\ JS.includes (outliers stats) 100000000 = false
  /\ (exists n, normalize stats 100000000 = Some n /\ (n == 1)%Q)
  /\ (exists n, normalize stats 100 = Some n /\ (n == 0)%Q).
Proof.
  intros Hscenario stats.
  pose proof (scenarioA_values _ _ _ Hscenario) as Hvalues.
  assert (Hstats : stats = statisticsOf [100; 100000000]%Q).
  { unfold stats, computeStatistics. now rewrite Hvalues. }
  rewrite Hvalues, Hstats. clear Hstats Hvalues Hscenario stats.
  repeat split; try (vm_compute; reflexivity).
  - eexists. split; [vm_compute; reflexivity|]. vm_compute. reflexivity.
  - eexists. split; [vm_compute; reflexivity|]. vm_compute. reflexivity.
Qed.

Lemma scenario_A_statistics_witness :
  let stats :=
    computeStatistics (guarded gdpDataset)
                      [gdpFeature 100; gdpFeature 100000000] in
  crusher (positiveValues (guarded gdpDataset)
                          [gdpFeature 100; gdpFeature 100000000]) = false
  /\ values stats = [100; 100000000]%Q
  /\ adjustedMax stats = max stats
  /\ max stats = 100000000%Q
  /\ outliers stats = []
  /\ JS.includes (outliers stats) 100000000 = false
  /\ (exists n, normalize stats 100000000 = Some n /\ (n == 1)%Q)
  /\ (exists n, normalize stats 100 = Some n /\ (n == 0)%Q).
Proof.
  apply (scenario_A_statistics (guarded gdpDataset)
                               (gdpFeature 100) (gdpFeature 100000000)).
  left. split; vm_compute; reflexivity.
Defined.

(* ================================================================== *)
(** * Height of a value that is not an outlier (C4)                    *)
(* ================================================================== *)

(** C4 (the code at a failing input).  Five features with GDP estimates 9,
    10, 10, 10 and 11 under the built-in dataset "gdp": the maximum 11 exceeds
    the outlier threshold 10, so the crusher condition holds and the adjusted
    maximum is cut to 0.8 * 11 = 8.8, below the minimum 9.  The value 10 is
    positive and not in the outlier set, and max > min, yet its height before
    any hover adjustment is 0.005 + 0.3 * ((10 - 9) / (8.8 - 9)) = -1.495,
    below the base height; with no polygon hovered this is the height the
    callback returns. *)
Theorem non_outlier_height_below_base (M : Math)
    (external : string -> feature -> JS.completion JS.number) :
  let catalogue := AVAILABLE_DATASETS external in
  let stats := computeStatistics (guarded gdpDataset) closeEconomies in
  heightStats catalogue closeEconomies "gdp" = JS.Normal stats
  /\ (exists heightGetter,
        HEIGHT_GETTERS catalogue !! "gdp" = Some heightGetter
        /\ heightGetter (gdpFeature 10) = JS.Normal (JS.Num 10))
  /\ JS.gtb 10 0 = true
  /\ JS.gtb (max stats) (min stats) = true
  /\ JS.includes (outliers stats) 10 = false
  /\ (heightMultiplier catalogue "gdp" == 0.3)%Q
  /\ (exists h,
        calculatedHeight M catalogue "gdp" stats 10 = Some h
        /\ (h == -1.495)%Q
        /\ ~ (baseHeight <= h <= baseHeight + heightMultiplier catalogue "gdp")%Q)
  /\ (exists h,
        getPolygonHeight M catalogue false None "gdp" stats
                         (elevated 1 (gdpFeature 10))
          = JS.Normal (Some h)
        /\ (h == -1.495)%Q).
Proof.
  intros catalogue stats. subst catalogue stats.
  split; [vm_compute; reflexivity|].
  split; [eexists; split; vm_compute; reflexivity|].
  split; [vm_compute; reflexivity|].
  split; [vm_compute; reflexivity|].
  split; [vm_compute; reflexivity|].
  split; [vm_compute; reflexivity|].
  split.
  - eexists. split; [vm_compute; reflexivity|].
    split; [vm_compute; reflexivity|].
    vm_compute. intros [Hlow _]. apply Hlow. reflexivity.
  - eexists. split; [vm_compute; reflexivity|]. vm_compute. reflexivity.
Qed.

Lemma eqb_false (a b : Q) : ~ (a == b)%Q -> JS.eqb a b = false.
Proof.
  intros Hne. unfold JS.eqb. destruct (Qeq_bool a b) eqn:Heq; [|reflexivity].
  apply Qeq_bool_iff in Heq. contradiction.
Qed.

Lemma normalize_unit (stats : HeightStatistics) (value : Q) :
  (min stats < adjustedMax stats)%Q ->
  (min stats <= value)%Q ->
  JS.includes (outliers stats) value = false ->
  exists n, normalize stats value = Some n /\ (0 <= n <= 1)%Q.
Proof.
  intros Hrange Hvalue Hout. unfold normalize. rewrite Hout. cbn [andb].
  unfold minWithQuotient, quotient.
  rewrite eqb_false by lra.
  eexists. split; [reflexivity|].
  assert (Hq : (0 <= (value - min stats) / (adjustedMax stats - min stats))%Q).
  { apply Qle_shift_div_l; lra. }
  split.
  - apply Q.min_glb; [lra | exact Hq].
  - eapply Qle_trans; [apply Q.le_min_l | lra].
Qed.

Lemma final_exponent_range (x : Q) :
  (0.3 <= (if JS.gtb x 1.0
           then Qmax 1.1 (Qmin 3.5 x)
           else Qmax 0.3 (Qmin 0.95 x)) <= 3.5)%Q.
Proof.
  destruct (JS.gtb x 1.0).
  - destruct (Q.max_spec 1.1 (Qmin 3.5 x)) as [[Hlt ->]|[_ ->]];
      [|lra].
    pose proof (Q.le_min_l 3.5 x) as Hupper. split; [|exact Hupper].
    destruct (Q.max_spec 1.1 (Qmin 3.5 x)); lra.
  - destruct (Q.max_spec 0.3 (Qmin 0.95 x)) as [[Hlt ->]|[_ ->]];
      [|lra].
    pose proof (Q.le_min_l 0.95 x) as Hupper. lra.
Qed.

Lemma adaptiveExponent_range (M : Math) (stats : HeightStatistics) (e : Q) :
  adaptiveExponent M stats = Some e -> (0.3 <= e <= 3.5)%Q.
Proof.
  unfold adaptiveExponent. destruct (values stats) as [|v vs]; [discriminate|].
  cbv zeta. intros [= <-]. apply final_exponent_range.
Qed.

Lemma adaptiveExponent_defined (M : Math) (stats : HeightStatistics) :
  values stats <> [] -> exists e, adaptiveExponent M stats = Some e.
Proof.
  unfold adaptiveExponent. destruct (values stats) as [|v vs]; [contradiction|].
  intros _. eexists. reflexivity.
Qed.

Lemma adaptiveScale_unit (M : Math) (e n : Q) :
  unitPower M -> (0 < e)%Q -> (0 <= n <= 1)%Q ->
  (0 <= adaptiveScale M e n <= 1)%Q.
Proof.
  intros Hpow He Hn. unfold adaptiveScale. cbv zeta.
  pose proof (Hpow n e Hn He) as Hp. set (p := pow M n e) in *.
  destruct (JS.gtb e 1.0 && JS.gtb p 0.9) eqn:Htop.
  - apply andb_true_iff in Htop as [_ Htop]. apply gtb_gt in Htop.
    assert (Heq : (0.9 + (p - 0.9) / 0.1 * 0.1 * 0.85
                   == 0.9 + (p - 0.9) * 0.85)%Q) by (field).
    rewrite Heq. lra.
  - destruct (JS.ltb e 1.0 && JS.ltb p 0.1) eqn:Hbottom; [|exact Hp].
    apply andb_true_iff in Hbottom as [_ Hbottom]. apply ltb_lt in Hbottom.
    assert (Heq : (p / 0.1 * 0.15 == p * 1.5)%Q) by (field).
    rewrite Heq. lra.
Qed.

Lemma scale_unit (M : Math) (heightFilter : string) (stats : HeightStatistics)
    (n : Q) :
  unitPower M ->
  (isBuiltIn heightFilter = false -> values stats <> []) ->
  (0 <= n <= 1)%Q ->
  exists s, scale M heightFilter stats n = Some s /\ (0 <= s <= 1)%Q.
Proof.
  intros Hpow Hvalues Hn. unfold scale.
  destruct (isBuiltIn heightFilter).
  - destruct (String.eqb heightFilter "gdp"); [eauto|].
    destruct (String.eqb heightFilter "area").
    { eexists. split; [reflexivity|]. apply Hpow; [exact Hn | lra]. }
    destruct (String.eqb heightFilter "population"); [|eauto].
    eexists. split; [reflexivity|]. apply Hpow; [exact Hn | lra].
  - destruct (adaptiveExponent_defined M stats (Hvalues eq_refl)) as [e He].
    rewrite He. cbn [mbind option_bind].
    eexists. split; [reflexivity|].
    apply adaptiveExponent_range in He.
    apply adaptiveScale_unit; [exact Hpow | lra | exact Hn].
Qed.

Lemma heightMultiplier_positive (catalogue : gmap string Dataset.t)
    (heightFilter : string) :
  (0 < heightMultiplier catalogue heightFilter)%Q.
Proof.
  unfold heightMultiplier.
  destruct (isBuiltIn heightFilter); [lra|].
  destruct (from_option _ false (catalogue !! heightFilter)); [lra|].
  destruct (from_option _ false (catalogue !! heightFilter)); lra.
Qed.

(** Where the bound does hold: whenever the adjusted maximum stays above the
    minimum, a value that is at least the minimum and is not an outlier gets a
    height between the base height and the base height plus the multiplier.
    The input above escapes because its adjusted maximum is below its
    minimum. *)
Lemma calculatedHeight_in_range (M : Math) (catalogue : gmap string Dataset.t)
    (heightFilter : string) (stats : HeightStatistics) (value : Q) :
  unitPower M ->
  (min stats < adjustedMax stats)%Q ->
  (min stats <= value)%Q ->
  JS.includes (outliers stats) value = false ->
  (isBuiltIn heightFilter = false -> values stats <> []) ->
  exists h,
    calculatedHeight M catalogue heightFilter stats value = Some h
    /\ (baseHeight <= h
        <= baseHeight + heightMultiplier catalogue heightFilter)%Q.
Proof.
  intros Hpow Hrange Hvalue Hout Hvalues.
  pose proof (heightMultiplier_positive catalogue heightFilter) as Hmult.
  unfold calculatedHeight. rewrite Hout. cbv zeta.
  destruct (JS.gtb value 0 && JS.gtb (max stats) (min stats)).
  - destruct (normalize_unit stats value Hrange Hvalue Hout) as (n & -> & Hn).
    cbn [mbind option_bind].
    destruct (scale_unit M heightFilter stats n Hpow Hvalues Hn)
      as (s & -> & Hs).
    cbn [mbind option_bind andb].
    eexists. split; [reflexivity|].
    set (m := heightMultiplier catalogue heightFilter) in *. nra.
  - exists baseHeight. split; [reflexivity|]. lra.
Qed.

(* ================================================================== *)
(** * Extraction completes on well-formed collections                  *)
(* ================================================================== *)

Lemma forEach_total {A S} (P : S -> Prop) (f : S -> A -> JS.completion S)
    (arr : list A) :
  (forall s a, In a arr -> P s -> exists s', f s a = JS.Normal s' /\ P s') ->
  forall s, P s -> exists s', JS.forEach f arr s = JS.Normal s' /\ P s'.
Proof.
  induction arr as [|a arr IH]; intros Hstep s Hs; simpl.
  - eauto.
  - destruct (Hstep s a (or_introl eq_refl) Hs) as (s1 & -> & Hs1). simpl.
    apply IH; [|exact Hs1]. intros t b Hb. apply Hstep. now right.
Qed.

Lemma forEachPair_total {A S} (P : S -> Prop)
    (f : S -> A -> A -> JS.completion S) (entries : list A) :
  (forall s e1 e2, In e1 entries -> In e2 entries -> P s ->
                   exists s', f s e1 e2 = JS.Normal s' /\ P s') ->
  forall s, P s -> exists s', forEachPair f entries s = JS.Normal s' /\ P s'.
Proof.
  induction entries as [|e1 later IH]; intros Hstep s Hs; simpl.
  - eauto.
  - destruct (forEach_total P (fun s e2 => f s e1 e2) later) with (s := s)
      as (s1 & -> & Hs1); [|exact Hs|].
    + intros t e2 He2. apply Hstep; [now left | now right].
    + simpl. apply IH; [|exact Hs1].
      intros t a b Ha Hb. apply Hstep; now right.
Qed.

Lemma extractCoordinates_total (g : geometry) :
  wellFormed g -> exists outer, extractCoordinates g = JS.Normal (Some outer).
Proof.
  destruct g as [coordinates|coordinates|]; simpl.
  - destruct coordinates as [|outer rest]; [contradiction|]. eauto.
  - intros [Hne Hall]. destruct coordinates as [|first rest]; [contradiction|].
    pose proof (Forall_inv Hall) as Hfirst.
    destruct first as [|outer holes]; [contradiction|]. cbn [outerLength JS.bind].
    destruct (forEach_total
                (fun st : list ring * nat => fst st <> [])
                (fun '(largestPolygon, maxLength) polygon =>
                   JS.bind (outerLength polygon)
                     (fun len =>
                        JS.Normal (if (maxLength <? len)%nat
                                   then (polygon, len)
                                   else (largestPolygon, maxLength))))
                ((outer :: holes) :: rest))
      with (s := (outer :: holes, length outer)) as ([largest len] & -> & Hl).
    + intros [largestPolygon maxLength] polygon Hin Hst.
      rewrite List.Forall_forall in Hall. specialize (Hall polygon Hin).
      destruct polygon as [|o hs]; [contradiction|]. simpl.
      eexists. split; [reflexivity|].
      destruct (maxLength <? length o)%nat; [discriminate | exact Hst].
    + discriminate.
    + simpl in *. destruct largest as [|o hs]; [contradiction|]. eauto.
  - eauto.
Qed.

Lemma findSharedBoundary_total (M : Math) (c1 c2 : ring) (tolerance : Q) :
  exists pts, findSharedBoundary M (Some c1) (Some c2) tolerance = JS.Normal pts.
Proof.
  unfold findSharedBoundary, sharedPoints.
  destruct (forEach_total (fun _ => True)
              (fun st coord1 =>
                 JS.Normal (fold_left (matchPoint M tolerance coord1)
                                      (indexed c2) st))
              c1) with (s := (@nil point, (∅ : gset nat)))
    as (st & -> & _); [eauto | exact I|].
  simpl. eauto.
Qed.

Lemma pushBoundary_total (M : Math) (kind region1Name region2Name : string)
    (boundaries : list BoundarySegment) (country1 country2 : feature) :
  wellFormed (geom country1) -> wellFormed (geom country2) ->
  exists boundaries',
    pushBoundary M kind region1Name region2Name boundaries country1 country2
      = JS.Normal boundaries'.
Proof.
  intros H1 H2. unfold pushBoundary.
  destruct (extractCoordinates_total _ H1) as (c1 & ->).
  destruct (extractCoordinates_total _ H2) as (c2 & ->).
  cbn [JS.bind].
  destruct (findSharedBoundary_total M c1 c2 0.01) as (pts & ->).
  cbn [JS.bind]. eauto.
Qed.

Lemma betweenRegions_total (M : Math) (kind region1Name region2Name : string)
    (region1Features region2Features : list feature)
    (boundaries : list BoundarySegment) :
  Forall (fun c => wellFormed (geom c)) region1Features ->
  Forall (fun c => wellFormed (geom c)) region2Features ->
  exists boundaries',
    betweenRegions M kind region1Name region2Name
                   region1Features region2Features boundaries
      = JS.Normal boundaries'.
Proof.
  intros H1 H2. rewrite List.Forall_forall in H1, H2. unfold betweenRegions.
  destruct (forEach_total (fun _ => True)
              (fun bs country1 =>
                 JS.forEach
                   (fun bs country2 =>
                      pushBoundary M kind region1Name region2Name bs
                                   country1 country2)
                   region2Features bs)
              region1Features) with (s := boundaries)
    as (bs & -> & _); [|exact I|eauto].
  intros bs1 country1 Hc1 _.
  destruct (forEach_total (fun _ => True)
              (fun bs country2 =>
                 pushBoundary M kind region1Name region2Name bs
                              country1 country2)
              region2Features) with (s := bs1)
    as (bs2 & -> & _); [|exact I|eauto].
  intros bs2 country2 Hc2 _.
  destruct (pushBoundary_total M kind region1Name region2Name bs2
              country1 country2 (H1 _ Hc1) (H2 _ Hc2)) as (bs3 & ->).
  eauto.
Qed.

(** On a collection whose features all carry a property bag and a
    well-formed geometry, boundary extraction returns in either mode. *)
Lemma extraction_completes (M : Math) (useDataDrivenRegions : bool)
    (countries : list feature) :
  Forall (fun c => wellFormed (geom c) /\ properties c <> None) countries ->
  exists boundaries,
    extractBoundaries M useDataDrivenRegions countries = JS.Normal boundaries.
Proof.
  intros Hall.
  assert (Hgeom : Forall (fun c => wellFormed (geom c)) countries)
    by (eapply List.Forall_impl; [|exact Hall]; intros c [Hc _]; exact Hc).
  assert (Hsub : forall l, incl l countries ->
                           Forall (fun c => wellFormed (geom c)) l).
  { intros l Hl. apply List.Forall_forall. intros c Hc.
    rewrite List.Forall_forall in Hgeom. apply Hgeom, Hl, Hc. }
  destruct useDataDrivenRegions; simpl.
  - unfold createDataDrivenRegionBoundaries.
    destruct (forEach_total
                (fun m : list (string * list feature) =>
                   NoDup (map fst m)
                   /\ Forall (fun entry => incl (snd entry) countries) m)
                (fun regionMap country =>
                   match properties country with
                   | None => JS.Throw
                   | Some bag =>
                       JS.Normal
                         (mapPush regionMap
                            (derivedRegionKey (continentOf (Some bag))
                                              (subregionOf (Some bag)))
                            country)
                   end)
                countries) with (s := @nil (string * list feature))
      as (dataRegions & Hmap & _ & Hincl).
    + intros m country Hin [Hnd Hm].
      rewrite List.Forall_forall in Hall. destruct (Hall country Hin) as [_ Hbag].
      destruct (properties country) as [bag|]; [|contradiction].
      eexists. split; [reflexivity|].
      destruct (mapPush_keys m
                  (derivedRegionKey (continentOf (Some bag))
                                    (subregionOf (Some bag)))
                  country countries Hnd Hm Hin) as (H1 & H2 & _).
      split; assumption.
    + split; [apply NoDup_nil_2 | constructor].
    + unfold createDataDrivenRegions. rewrite Hmap. cbn [JS.bind].
      rewrite List.Forall_forall in Hincl.
      destruct (forEachPair_total (fun _ => True)
                  (fun boundaries '(region1Name, region1Countries)
                                  '(region2Name, region2Countries) =>
                     betweenRegions M "data_driven_boundary"
                                    region1Name region2Name
                                    region1Countries region2Countries boundaries)
                  dataRegions) with (s := @nil BoundarySegment)
        as (bs & -> & _); [|exact I|eauto].
      intros bs [r1 cs1] [r2 cs2] H1 H2 _.
      destruct (betweenRegions_total M "data_driven_boundary" r1 r2 cs1 cs2 bs)
        as (bs' & ->); [apply Hsub, (Hincl _ H1) | apply Hsub, (Hincl _ H2)|].
      eauto.
  - unfold createManualRegionBoundaries.
    destruct (forEachPair_total (fun _ => True)
                (fun boundaries '(region1Name, region1Countries)
                                '(region2Name, region2Countries) =>
                   betweenRegions M "manual_boundary" region1Name region2Name
                     (List.filter
                        (fun country =>
                           includesCode region1Countries (getCountryCode country))
                        countries)
                     (List.filter
                        (fun country =>
                           includesCode region2Countries (getCountryCode country))
                        countries)
                     boundaries)
                REGIONS) with (s := @nil BoundarySegment)
      as (bs & -> & _); [|exact I|eauto].
    intros bs [r1 cs1] [r2 cs2] _ _ _.
    destruct (betweenRegions_total M "manual_boundary" r1 r2
                (List.filter
                   (fun country => includesCode cs1 (getCountryCode country))
                   countries)
                (List.filter
                   (fun country => includesCode cs2 (getCountryCode country))
                   countries) bs)
      as (bs' & ->); [| |eauto];
      apply Hsub; intros c Hc; apply filter_In in Hc; tauto.
Qed.

(* ================================================================== *)
(** * The static region table                                          *)
(* ================================================================== *)

Lemma assign_lookup (region : string) (countries : list string) :
  forall (acc : gmap string string) (code : string),
    fold_left (fun acc country => <[country := region]> acc) countries acc
      !! code
    = if bool_decide (code ∈ countries) then Some region else acc !! code.
Proof.
  induction countries as [|c countries IH]; intros acc code; cbn [fold_left].
  - rewrite bool_decide_eq_false_2 by apply not_elem_of_nil. reflexivity.
  - rewrite IH. destruct (bool_decide (code ∈ countries)) eqn:Hin.
    + apply bool_decide_eq_true in Hin.
      rewrite bool_decide_eq_true_2 by (apply elem_of_cons; now right).
      reflexivity.
    + apply bool_decide_eq_false in Hin.
      destruct (decide (c = code)) as [->|Hne].
      * rewrite bool_decide_eq_true_2 by (apply elem_of_cons; now left).
        apply lookup_insert_eq.
      * rewrite bool_decide_eq_false_2
          by (rewrite elem_of_cons; intros [?|?]; [congruence | tauto]).
        now apply lookup_insert_ne.
Qed.

Lemma invert_sound (table : list (string * list string)) :
  forall (acc : gmap string string) (code region : string),
    fold_left
      (fun acc '(region, countries) =>
         fold_left (fun acc country => <[country := region]> acc) countries acc)
      table acc !! code = Some region ->
    acc !! code = Some region
    \/ exists countries, In (region, countries) table /\ In code countries.
Proof.
  induction table as [|[r cs] table IH]; intros acc code region; simpl.
  - now left.
  - intros H. apply IH in H as [H|(countries & Hin & Hcode)].
    + rewrite assign_lookup in H.
      destruct (bool_decide (code ∈ cs)) eqn:Hcs; [|now left].
      apply bool_decide_eq_true, list_elem_of_In in Hcs. injection H as <-.
      right. exists cs. split; [now left | exact Hcs].
    + right. exists countries. split; [now right | exact Hcode].
Qed.

Lemma invert_keeps (table : list (string * list string)) :
  forall (acc : gmap string string) (code : string),
    ~ In code (concat (map snd table)) ->
    fold_left
      (fun acc '(region, countries) =>
         fold_left (fun acc country => <[country := region]> acc) countries acc)
      table acc !! code = acc !! code.
Proof.
  induction table as [|[r cs] table IH]; intros acc code Hnot; simpl;
    [reflexivity|].
  simpl in Hnot. rewrite in_app_iff in Hnot.
  rewrite IH by tauto. rewrite assign_lookup.
  rewrite bool_decide_eq_false_2 by (rewrite list_elem_of_In; tauto).
  reflexivity.
Qed.

Lemma invert_complete (table : list (string * list string)) :
  forall (acc : gmap string string) (code region : string)
         (countries : list string),
    NoDup (concat (map snd table)) ->
    In (region, countries) table -> In code countries ->
    fold_left
      (fun acc '(region, countries) =>
         fold_left (fun acc country => <[country := region]> acc) countries acc)
      table acc !! code = Some region.
Proof.
  induction table as [|[r cs] table IH];
    intros acc code region countries Hnd Hin Hcode; [contradiction|].
  simpl in Hnd. apply NoDup_app in Hnd as (_ & Hdisj & Hrest).
  destruct Hin as [[= -> ->]|Hin]; simpl.
  - rewrite invert_keeps.
    + rewrite assign_lookup.
      now rewrite bool_decide_eq_true_2 by (now apply list_elem_of_In).
    + intros Hlater. apply (Hdisj code); now apply list_elem_of_In.
  - now apply (IH _ code region countries).
Qed.

Lemma REGIONS_codes_distinct : NoDup (concat (map snd REGIONS)).
Proof. apply (bool_decide_unpack _). vm_compute. exact I. Qed.

Lemma REGION_MAPPING_lookup (code region : string) :
  REGION_MAPPING !! code = Some region
  <-> exists countries, In (region, countries) REGIONS /\ In code countries.
Proof.
  unfold REGION_MAPPING. split.
  - intros H. apply invert_sound in H as [H|H]; [|exact H].
    rewrite lookup_empty in H. discriminate.
  - intros (countries & Hin & Hcode).
    now apply (invert_complete REGIONS ∅ code region countries
                 REGIONS_codes_distinct).
Qed.

(** X1.  The lookup table is the exact inverse of the region table: a code
    is mapped to a region if and only if that region lists it.  No code is
    listed by two regions, so the table is a partition. *)
Theorem REGION_MAPPING_inverts_REGIONS (code region : string) :
  (REGION_MAPPING !! code = Some region
   <-> exists countries, In (region, countries) REGIONS /\ In code countries)
  /\ (forall region' countries countries',
        In (region, countries) REGIONS -> In code countries ->
        In (region', countries') REGIONS -> In code countries' ->
        region = region').
Proof.
  split; [apply REGION_MAPPING_lookup|].
  intros region' countries countries' Hin Hcode Hin' Hcode'.
  assert (H : REGION_MAPPING !! code = Some region)
    by (apply REGION_MAPPING_lookup; eauto).
  assert (H' : REGION_MAPPING !! code = Some region')
    by (apply REGION_MAPPING_lookup; eauto).
  congruence.
Qed.

Lemma includesCode_In (codes : list string) (code : option string) :
  includesCode codes code = true <-> exists c, code = Some c /\ In c codes.
Proof.
  destruct code as [c|]; simpl.
  - rewrite existsb_exists. split.
    + intros (x & Hx & Heq). apply String.eqb_eq in Heq. subst x. eauto.
    + intros (x & [= <-] & Hx). exists c. split; [exact Hx|].
      apply String.eqb_refl.
  - split; [discriminate | intros (c & Hc & _); discriminate].
Qed.

Lemma table_functional {A B} (table : list (A * B)) (k : A) (v v' : B) :
  NoDup (map fst table) -> In (k, v) table -> In (k, v') table -> v = v'.
Proof.
  induction table as [|[k0 v0] table IH]; intros Hnd Hv Hv'; [contradiction|].
  simpl in Hnd. apply NoDup_cons in Hnd as [Hnot Hnd].
  destruct Hv as [Hv|Hv], Hv' as [Hv'|Hv'].
  - congruence.
  - exfalso. injection Hv as -> ->. apply Hnot, list_elem_of_In.
    change k with (fst (k, v')). now apply in_map.
  - exfalso. injection Hv' as -> ->. apply Hnot, list_elem_of_In.
    change k with (fst (k, v)). now apply in_map.
  - now apply IH.
Qed.

Lemma REGIONS_names_proper :
  Forall (fun entry => fst entry <> "" /\ fst entry <> "unknown") REGIONS.
Proof. apply (bool_decide_unpack _). vm_compute. exact I. Qed.

(** X2.  The two static classifications agree: a feature is grouped under a
    region by the manual boundary generator (its code is in the region's
    list) exactly when [getCountryRegion] in static mode returns that
    region's name. *)
Theorem static_grouping_agrees (country : feature) (region : string)
    (countries : list string) :
  In (region, countries) REGIONS ->
  (includesCode countries (getCountryCode country) = true
   <-> getCountryRegion false country = region).
Proof.
  intros Hin.
  pose proof REGIONS_names_proper as Hnames.
  rewrite List.Forall_forall in Hnames.
  destruct (Hnames _ Hin) as [Hne Hunknown]. simpl in Hne, Hunknown.
  rewrite includesCode_In. split.
  - intros (c & Hcode & Hc).
    assert (Hmap : REGION_MAPPING !! c = Some region)
      by (apply REGION_MAPPING_lookup; eauto).
    destruct (static_region_cases country)
      as [(c' & r & Hc' & Hr & ->)|[(c' & Hc' & Hnone & _)|[_ Hnone]]].
    + f_equal. congruence.
    + congruence.
    + destruct (Hnone c Hcode). congruence.
  - intros Hregion.
    destruct (static_region_cases country)
      as [(c & r & Hc & Hr & Heq)|[(c & _ & _ & _ & Heq)|[Heq _]]];
      rewrite Heq in Hregion.
    + injection Hregion as ->. exists c. split; [exact Hc|].
      apply REGION_MAPPING_lookup in Hr as (cs & Hcs & Hin').
      now rewrite (table_functional REGIONS _ countries cs
                     REGIONS_names_distinct Hin Hcs).
    + discriminate.
    + injection Hregion as <-. contradiction.
Qed.

Lemma static_grouping_agrees_witness :
  includesCode ["GB"; "IE"; "NL"; "BE"; "LU"; "MC"; "FR"]
               (getCountryCode france) = true
  <-> getCountryRegion false france = "west_europe".
Proof.
  apply (static_grouping_agrees france "west_europe"
           ["GB"; "IE"; "NL"; "BE"; "LU"; "MC"; "FR"]).
  vm_compute. tauto.
Defined.

(* ================================================================== *)
(** * The load step                                                    *)
(* ================================================================== *)

Lemma excluded_codes_have_no_region (c : string) :
  c ∈ EXCLUDED_COUNTRIES -> REGION_MAPPING !! c = None.
Proof.
  unfold EXCLUDED_COUNTRIES. rewrite elem_of_list_to_set.
  revert c. apply Forall_forall.
  apply (bool_decide_unpack _). vm_compute. exact I.
Qed.

Lemma hasRegion_not_excluded (f : feature) :
  hasRegion f = true -> excluded (getCountryCode f) = false.
Proof.
  intros H. apply hasRegion_admits in H as (c & -> & Hcase).
  simpl. apply bool_decide_eq_false. intros Hex.
  destruct Hcase as [[region Hregion]|Hin].
  - apply excluded_codes_have_no_region in Hex. congruence.
  - destruct (proj1 (List.Forall_forall _ _) prototypeKeys_unlisted c Hin)
      as (_ & Hnex & _).
    now apply Hnex.
Qed.

Lemma filter_ext_in_bool {A} (p q : A -> bool) (l : list A) :
  (forall x, In x l -> p x = q x) -> List.filter p l = List.filter q l.
Proof.
  induction l as [|x l IH]; intros H; simpl; [reflexivity|].
  rewrite (H x) by (now left).
  rewrite IH by (intros y Hy; apply H; now right). reflexivity.
Qed.

Lemma filter_idempotent {A} (p : A -> bool) (l : list A) :
  List.filter p (List.filter p l) = List.filter p l.
Proof.
  induction l as [|x l IH]; simpl; [reflexivity|].
  destruct (p x) eqn:Hx; simpl; [rewrite Hx|]; now rewrite IH.
Qed.

Lemma filter_map_commute {A B} (p : B -> bool) (g : A -> B) (l : list A) :
  List.filter p (map g l) = map g (List.filter (fun x => p (g x)) l).
Proof.
  induction l as [|x l IH]; simpl; [reflexivity|].
  destruct (p (g x)); simpl; now rewrite IH.
Qed.

(** X3.  The load step keeps exactly the features that have a region: no
    excluded code is listed by a region, so the exclusion filter removes
    nothing the region filter would keep.  The filter that the boundary
    effect applies again is the identity on what was loaded. *)
Theorem load_keeps_features_with_region
    (rewind : geometry -> geometry) (data : list feature) :
  loadCountries rewind data
  = map (rewound rewind) (List.filter hasRegion data)
  /\ List.filter hasRegion (loadCountries rewind data)
     = loadCountries rewind data.
Proof.
  assert (Hload : loadCountries rewind data
                  = map (rewound rewind) (List.filter hasRegion data)).
  { unfold loadCountries. f_equal.
    induction data as [|f data IH]; simpl; [reflexivity|].
    destruct (hasRegion f) eqn:Hf.
    - rewrite (hasRegion_not_excluded f Hf). simpl. rewrite Hf. now rewrite IH.
    - destruct (negb (excluded (getCountryCode f))); simpl;
        [rewrite Hf|]; exact IH. }
  split; [exact Hload|].
  rewrite Hload, filter_map_commute.
  rewrite (filter_ext_in_bool (fun x => hasRegion (rewound rewind x)) hasRegion)
    by reflexivity.
  now rewrite filter_idempotent.
Qed.

Lemma manual_values (key : option string) (code : string) :
  manualLookup key = Some code ->
  In code ["NO"; "FR"; "XK"; "XS"; "XN"].
Proof.
  destruct key as [k|]; simpl; [|discriminate].
  unfold MANUAL_COUNTRY_MAPPING.
  rewrite !lookup_insert_Some, lookup_empty. simpl. intuition congruence.
Qed.

(** X4.  A feature whose ISO code is missing, empty or a sentinel survives
    the region filter exactly when the manual override table resolves it to
    Norway, France or Kosovo: Somaliland and Northern Cyprus resolve to codes
    that no region lists, and an unresolved sentinel has no region either. *)
Theorem sentinel_features_with_region (f : feature) :
  invalidIso f ->
  (hasRegion f = true
   <-> getCountryCode f = Some "NO" \/ getCountryCode f = Some "FR"
       \/ getCountryCode f = Some "XK").
Proof.
  intros Hiso.
  assert (Hcode : getCountryCode f
                  = JS.orStr (manualLookup (prop ADMIN f))
                      (JS.orStr (manualLookup (prop NAME f)) (prop ISO_A2 f))).
  { unfold getCountryCode.
    destruct Hiso as [H|[H|H]]; rewrite H; reflexivity. }
  assert (Hcases : In (getCountryCode f)
                      [Some "NO"; Some "FR"; Some "XK"; Some "XS"; Some "XN";
                       None; Some ""; Some "-99"; Some "n/a"]).
  { rewrite Hcode. unfold JS.orStr.
    assert (Hman : forall key,
               JS.truthyStr (manualLookup key) = None
               \/ exists code, JS.truthyStr (manualLookup key) = Some code
                               /\ In code ["NO"; "FR"; "XK"; "XS"; "XN"]).
    { intros key. destruct (manualLookup key) as [code|] eqn:Hk; [|now left].
      right. exists code. pose proof (manual_values key code Hk) as Hv.
      split; [|exact Hv].
      simpl in Hv. destruct Hv as [<-|[<-|[<-|[<-|[<-|[]]]]]]; reflexivity. }
    destruct (Hman (prop ADMIN f)) as [->|(code & -> & Hv)].
    - destruct (Hman (prop NAME f)) as [->|(code & -> & Hv)].
      + destruct Hiso as [H | [-> | ->]]; simpl; [|tauto|tauto].
        destruct (prop ISO_A2 f) as [[|a s]|]; simpl in *;
          [tauto | discriminate | tauto].
      + simpl in Hv. simpl. intuition (subst; auto).
    - simpl in Hv. simpl. intuition (subst; auto). }
  unfold hasRegion. rewrite bool_decide_eq_true.
  simpl in Hcases.
  destruct Hcases as [H|[H|[H|[H|[H|[H|[H|[H|[H|[]]]]]]]]]];
    rewrite <- H; vm_compute; split;
    try (intros [x Hx]; discriminate);
    try (intros [Hx|[Hx|Hx]]; discriminate);
    try (intros _; eauto); auto.
Qed.

Lemma sentinel_features_with_region_witness :
  hasRegion norway = true
  <-> getCountryCode norway = Some "NO" \/ getCountryCode norway = Some "FR"
      \/ getCountryCode norway = Some "XK".
Proof.
  apply (sentinel_features_with_region norway).
  right. left. reflexivity.
Defined.

(* ================================================================== *)
(** * Region keys                                                      *)
(* ================================================================== *)

Lemma slug_nonempty (s : string) : s <> "" -> slug s <> "".
Proof.
  destruct s as [|a s]; [contradiction|]. intros _. unfold slug. simpl.
  destruct (isSeparator (JS.lowerChar a)); discriminate.
Qed.

Lemma truthy_default_nonempty (v : option string) :
  default "Unknown" (JS.truthyStr v) <> "".
Proof. destruct v as [[|a s]|]; discriminate. Qed.

Lemma derivedRegionKey_proper (continent subregion : string) :
  continent <> "" ->
  derivedRegionKey continent subregion <> ""
  /\ forall c, In c (list_ascii_of_string (derivedRegionKey continent subregion))
               -> isSeparator c = false.
Proof.
  intros Hne.
  assert (Hslug : forall s, s <> "" ->
            slug s <> ""
            /\ forall c, In c (list_ascii_of_string (slug s)) ->
                         isSeparator c = false).
  { intros s Hs. split; [now apply slug_nonempty | apply slug_clean]. }
  assert (Hconst : forall s : string,
            bool_decide (s <> ""
                         /\ Forall (fun c => isSeparator c = false)
                                   (list_ascii_of_string s)) = true ->
            s <> ""
            /\ forall c, In c (list_ascii_of_string s) -> isSeparator c = false).
  { intros s Hs. apply bool_decide_eq_true in Hs as [H1 H2].
    split; [exact H1|]. now apply List.Forall_forall. }
  unfold derivedRegionKey.
  destruct (String.eqb continent "Europe"); [apply Hslug; discriminate|].
  destruct (String.eqb continent "Africa"); [apply Hslug; discriminate|].
  destruct (String.eqb continent "Asia"); [apply Hslug; discriminate|].
  destruct (String.eqb continent "North America").
  { destruct (String.eqb subregion "Northern America");
      apply Hconst; vm_compute; reflexivity. }
  destruct (String.eqb continent "South America");
    [apply Hconst; vm_compute; reflexivity|].
  destruct (String.eqb continent "Oceania"); [apply Hslug; discriminate|].
  apply Hslug, Hne.
Qed.

Lemma REGIONS_names_clean :
  Forall (fun entry =>
            Forall (fun c => isSeparator c = false)
                   (list_ascii_of_string (fst entry)))
         REGIONS.
Proof. apply (bool_decide_unpack _). vm_compute. exact I. Qed.

(** A string used as a region key: not empty, no white space, no
    ampersand. *)
Lemma derived_key_proper (country : feature) :
  exists name,
    getCountryRegion true country = Named name
    /\ name <> ""
    /\ forall c, In c (list_ascii_of_string name) -> isSeparator c = false.
Proof.
  unfold getCountryRegion. eexists. split; [reflexivity|].
  apply derivedRegionKey_proper. unfold continentOf.
  apply truthy_default_nonempty.
Qed.

Lemma static_key_proper (country : feature) :
  match getCountryRegion false country with
  | Named name =>
      name <> ""
      /\ forall c, In c (list_ascii_of_string name) -> isSeparator c = false
  | Builtin key =>
      getCountryCode country = Some key /\ In key prototypeKeys
  end.
Proof.
  destruct (static_region_cases country)
    as [(c & region & Hc & Hmap & ->)|[(c & Hc & _ & Hin & ->)|[-> _]]].
  - split; [exact (REGION_MAPPING_values_truthy c region Hmap)|].
    apply REGION_MAPPING_lookup in Hmap as (cs & Hin & _).
    pose proof REGIONS_names_clean as Hclean.
    rewrite List.Forall_forall in Hclean. specialize (Hclean _ Hin).
    simpl fst in Hclean. rewrite List.Forall_forall in Hclean. exact Hclean.
  - split; assumption.
  - split; [discriminate|].
    apply (proj1 (List.Forall_forall _ _)).
    apply (bool_decide_unpack _). vm_compute. exact I.
Qed.

Lemma getCountryRegion_truthy (useDataDrivenRegions : bool)
    (country : feature) :
  truthyRegion (getCountryRegion useDataDrivenRegions country) = true.
Proof.
  destruct useDataDrivenRegions.
  - destruct (derived_key_proper country) as (name & -> & Hne & _).
    cbn [truthyRegion]. now apply negb_true_iff, String.eqb_neq.
  - pose proof (static_key_proper country) as H.
    destruct (getCountryRegion false country) as [name|key]; [|reflexivity].
    destruct H as [Hne _].
    cbn [truthyRegion]. now apply negb_true_iff, String.eqb_neq.
Qed.

Lemma regionEqb_eq (a b : regionKey) : regionEqb a b = true <-> a = b.
Proof.
  destruct a as [x|x], b as [y|y]; cbn [regionEqb];
    try (split; discriminate); rewrite String.eqb_eq;
    split; congruence.
Qed.

(** X5.  The value that [getCountryRegion] returns is always truthy.  In
    derived mode it is a string; in static mode it is a string, or the
    member that [REGION_MAPPING] inherits under the country code when that
    code is a property name of [Object.prototype].  A string that is
    returned is never empty and holds no white space and no ampersand: it is
    a name of the region table, "unknown", or a normalised derived key. *)
Theorem region_key_proper (useDataDrivenRegions : bool) (country : feature) :
  truthyRegion (getCountryRegion useDataDrivenRegions country) = true
  /\ match getCountryRegion useDataDrivenRegions country with
     | Named name =>
         name <> ""
         /\ forall c, In c (list_ascii_of_string name) -> isSeparator c = false
     | Builtin key =>
         useDataDrivenRegions = false
         /\ getCountryCode country = Some key
         /\ REGION_MAPPING !! key = None
         /\ In key prototypeKeys
     end.
Proof.
  split; [apply getCountryRegion_truthy|].
  destruct useDataDrivenRegions.
  - destruct (derived_key_proper country) as (name & -> & Hname). exact Hname.
  - destruct (static_region_cases country)
      as [(c & region & Hc & Hmap & Heq)|[(c & Hc & Hnone & Hin & Heq)|[Heq _]]];
      pose proof (static_key_proper country) as H; rewrite Heq in *.
    + exact H.
    + auto.
    + exact H.
Qed.

(* ================================================================== *)
(** * Polygons and hover                                               *)
(* ================================================================== *)

Lemma decimal_inj (n m : nat) : JS.decimal n = JS.decimal m -> n = m.
Proof.
  unfold JS.decimal. intros H.
  apply DecimalNat.Unsigned.to_uint_inj.
  assert (Hs : Some (Nat.to_uint n) = Some (Nat.to_uint m))
    by (rewrite <- !NilEmpty.usu; now rewrite H).
  now injection Hs.
Qed.

Lemma combine_seq_fst {A} (l : list A) :
  forall start, map fst (combine (seq start (length l)) l) = seq start (length l).
Proof.
  induction l as [|x l IH]; intros start; simpl; [reflexivity|].
  now rewrite IH.
Qed.

Lemma combine_seq_snd {A} (l : list A) :
  forall start, map snd (combine (seq start (length l)) l) = l.
Proof.
  induction l as [|x l IH]; intros start; simpl; [reflexivity|].
  now rewrite IH.
Qed.

Lemma map_indexed_snd {A B} (g : A -> B) (h : nat * A -> B) (l : list A) :
  (forall i x, h (i, x) = g x) -> map h (indexed l) = map g l.
Proof.
  intros Hh. unfold indexed.
  rewrite <- (combine_seq_snd l 0) at 3. rewrite map_map.
  apply map_ext. intros [i x]. apply Hh.
Qed.

Lemma map_indexed_fst {A B} (g : nat -> B) (h : nat * A -> B) (l : list A) :
  (forall i x, h (i, x) = g i) ->
  map h (indexed l) = map g (seq 0 (length l)).
Proof.
  intros Hh. unfold indexed.
  rewrite <- (combine_seq_fst l 0) at 2. rewrite map_map.
  apply map_ext. intros [i x]. apply Hh.
Qed.

Lemma map_constant {A B} (b : B) (l : list A) :
  map (fun _ => b) l = repeat b (length l).
Proof. induction l as [|x l IH]; simpl; [reflexivity | now rewrite IH]. Qed.

Lemma polygon_ids (countries : list feature) :
  map pid (createPolygonData countries)
  = map (fun index => "surface_" +:+ JS.decimal index)
        (seq 0 (length countries))
    ++ map (fun index => "elevated_" +:+ JS.decimal index)
           (seq 0 (length countries)).
Proof.
  unfold createPolygonData. rewrite map_app, !map_map.
  f_equal; apply map_indexed_fst; reflexivity.
Qed.

Lemma polygon_ids_distinct (countries : list feature) :
  NoDup (map pid (createPolygonData countries)).
Proof.
  rewrite polygon_ids. apply NoDup_app. split; [|split].
  - apply (NoDup_fmap_2_strong _); [|apply NoDup_seq].
    intros i j _ _ Heq. apply decimal_inj.
    now injection Heq.
  - intros s Hs Helev.
    apply list_elem_of_In, in_map_iff in Hs as (i & <- & _).
    apply list_elem_of_In, in_map_iff in Helev as (j & Hj & _).
    discriminate.
  - apply (NoDup_fmap_2_strong _); [|apply NoDup_seq].
    intros i j _ _ Heq. apply decimal_inj.
    now injection Heq.
Qed.

(** X6.  [createPolygonData] yields every feature twice, first on the surface
    layer and then on the elevated layer, in the order of the collection,
    and no two polygons share an identifier. *)
Theorem polygon_data_layers (countries : list feature) :
  map feat (createPolygonData countries) = countries ++ countries
  /\ map layer (createPolygonData countries)
     = repeat "surface" (length countries)
       ++ repeat "elevated" (length countries)
  /\ NoDup (map pid (createPolygonData countries)).
Proof.
  split; [|split].
  - unfold createPolygonData. rewrite map_app, !map_map.
    rewrite <- (map_id countries) at 3 4.
    f_equal; apply map_indexed_snd; reflexivity.
  - unfold createPolygonData. rewrite map_app, !map_map.
    rewrite <- !(map_constant _ countries).
    f_equal; apply map_indexed_snd; reflexivity.
  - apply polygon_ids_distinct.
Qed.

Lemma polygon_identity (countries : list feature) (p h : polygonDatum) :
  In p (createPolygonData countries) ->
  In h (createPolygonData countries) ->
  pid p = pid h -> p = h.
Proof.
  intros Hp Hh Heq.
  pose proof (polygon_ids_distinct countries) as Hnd.
  revert Hp Hh Hnd. generalize (createPolygonData countries) as l.
  induction l as [|x l IH]; intros Hp Hh Hnd; [contradiction|].
  simpl in Hnd. apply NoDup_cons in Hnd as [Hx Hnd].
  destruct Hp as [->|Hp], Hh as [->|Hh].
  - reflexivity.
  - exfalso. apply Hx, list_elem_of_In. rewrite Heq. now apply in_map.
  - exfalso. apply Hx, list_elem_of_In. rewrite <- Heq. now apply in_map.
  - now apply IH.
Qed.

(** The three outcomes of the hover effect for polygons of the polygon
    data; the delta 0.01 written for a hovered polygon without a region match
    is never applied, because a polygon always matches its own region key and
    the key is always truthy. *)
Lemma hoverDelta_cases (useDataDrivenRegions : bool)
    (countries : list feature) (country hovered : polygonDatum) :
  In country (createPolygonData countries) ->
  In hovered (createPolygonData countries) ->
  (country = hovered ->
     hoverDelta useDataDrivenRegions (Some hovered) country = 0.05%Q)
  /\ (country <> hovered ->
      getCountryRegion useDataDrivenRegions (feat country)
      = getCountryRegion useDataDrivenRegions (feat hovered) ->
      hoverDelta useDataDrivenRegions (Some hovered) country = 0.02%Q)
  /\ (country <> hovered ->
      getCountryRegion useDataDrivenRegions (feat country)
      <> getCountryRegion useDataDrivenRegions (feat hovered) ->
      hoverDelta useDataDrivenRegions (Some hovered) country = 0%Q).
Proof.
  intros Hc Hh. unfold hoverDelta.
  rewrite getCountryRegion_truthy. cbn [andb].
  split; [|split].
  - intros ->. rewrite String.eqb_refl.
    now rewrite (proj2 (regionEqb_eq _ _) eq_refl).
  - intros Hdiff Hsame. rewrite (proj2 (regionEqb_eq _ _) Hsame).
    destruct (String.eqb (pid country) (pid hovered)) eqn:Hpid; [|reflexivity].
    apply String.eqb_eq in Hpid. exfalso. apply Hdiff.
    now apply (polygon_identity countries).
  - intros Hdiff Hsame.
    destruct (regionEqb (getCountryRegion useDataDrivenRegions (feat country))
                (getCountryRegion useDataDrivenRegions (feat hovered)))
      eqn:Heq; [apply regionEqb_eq in Heq; contradiction|].
    destruct (String.eqb (pid country) (pid hovered)) eqn:Hpid; [|reflexivity].
    apply String.eqb_eq in Hpid. exfalso. apply Hdiff.
    now apply (polygon_identity countries).
Qed.

(** X7.  What hovering does to the height that [getPolygonHeight] returns,
    for polygons of the polygon data and a height [h0] returned with nothing
    hovered: a polygon of the surface layer keeps its height 0; on the
    elevated layer the hovered polygon itself rises by 0.05, every other
    polygon with the region key of the hovered polygon by 0.02, and all
    others keep their height.  The rise of 0.01 written for a hovered polygon
    without a region match never happens. *)
Theorem hover_delta_cases (M : Math) (catalogue : gmap string Dataset.t)
    (useDataDrivenRegions : bool) (countries : list feature)
    (heightFilter : string) (stats : HeightStatistics)
    (country hovered : polygonDatum) (h0 : Q) :
  In country (createPolygonData countries) ->
  In hovered (createPolygonData countries) ->
  getPolygonHeight M catalogue useDataDrivenRegions None heightFilter stats
                   country = JS.Normal (Some h0) ->
  let sameRegion :=
    getCountryRegion useDataDrivenRegions (feat country)
    = getCountryRegion useDataDrivenRegions (feat hovered) in
  exists h,
    getPolygonHeight M catalogue useDataDrivenRegions (Some hovered)
                     heightFilter stats country = JS.Normal (Some h)
    /\ (layer country = "surface" -> h = 0%Q /\ h0 = 0%Q)
    /\ (layer country <> "surface" ->
        (country = hovered -> h == h0 + 0.05)%Q
        /\ (country <> hovered -> sameRegion -> (h == h0 + 0.02)%Q)
        /\ (country <> hovered -> ~ sameRegion -> (h == h0)%Q)).
Proof.
  intros Hc Hh Hplain sameRegion. unfold getPolygonHeight in *.
  destruct (String.eqb (layer country) "surface") eqn:Hlayer.
  - injection Hplain as <-. exists 0%Q.
    split; [reflexivity|]. split; [auto|].
    apply String.eqb_eq in Hlayer. intros Hne. contradiction.
  - apply bind_Normal in Hplain as (calculated & Hcalc & Hplain).
    rewrite Hcalc. cbn [JS.bind].
    destruct calculated as [c|]; [|discriminate].
    cbn [mbind option_bind] in *. injection Hplain as <-.
    change (hoverDelta useDataDrivenRegions None country) with 0%Q.
    eexists. split; [reflexivity|]. split.
    + intros Hsurface. rewrite Hsurface in Hlayer. discriminate.
    + intros _.
      destruct (hoverDelta_cases useDataDrivenRegions countries country hovered
                  Hc Hh) as (Hself & Hregion & Hother).
      split; [|split].
      * intros Heq. rewrite (Hself Heq). ring.
      * intros Hdiff Hsame. rewrite (Hregion Hdiff Hsame). ring.
      * intros Hdiff Hsame. rewrite (Hother Hdiff Hsame). ring.
Qed.

Lemma hover_delta_cases_witness :
  let countries := [spain; italy] in
  let stats := computeStatistics (guarded gdpDataset) countries in
  let h0 := (30000000 # 6000000000)%Q in
  let sameRegion :=
    getCountryRegion true (feat (elevated 0 spain))
    = getCountryRegion true (feat (elevated 1 italy)) in
  exists h,
    getPolygonHeight sampleMath offlineCatalogue true
      (Some (elevated 1 italy)) "gdp" stats (elevated 0 spain)
      = JS.Normal (Some h)
    /\ (layer (elevated 0 spain) = "surface" -> h = 0%Q /\ h0 = 0%Q)
    /\ (layer (elevated 0 spain) <> "surface" ->
        (elevated 0 spain = elevated 1 italy -> h == h0 + 0.05)%Q
        /\ (elevated 0 spain <> elevated 1 italy -> sameRegion ->
            (h == h0 + 0.02)%Q)
        /\ (elevated 0 spain <> elevated 1 italy -> ~ sameRegion ->
            (h == h0)%Q)).
Proof.
  apply (hover_delta_cases sampleMath offlineCatalogue true [spain; italy]
           "gdp" (computeStatistics (guarded gdpDataset) [spain; italy])
           (elevated 0 spain) (elevated 1 italy) (30000000 # 6000000000)%Q).
  - vm_compute. tauto.
  - vm_compute. tauto.
  - vm_compute. reflexivity.
Defined.

(** Hovering Italy raises Spain, which has the same derived region key, by
    0.02, and Italy itself by 0.05. *)
Example hover_same_region :
  getCountryRegion true spain = getCountryRegion true italy
  /\ hoverDelta true (Some (elevated 1 italy)) (elevated 0 spain) = 0.02%Q
  /\ hoverDelta true (Some (elevated 1 italy)) (elevated 1 italy) = 0.05%Q.
Proof. repeat split; vm_compute; reflexivity. Qed.

(** X8.  Height and side colour react to the same hover conditions: an
    elevated polygon rises on hover exactly when its side colour differs
    from the colour it has with nothing hovered. *)
Theorem hover_raises_what_it_highlights (useDataDrivenRegions : bool)
    (hoverD : option polygonDatum) (heightFilter : string)
    (country : polygonDatum) :
  layer country <> "surface" ->
  ((0 < hoverDelta useDataDrivenRegions hoverD country)%Q
   <-> getSideColor useDataDrivenRegions hoverD heightFilter country
       <> getSideColor useDataDrivenRegions None heightFilter country).
Proof.
  intros Hlayer. apply String.eqb_neq in Hlayer.
  unfold getSideColor, hoverDelta, isHovered, inHoveredRegion.
  rewrite Hlayer.
  destruct hoverD as [hovered|].
  - destruct (negb (String.eqb heightFilter "none"));
      destruct (String.eqb (pid country) (pid hovered));
      destruct (truthyRegion
                  (getCountryRegion useDataDrivenRegions (feat hovered))
                && regionEqb
                     (getCountryRegion useDataDrivenRegions (feat country))
                     (getCountryRegion useDataDrivenRegions (feat hovered)));
      split; intros H; try discriminate; try reflexivity;
      try (exfalso; apply H; reflexivity);
      try (exfalso; revert H; apply Qlt_irrefl).
  - destruct (negb (String.eqb heightFilter "none"));
      split; intros H;
      [exfalso; revert H; apply Qlt_irrefl | exfalso; apply H; reflexivity
      |exfalso; revert H; apply Qlt_irrefl | exfalso; apply H; reflexivity].
Qed.

Lemma hover_raises_what_it_highlights_witness :
  (0 < hoverDelta false (Some (elevated 1 spain)) (elevated 0 france))%Q
  <-> getSideColor false (Some (elevated 1 spain)) "gdp" (elevated 0 france)
      <> getSideColor false None "gdp" (elevated 0 france).
Proof.
  apply (hover_raises_what_it_highlights false (Some (elevated 1 spain)) "gdp"
           (elevated 0 france)).
  vm_compute. discriminate.
Defined.

(* ================================================================== *)
(** * The country selection game                                       *)
(* ================================================================== *)

Lemma truthyStr_Some (v : option string) (s : string) :
  JS.truthyStr v = Some s -> v = Some s /\ s <> "".
Proof.
  destruct v as [[|a r]|]; simpl; try discriminate.
  intros [= <-]. split; [reflexivity | discriminate].
Qed.

Lemma includes_some (codes : list string) (c : string) :
  includesCode codes (Some c) = true <-> In c codes.
Proof.
  rewrite includesCode_In. split.
  - intros (x & [= <-] & Hx). exact Hx.
  - intros Hc. eauto.
Qed.

Lemma click_keeps_gameOk (g : game) (country : polygonDatum) :
  gameOk g ->
  exists g', handleCountryClick g country = JS.Normal g' /\ gameOk g'.
Proof.
  intros Hok. unfold handleCountryClick.
  destruct (negb (String.eqb (gamePhase g) "country_selection")
            || negb (String.eqb (layer country) "elevated")) eqn:Hguard;
    [eauto|].
  destruct (JS.truthyStr (getCountryCode (feat country))) as [code|] eqn:Hcode;
    [|eauto].
  destruct (String.eqb code "-99") eqn:Hsentinel; [eauto|].
  destruct (existsb (fun entry => includesCode (snd entry) (Some code))
                    (playerCountries g)) eqn:Hselected; [eauto|].
  apply orb_false_iff in Hguard as [Hphase _].
  apply negb_false_iff in Hphase.
  apply truthyStr_Some in Hcode as [_ Hne].
  apply String.eqb_neq in Hsentinel.
  destruct Hok as (p1 & p2 & Hplayers & Hnd & Hperm & Hturn & H1 & H2 & Hall).
  rewrite Hplayers in Hselected. simpl in Hselected.
  rewrite orb_false_r in Hselected.
  apply orb_false_iff in Hselected as [Hp1 Hp2].
  assert (Hnot1 : ~ In code p1)
    by (intros Hin; apply includes_some in Hin; simpl in Hin; congruence).
  assert (Hnot2 : ~ In code p2)
    by (intros Hin; apply includes_some in Hin; simpl in Hin; congruence).
  assert (Hfresh : code ∉ selectedCountries g).
  { intros Hin. apply list_elem_of_In in Hin.
    apply (Permutation_in _ Hperm), in_app_or in Hin. tauto. }
  unfold handleCountrySelect. rewrite Hplayers, Hphase, Hturn.
  set (n := length (selectedCountries g)) in *.
  pose proof (Nat.div_mod_eq n 2) as Hn0.
  pose proof (Nat.div_mod_eq (n + 1) 2) as Hn1.
  pose proof (Nat.div_mod_eq (n + 1 + 1) 2) as Hn2.
  pose proof (Nat.mod_upper_bound n 2) as Hb0.
  pose proof (Nat.mod_upper_bound (n + 1) 2) as Hb1.
  pose proof (Nat.mod_upper_bound (n + 1 + 1) 2) as Hb2.
  assert (Hmod : (n mod 2 = 0 \/ n mod 2 = 1)%nat) by lia.
  assert (Hfresh' : NoDup (selectedCountries g ++ [code])).
  { apply NoDup_app. split; [exact Hnd|]. split; [|apply NoDup_singleton].
    intros x Hx Hx'. apply list_elem_of_singleton in Hx'. now subst x. }
  assert (Hall' : Forall (fun c => c <> "" /\ c <> "-99")
                         (selectedCountries g ++ [code])).
  { apply Forall_app. split; [exact Hall|]. constructor; [|constructor].
    split; assumption. }
  assert (Hlen : length (selectedCountries g ++ [code]) = (n + 1)%nat)
    by (rewrite length_app; reflexivity).
  destruct Hmod as [Hmod|Hmod]; rewrite Hmod.
  - change (appendCountry [("player1", p1); ("player2", p2)]
              ("player" +:+ JS.decimal (0 + 1)) code)
      with (JS.Normal [("player1", p1 ++ [code]); ("player2", p2)]).
    cbn [JS.bind]. eexists. split; [reflexivity|].
    exists (p1 ++ [code]), p2.
    cbn [selectedCountries playerCountries currentPlayer].
    rewrite Hlen, length_app. cbn [length].
    change ((0 + 1) mod 2)%nat with 1%nat.
    repeat split; try assumption; try lia.
    rewrite Hperm. rewrite <- !app_assoc.
    apply Permutation_app_head, Permutation_app_comm.
  - change (appendCountry [("player1", p1); ("player2", p2)]
              ("player" +:+ JS.decimal (1 + 1)) code)
      with (JS.Normal [("player1", p1); ("player2", p2 ++ [code])]).
    cbn [JS.bind]. eexists. split; [reflexivity|].
    exists p1, (p2 ++ [code]).
    cbn [selectedCountries playerCountries currentPlayer].
    rewrite Hlen, length_app. cbn [length].
    change ((1 + 1) mod 2)%nat with 0%nat.
    repeat split; try assumption; try lia.
    rewrite Hperm. now rewrite app_assoc.
Qed.

Lemma initialGame_ok : gameOk initialGame.
Proof.
  exists [], []. simpl. repeat split; try reflexivity; constructor.
Qed.

Lemma step_keeps_gameOk (g : game) (e : gameEvent) :
  gameOk g -> exists g', gameStep g e = JS.Normal g' /\ gameOk g'.
Proof.
  intros Hok. destruct e as [country|phase|]; simpl.
  - now apply click_keeps_gameOk.
  - eexists. split; [reflexivity|]. exact Hok.
  - eexists. split; [reflexivity|]. exact initialGame_ok.
Qed.

Lemma play_gameOk (events : list gameEvent) :
  exists g, play events = JS.Normal g /\ gameOk g.
Proof.
  unfold play. apply (forEach_total gameOk gameStep events).
  - intros g e _. apply step_keeps_gameOk.
  - exact initialGame_ok.
Qed.

Lemma gameOk_lists (g : game) :
  gameOk g ->
  playerCountries g
  = [("player1", countriesOf g "player1"); ("player2", countriesOf g "player2")]
  /\ NoDup (selectedCountries g)
  /\ Permutation (selectedCountries g)
                 (countriesOf g "player1" ++ countriesOf g "player2")
  /\ currentPlayer g = (length (selectedCountries g) mod 2)%nat
  /\ length (countriesOf g "player1")
     = ((length (selectedCountries g) + 1) / 2)%nat
  /\ length (countriesOf g "player2") = (length (selectedCountries g) / 2)%nat
  /\ Forall (fun code => code <> "" /\ code <> "-99") (selectedCountries g).
Proof.
  intros (p1 & p2 & Hplayers & Hrest). unfold countriesOf.
  rewrite Hplayers. exact (conj eq_refl Hrest).
Qed.

(** X9.  The game never fails and never lets a country be claimed twice:
    after any sequence of clicks, phase changes and resets, the selected
    codes are pairwise distinct, they are exactly the codes of the two
    players' lists taken together (so the two lists are disjoint), and none
    is empty or the sentinel "-99". *)
Theorem no_country_claimed_twice (events : list gameEvent) :
  exists g,
    play events = JS.Normal g
    /\ NoDup (selectedCountries g)
    /\ Permutation (selectedCountries g)
                   (countriesOf g "player1" ++ countriesOf g "player2")
    /\ NoDup (countriesOf g "player1" ++ countriesOf g "player2")
    /\ Forall (fun code => code <> "" /\ code <> "-99") (selectedCountries g).
Proof.
  destruct (play_gameOk events) as (g & Hplay & Hok).
  apply gameOk_lists in Hok as (_ & Hnd & Hperm & _ & _ & _ & Hall).
  exists g. repeat split; try assumption.
  now rewrite <- Hperm.
Qed.

(** X10.  Turns alternate: in every reachable state the index of the
    current player is the number of claimed countries modulo 2, the first
    player holds the claims made at even turns and the second those made at
    odd turns, so their counts are the rounded-up and rounded-down halves. *)
Theorem turns_alternate (events : list gameEvent) (g : game) :
  play events = JS.Normal g ->
  let n := length (selectedCountries g) in
  currentPlayer g = (n mod 2)%nat
  /\ length (countriesOf g "player1") = ((n + 1) / 2)%nat
  /\ length (countriesOf g "player2") = (n / 2)%nat.
Proof.
  intros Hplay n.
  destruct (play_gameOk events) as (g' & Hplay' & Hok).
  rewrite Hplay in Hplay'. injection Hplay' as <-.
  apply gameOk_lists in Hok as (_ & _ & _ & Hturn & H1 & H2 & _).
  auto.
Qed.

Lemma turns_alternate_witness :
  let g :=
    {| selectedCountries := ["FR"; "ES"; "IT"];
       gamePhase := "country_selection";
       currentPlayer := 1;
       playerCountries := [("player1", ["FR"; "IT"]); ("player2", ["ES"])] |} in
  let n := length (selectedCountries g) in
  currentPlayer g = (n mod 2)%nat
  /\ length (countriesOf g "player1") = ((n + 1) / 2)%nat
  /\ length (countriesOf g "player2") = (n / 2)%nat.
Proof.
  apply (turns_alternate
           [ClickPolygon (elevated 0 france);
            ClickPolygon (elevated 1 spain);
            ClickPolygon (elevated 1 spain);
            SetPhase "bidding";
            ClickPolygon (elevated 2 italy);
            SetPhase "country_selection";
            ClickPolygon {| feat := italy; layer := "surface";
                            pid := "surface_2" |};
            ClickPolygon (elevated 2 italy)]).
  vm_compute. reflexivity.
Defined.

(** X11.  A claimed country shows its owner's colour whatever is hovered
    and whatever the height filter is: cyan for a code in the first player's
    list, magenta for a code in the second player's list. *)
Theorem claimed_country_colour (events : list gameEvent) (g : game)
    (useDataDrivenRegions : bool) (hoverD : option polygonDatum)
    (heightFilter : string) (country : polygonDatum) (code : string) :
  play events = JS.Normal g ->
  layer country <> "surface" ->
  getCountryCode (feat country) = Some code ->
  (In code (countriesOf g "player1") ->
     getCountryColor useDataDrivenRegions hoverD heightFilter
                     (playerCountries g) teamColors country = "#00FFFF")
  /\ (In code (countriesOf g "player2") ->
        getCountryColor useDataDrivenRegions hoverD heightFilter
                        (playerCountries g) teamColors country = "#FF00FF").
Proof.
  intros Hplay Hlayer Hcode.
  destruct (play_gameOk events) as (g' & Hplay' & Hok).
  rewrite Hplay in Hplay'. injection Hplay' as <-.
  apply gameOk_lists in Hok as (Hplayers & Hnd & Hperm & _).
  rewrite Hperm in Hnd. apply NoDup_app in Hnd as (_ & Hdisj & _).
  apply String.eqb_neq in Hlayer.
  unfold getCountryColor. rewrite Hlayer, Hcode, Hplayers.
  cbn [playerColor]. split; intros Hin.
  - apply includes_some in Hin as ->. reflexivity.
  - destruct (includesCode (countriesOf g "player1") (Some code)) eqn:H1.
    + apply includes_some in H1. exfalso.
      apply (Hdisj code); now apply list_elem_of_In.
    + apply includes_some in Hin as ->. reflexivity.
Qed.

Lemma claimed_country_colour_witness :
  let g :=
    {| selectedCountries := ["FR"];
       gamePhase := "country_selection";
       currentPlayer := 1;
       playerCountries := [("player1", ["FR"]); ("player2", [])] |} in
  (In "FR" (countriesOf g "player1") ->
     getCountryColor false (Some (elevated 1 spain)) "gdp"
                     (playerCountries g) teamColors (elevated 0 france)
     = "#00FFFF")
  /\ (In "FR" (countriesOf g "player2") ->
        getCountryColor false (Some (elevated 1 spain)) "gdp"
                        (playerCountries g) teamColors (elevated 0 france)
        = "#FF00FF").
Proof.
  apply (claimed_country_colour [ClickPolygon (elevated 0 france)]).
  - vm_compute. reflexivity.
  - vm_compute. discriminate.
  - vm_compute. reflexivity.
Defined.

(* ================================================================== *)
(** * Rings and shared points                                          *)
(* ================================================================== *)

Lemma forEach_prefix {A S} (P : list A -> S -> Prop)
    (f : S -> A -> JS.completion S) :
  (forall d a t t', P d t -> f t a = JS.Normal t' -> P (d ++ [a]) t') ->
  forall todo done s s',
    P done s -> JS.forEach f todo s = JS.Normal s' -> P (done ++ todo) s'.
Proof.
  intros Hstep. induction todo as [|a todo IH]; intros done s s' Hs Hrun.
  - simpl in Hrun. injection Hrun as <-. now rewrite app_nil_r.
  - simpl in Hrun. apply bind_Normal in Hrun as (s1 & Hf & Hrest).
    replace (done ++ a :: todo) with ((done ++ [a]) ++ todo)
      by (now rewrite <- app_assoc).
    apply (IH _ s1); [|exact Hrest]. now apply (Hstep done a s).
Qed.

(** X12.  For a multi-part geometry whose parts all have an outer ring,
    [extractCoordinates] returns the outer ring of the first part whose outer
    ring has the greatest number of vertices: every earlier part has a
    strictly shorter outer ring and no later part has a longer one. *)
Theorem extractCoordinates_largest_part (coordinates : list (list ring)) :
  coordinates <> [] ->
  Forall (fun polygon => polygon <> []) coordinates ->
  exists outer holes before after,
    extractCoordinates (MultiPolygon coordinates) = JS.Normal (Some outer)
    /\ coordinates = before ++ (outer :: holes) :: after
    /\ Forall (fun polygon => (outerSize polygon < length outer)%nat) before
    /\ Forall (fun polygon => (outerSize polygon <= length outer)%nat) after.
Proof.
  intros Hne Hall.
  destruct coordinates as [|first rest]; [contradiction|]. clear Hne.
  apply Forall_cons_iff in Hall as [Hfirst Hrest].
  destruct first as [|outer0 holes0]; [contradiction|].
  cbn [extractCoordinates outerLength JS.bind JS.forEach].
  rewrite Nat.ltb_irrefl. cbn [JS.bind].
  set (step := fun '((largestPolygon, maxLength) : list ring * nat)
                   (polygon : list ring) =>
                 JS.bind (outerLength polygon)
                   (fun len =>
                      JS.Normal (if (maxLength <? len)%nat
                                 then (polygon, len)
                                 else (largestPolygon, maxLength)))).
  set (P := fun (done : list (list ring)) (st : list ring * nat) =>
              exists outer holes before after,
                st = (outer :: holes, length outer)
                /\ done = before ++ (outer :: holes) :: after
                /\ Forall (fun polygon =>
                             (outerSize polygon < length outer)%nat) before
                /\ Forall (fun polygon =>
                             (outerSize polygon <= length outer)%nat) after).
  assert (Hstep : forall d a t t',
             P d t -> step t a = JS.Normal t' -> P (d ++ [a]) t').
  { intros d a [largest maxLength] t'
           (outer & holes & before & after & [= -> ->] & -> & Hb & Ha) Hrun.
    unfold step in Hrun. destruct a as [|o hs]; [discriminate|].
    cbn [outerLength JS.bind] in Hrun. injection Hrun as <-.
    destruct (length outer <? length o)%nat eqn:Hlt.
    - apply Nat.ltb_lt in Hlt.
      exists o, hs, (before ++ (outer :: holes) :: after), [].
      split; [reflexivity|]. split; [reflexivity|]. split; [|constructor].
      apply Forall_app. split.
      + eapply List.Forall_impl; [|exact Hb]. simpl. intros p Hp. lia.
      + constructor; [unfold outerSize; simpl; lia|].
        eapply List.Forall_impl; [|exact Ha]. simpl. intros p Hp. lia.
    - apply Nat.ltb_ge in Hlt.
      exists outer, holes, before, (after ++ [o :: hs]).
      split; [reflexivity|]. split; [now rewrite <- app_assoc|].
      split; [exact Hb|]. apply Forall_app. split; [exact Ha|].
      constructor; [exact Hlt|constructor]. }
  assert (Htotal : exists st,
             JS.forEach step rest (outer0 :: holes0, length outer0)
             = JS.Normal st).
  { destruct (forEach_total (fun _ => True) step rest)
      with (s := (outer0 :: holes0, length outer0)) as (st & Hst & _);
      [|exact I|eauto].
    intros [largest maxLength] polygon Hin _.
    rewrite List.Forall_forall in Hrest. specialize (Hrest polygon Hin).
    destruct polygon as [|o hs]; [contradiction|]. simpl. eauto. }
  destruct Htotal as (st & Hrun).
  assert (Hinit : P [outer0 :: holes0] (outer0 :: holes0, length outer0)).
  { exists outer0, holes0, [], []. repeat split; constructor. }
  pose proof (forEach_prefix P step Hstep rest [outer0 :: holes0] _ st
                Hinit Hrun)
    as (outer & holes & before & after & -> & Hsplit & Hb & Ha).
  exists outer, holes, before, after. split; [|repeat split; assumption].
  change (JS.bind (JS.forEach step rest (outer0 :: holes0, length outer0))
                  (fun largest => JS.Normal (head (fst largest)))
          = JS.Normal (Some outer)).
  rewrite Hrun. reflexivity.
Qed.

Lemma extractCoordinates_largest_part_witness :
  exists outer holes before after,
    extractCoordinates archipelago = JS.Normal (Some outer)
    /\ [ [[(0, 0); (1, 0); (0, 0)]];
         [[(5, 5); (6, 5); (6, 6); (5, 6); (5, 5)];
          [(5.2, 5.2); (5.4, 5.2); (5.2, 5.2)]];
         [[(8, 8); (9, 8); (9, 9); (8, 9); (8, 8)]] ]%Q
       = before ++ (outer :: holes) :: after
    /\ Forall (fun polygon => (outerSize polygon < length outer)%nat) before
    /\ Forall (fun polygon => (outerSize polygon <= length outer)%nat) after.
Proof.
  apply extractCoordinates_largest_part.
  - discriminate.
  - repeat constructor; discriminate.
Defined.

Example archipelago_ring :
  extractCoordinates archipelago
  = JS.Normal (Some [(5, 5); (6, 5); (6, 6); (5, 6); (5, 5)]%Q).
Proof. vm_compute. reflexivity. Qed.







Lemma forEach_constant {A S} (arr : list A) (s : S) :
  JS.forEach (fun st _ => JS.Normal st) arr s = JS.Normal s.
Proof. induction arr as [|a arr IH]; simpl; [reflexivity | exact IH]. Qed.

(** X14.  A feature whose geometry is neither a polygon nor a multi-polygon
    is read as an empty ring and yields no segment: paired with any feature
    of well-formed geometry, on either side, it leaves the list of
    boundaries as it was. *)
Theorem unsupported_geometry_no_segment (M : Math)
    (kind region1Name region2Name : string)
    (boundaries : list BoundarySegment) (country1 country2 : feature) :
  geom country1 = OtherGeometry \/ geom country2 = OtherGeometry ->
  wellFormed (geom country1) -> wellFormed (geom country2) ->
  pushBoundary M kind region1Name region2Name boundaries country1 country2
  = JS.Normal boundaries.
Proof.
  intros Hother H1 H2. unfold pushBoundary, findSharedBoundary, sharedPoints.
  destruct Hother as [Hg|Hg].
  - rewrite Hg. destruct (extractCoordinates_total _ H2) as (ring2 & ->).
    reflexivity.
  - destruct (extractCoordinates_total _ H1) as (ring1 & ->).
    rewrite Hg. cbn [extractCoordinates JS.bind indexed length seq combine
                     fold_left].
    rewrite forEach_constant. reflexivity.
Qed.

Lemma unsupported_geometry_no_segment_witness :
  pushBoundary sampleMath "manual_boundary" "west_europe" "south_europe"
               [] france pointFeature
  = JS.Normal [].
Proof.
  apply (unsupported_geometry_no_segment sampleMath "manual_boundary"
           "west_europe" "south_europe" [] france pointFeature).
  - right. reflexivity.
  - discriminate.
  - exact I.
Defined.

Lemma closer_stable (M : Math) (lastPoint : point) (m : Q)
    (items : list (nat * point)) :
  forall index,
    (forall item, In item items ->
                  (m <= distance M lastPoint (snd item))%Q) ->
    fold_left (closer M lastPoint) items (index, Some m) = (index, Some m).
Proof.
  induction items as [|item items IH]; intros index Hall; [reflexivity|].
  cbn [fold_left]. unfold closer at 2. cbn [fst snd].
  rewrite (proj2 (ltb_ge _ _) (Hall item (or_introl eq_refl))).
  apply IH. intros it Hit. apply Hall. now right.
Qed.

Lemma closest_head (M : Math) (lastPoint p : point) (rest : list point) :
  (forall r, In r (p :: rest) ->
             (distance M lastPoint p <= distance M lastPoint r)%Q) ->
  closest M lastPoint (p :: rest) = 0%nat.
Proof.
  intros Hleast. unfold closest, indexed.
  cbn [length seq combine fold_left]. unfold closer at 2. cbn [fst snd].
  rewrite closer_stable; [reflexivity|].
  intros [i r] Hin. apply in_combine_r in Hin. apply Hleast. now right.
Qed.

Lemma chainLoop_fixed (M : Math) (lastPoint : point) (tail : list point) :
  greedyFrom M lastPoint tail ->
  forall sorted,
    last sorted = Some lastPoint ->
    chainLoop M (length tail) sorted tail = sorted ++ tail.
Proof.
  induction 1 as [lastPoint | lastPoint p rest Hleast Hrest IH];
    intros sorted Hlast.
  - simpl. now rewrite app_nil_r.
  - cbn [length chainLoop]. rewrite Hlast, (closest_head M _ _ _ Hleast).
    cbn [lookup list_lookup delete list_delete].
    rewrite IH by apply last_snoc. now rewrite <- app_assoc.
Qed.

Lemma sortBoundaryPoints_shape (M : Math) (points : list point) :
  (length points <= 2)%nat /\ sortBoundaryPoints M points = points
  \/ exists first rest tail,
       points = first :: rest
       /\ sortBoundaryPoints M points = first :: tail
       /\ Permutation rest tail
       /\ greedyFrom M first tail.
Proof.
  unfold sortBoundaryPoints.
  destruct (length points <=? 2)%nat eqn:Hlen.
  - left. apply Nat.leb_le in Hlen. auto.
  - right. destruct points as [|first rest]; [discriminate|].
    destruct (chainLoop_greedy M (length rest) [first] first rest
                eq_refl eq_refl) as (tail & Hrun & Hperm & Hgreedy).
    exists first, rest, tail. auto.
Qed.

(** X15.  [sortBoundaryPoints] rearranges its input, whatever its length,
    and ordering an ordered chain again changes nothing. *)
Theorem sortBoundaryPoints_idempotent (M : Math) (points : list point) :
  Permutation points (sortBoundaryPoints M points)
  /\ sortBoundaryPoints M (sortBoundaryPoints M points)
     = sortBoundaryPoints M points.
Proof.
  destruct (sortBoundaryPoints_shape M points)
    as [[Hlen Hsame]|(first & rest & tail & -> & Hsort & Hperm & Hgreedy)].
  - rewrite Hsame. split; [reflexivity | exact Hsame].
  - rewrite Hsort. split; [now constructor|].
    unfold sortBoundaryPoints.
    destruct (length (first :: tail) <=? 2)%nat; [reflexivity|].
    now apply (chainLoop_fixed M first tail Hgreedy [first]).
Qed.






Lemma ascii_of_append (s1 s2 : string) :
  list_ascii_of_string (s1 +:+ s2)
  = list_ascii_of_string s1 ++ list_ascii_of_string s2.
Proof.
  induction s1 as [|c s1 IH]; [reflexivity|].
  simpl. f_equal. exact IH.
Qed.

(** The text after the last occurrence of a separator is determined by the
    whole text. *)
Lemma last_field_inj {A} (u : A) (d1 d2 : list A) :
  ~ In u d1 -> ~ In u d2 ->
  forall l1 l2, l1 ++ u :: d1 = l2 ++ u :: d2 -> d1 = d2.
Proof.
  intros H1 H2. induction l1 as [|x l1 IH]; intros [|y l2] Heq;
    simpl in Heq.
  - now injection Heq.
  - injection Heq as -> ->. destruct H1. apply in_elt.
  - injection Heq as -> <-. destruct H2. apply in_elt.
  - injection Heq as _ Heq. exact (IH l2 Heq).
Qed.

Lemma decimal_digits (n : nat) :
  ~ In "_"%char (list_ascii_of_string (JS.decimal n)).
Proof.
  unfold JS.decimal. induction (Nat.to_uint n) as [|d IH|d IH|d IH|d IH|d IH
    |d IH|d IH|d IH|d IH|d IH]; cbn [NilEmpty.string_of_uint
    list_ascii_of_string In]; try tauto;
    intros [Hc|Hin]; try discriminate; tauto.
Qed.

Lemma labelled_ids_differ (kind : string) (i j : nat)
    (seg1 seg2 : BoundarySegment) :
  labelledAt kind i seg1 -> labelledAt kind j seg2 ->
  id seg1 = id seg2 -> i = j.
Proof.
  intros (a1 & b1 & _ & Hid1 & _) (a2 & b2 & _ & Hid2 & _) Heq.
  apply decimal_inj.
  rewrite <- (string_of_list_ascii_of_string (JS.decimal i)),
          <- (string_of_list_ascii_of_string (JS.decimal j)).
  f_equal.
  rewrite Hid1, Hid2 in Heq.
  apply (f_equal list_ascii_of_string) in Heq.
  rewrite !ascii_of_append in Heq.
  change (list_ascii_of_string "_") with ["_"%char] in Heq.
  rewrite !app_assoc in Heq. rewrite <- !(app_assoc _ ["_"%char]) in Heq.
  cbn [app] in Heq.
  exact (last_field_inj "_"%char _ _ (decimal_digits i) (decimal_digits j)
           _ _ Heq).
Qed.

Lemma pushBoundary_labels (M : Math) (kind region1Name region2Name : string)
    (boundaries boundaries' : list BoundarySegment)
    (country1 country2 : feature) :
  (forall i seg, boundaries !! i = Some seg -> labelledAt kind i seg) ->
  pushBoundary M kind region1Name region2Name boundaries country1 country2
    = JS.Normal boundaries' ->
  forall i seg, boundaries' !! i = Some seg -> labelledAt kind i seg.
Proof.
  intros Hbs. unfold pushBoundary. intros Hrun.
  apply bind_Normal in Hrun as (coords1 & _ & Hrun).
  apply bind_Normal in Hrun as (coords2 & _ & Hrun).
  apply bind_Normal in Hrun as (shared & _ & Hrun).
  injection Hrun as <-.
  destruct (length shared) as [|[|n]]; [exact Hbs | exact Hbs|].
  intros i seg Hi. apply lookup_app_Some in Hi as [Hi|[Hge Hi]];
    [now apply Hbs|].
  apply list_lookup_singleton_Some in Hi as [Hzero <-].
  assert (i = length boundaries) as -> by lia.
  exists region1Name, region2Name. repeat split.
Qed.

Lemma betweenRegions_labels (M : Math) (kind region1Name region2Name : string)
    (region1Features region2Features : list feature)
    (boundaries boundaries' : list BoundarySegment) :
  (forall i seg, boundaries !! i = Some seg -> labelledAt kind i seg) ->
  betweenRegions M kind region1Name region2Name
                 region1Features region2Features boundaries
    = JS.Normal boundaries' ->
  forall i seg, boundaries' !! i = Some seg -> labelledAt kind i seg.
Proof.
  intros Hbs Hrun. unfold betweenRegions in Hrun.
  refine (forEach_invariant
            (fun bs => forall i seg, bs !! i = Some seg -> labelledAt kind i seg)
            _ region1Features _ boundaries boundaries' Hbs Hrun).
  intros bs1 country1 bs1' _ Hbs1 Hinner.
  refine (forEach_invariant
            (fun bs => forall i seg, bs !! i = Some seg -> labelledAt kind i seg)
            _ region2Features _ bs1 bs1' Hbs1 Hinner).
  intros bs2 country2 bs2' _ Hbs2 Hpush.
  exact (pushBoundary_labels M kind region1Name region2Name bs2 bs2'
           country1 country2 Hbs2 Hpush).
Qed.

Lemma labelled_NoDup (kind : string) (boundaries : list BoundarySegment) :
  (forall i seg, boundaries !! i = Some seg -> labelledAt kind i seg) ->
  NoDup (map id boundaries).
Proof.
  intros Hlab. apply NoDup_alt. intros i j x Hi Hj.
  rewrite list_lookup_fmap in Hi, Hj.
  destruct (boundaries !! i) as [seg1|] eqn:H1; [|discriminate].
  destruct (boundaries !! j) as [seg2|] eqn:H2; [|discriminate].
  simpl in Hi, Hj.
  apply (labelled_ids_differ kind i j seg1 seg2); auto. congruence.
Qed.

(** X17.  In either mode the segment at position [i] of the result carries
    the identifier "boundary_<region1>_<region2>_<i>" built from its own two
    region keys and its position, and the tag of the mode; hence no two
    segments of a result share an identifier. *)
Theorem segment_ids_distinct (M : Math) (useDataDrivenRegions : bool)
    (countries : list feature) (boundaries : list BoundarySegment) :
  extractBoundaries M useDataDrivenRegions countries = JS.Normal boundaries ->
  (forall i seg, boundaries !! i = Some seg ->
                 labelledAt (kindOf useDataDrivenRegions) i seg)
  /\ NoDup (map id boundaries).
Proof.
  intros Hrun.
  assert (Hlab : forall i seg, boundaries !! i = Some seg ->
                               labelledAt (kindOf useDataDrivenRegions) i seg).
  { destruct useDataDrivenRegions; simpl in Hrun; cbn [kindOf].
    - unfold createDataDrivenRegionBoundaries in Hrun.
      apply bind_Normal in Hrun as (dataRegions & Hmap & Hrun).
      apply dataDrivenRegions_table in Hmap as [Hnd _].
      revert Hrun.
      apply (forEachPair_invariant _
               (fun bs => forall i seg, bs !! i = Some seg ->
                            labelledAt "data_driven_boundary" i seg) _
               dataRegions (ordered_pairs_of_table dataRegions Hnd));
        [|intros i seg Hi; discriminate].
      intros bs [r1 c1] [r2 c2] bs' _ Hbs Hstep.
      exact (betweenRegions_labels M _ r1 r2 c1 c2 bs bs' Hbs Hstep).
    - unfold createManualRegionBoundaries in Hrun. revert Hrun.
      apply (forEachPair_invariant _
               (fun bs => forall i seg, bs !! i = Some seg ->
                            labelledAt "manual_boundary" i seg) _
               REGIONS (ordered_pairs_of_table REGIONS REGIONS_names_distinct));
        [|intros i seg Hi; discriminate].
      intros bs [r1 c1] [r2 c2] bs' _ Hbs Hstep.
      exact (betweenRegions_labels M _ r1 r2 _ _ bs bs' Hbs Hstep). }
  split; [exact Hlab | exact (labelled_NoDup _ _ Hlab)].
Qed.

Lemma segment_ids_distinct_witness :
  (forall i seg,
     returned (extractBoundaries sampleMath true [france; spain]) !! i
       = Some seg ->
     labelledAt (kindOf true) i seg)
  /\ NoDup (map id (returned (extractBoundaries sampleMath true
                                [france; spain]))).
Proof.
  apply (segment_ids_distinct sampleMath true [france; spain]).
  vm_compute. reflexivity.
Defined.

(* ================================================================== *)
(** * Statistics: order of the values and of the summary numbers       *)
(* ================================================================== *)

Lemma insertSorted_sorted (x : Q) (xs : list Q) :
  StronglySorted Qle xs -> StronglySorted Qle (JS.insertSorted x xs).
Proof.
  induction 1 as [|y ys Hs IH Hall]; simpl.
  - repeat constructor.
  - destruct (JS.ltb x y) eqn:Hlt.
    + apply ltb_lt in Hlt. constructor; [now constructor|].
      constructor; [lra|]. eapply List.Forall_impl; [|exact Hall].
      intros z Hz. simpl in Hz. lra.
    + apply ltb_ge in Hlt. constructor; [exact IH|].
      apply List.Forall_forall. intros z Hz.
      apply insertSorted_In in Hz as [->|Hz]; [exact Hlt|].
      exact (proj1 (List.Forall_forall _ _) Hall z Hz).
Qed.

Lemma sortAscending_sorted (xs : list Q) :
  StronglySorted Qle (JS.sortAscending xs).
Proof.
  induction xs as [|x xs IH]; simpl; [constructor|].
  now apply insertSorted_sorted.
Qed.

Lemma sorted_nth (xs : list Q) :
  StronglySorted Qle xs ->
  forall i j, (i <= j < length xs)%nat -> (nth i xs 0 <= nth j xs 0)%Q.
Proof.
  induction 1 as [|x xs Hs IH Hall]; intros i j [Hij Hj]; simpl in Hj;
    [lia|].
  destruct j as [|j].
  - assert (i = 0)%nat as -> by lia. simpl. lra.
  - destruct i as [|i]; simpl.
    + apply (proj1 (List.Forall_forall _ _) Hall). apply nth_In. lia.
    + apply IH. lia.
Qed.

Lemma minOf_le (xs : list Q) : forall x, (JS.minOf x xs <= x)%Q.
Proof.
  unfold JS.minOf. induction xs as [|y ys IH]; intros x; simpl; [lra|].
  eapply Qle_trans; [apply IH | apply Q.le_min_l].
Qed.

Lemma minOf_least (xs : list Q) :
  forall x v, In v (x :: xs) -> (JS.minOf x xs <= v)%Q.
Proof.
  unfold JS.minOf. induction xs as [|y ys IH]; intros x v Hv; simpl.
  - destruct Hv as [<-|[]]. lra.
  - destruct Hv as [<-|[<-|Hv]].
    + eapply Qle_trans; [apply (minOf_le ys) | apply Q.le_min_l].
    + eapply Qle_trans; [apply (minOf_le ys) | apply Q.le_min_r].
    + apply IH. now right.
Qed.

Lemma minOf_In (xs : list Q) : forall x, In (JS.minOf x xs) (x :: xs).
Proof.
  unfold JS.minOf. induction xs as [|y ys IH]; intros x; [now left|].
  cbn [fold_left].
  destruct (IH (Qmin x y)) as [Heq|Hin]; [|right; now right].
  rewrite <- Heq. unfold Qmin, GenericMinMax.gmin.
  destruct (x ?= y)%Q; simpl; auto.
Qed.

Lemma median_between (lo hi first : Q) (rest : list Q) :
  (forall v, In v (first :: rest) -> (lo <= v <= hi)%Q) ->
  (lo <= Stats.median first rest <= hi)%Q.
Proof.
  intros Hall. unfold Stats.median.
  set (values := first :: rest) in *.
  assert (Hpos : (0 < length values)%nat) by (simpl; lia).
  assert (Hhalf : (length values / 2 < length values)%nat)
    by (apply Nat.div_lt; lia).
  assert (Hin : forall i, (i < length values)%nat ->
                          (lo <= nth i values 0 <= hi)%Q)
    by (intros i Hi; apply Hall, nth_In, Hi).
  pose proof (Hin _ Hhalf) as Hupper.
  assert (Hlower : (lo <= nth (length values / 2 - 1) values 0 <= hi)%Q)
    by (apply Hin; lia).
  destruct (length values mod 2 =? 0)%nat; [|exact Hupper].
  set (a := nth (length values / 2 - 1) values 0%Q) in *.
  set (b := nth (length values / 2) values 0%Q) in *.
  split.
  - apply Qle_shift_div_l; lra.
  - apply Qle_shift_div_r; lra.
Qed.

Lemma computeStatistics_result
    (heightGetter : feature -> JS.completion JS.number)
    (features : list feature) (first : Q) (rest : list Q) :
  positiveValues heightGetter features = first :: rest ->
  computeStatistics heightGetter features = Stats.result first rest.
Proof. unfold computeStatistics. now intros ->. Qed.

Lemma positiveValues_sorted
    (heightGetter : feature -> JS.completion JS.number)
    (features : list feature) :
  StronglySorted Qle (positiveValues heightGetter features).
Proof. apply sortAscending_sorted. Qed.

Lemma values_between_extremes (first : Q) (rest : list Q) (v : Q) :
  In v (first :: rest) ->
  (Stats.min first rest <= v <= Stats.max first rest)%Q.
Proof.
  intros Hv. split; [now apply minOf_least | now apply maxOf_greatest].
Qed.

(** X18.  The statistics of a non-empty set of positive values are
    consistent: the values are held in ascending order, the minimum is
    positive, every value lies between the minimum and the maximum, the
    minimum and the maximum are values themselves, and the median lies
    between them. *)
Theorem statistics_between_extremes
    (heightGetter : feature -> JS.completion JS.number)
    (features : list feature) (first : Q) (rest : list Q) :
  positiveValues heightGetter features = first :: rest ->
  let stats := computeStatistics heightGetter features in
  StronglySorted Qle (values stats)
  /\ (0 < min stats)%Q
  /\ (forall v, In v (values stats) -> (min stats <= v <= max stats)%Q)
  /\ In (min stats) (values stats)
  /\ In (max stats) (values stats)
  /\ (min stats <= median stats <= max stats)%Q.
Proof.
  intros Hvalues stats. subst stats.
  rewrite (computeStatistics_result _ _ _ _ Hvalues).
  unfold Stats.result. cbn [values min max mean median].
  pose proof (positiveValues_sorted heightGetter features) as Hsorted.
  rewrite Hvalues in Hsorted.
  split; [exact Hsorted|]. split.
  - apply (positiveValues_positive heightGetter features).
    rewrite Hvalues. apply minOf_In.
  - split; [apply values_between_extremes|].
    split; [apply minOf_In|]. split; [apply maxOf_In|].
    apply median_between, values_between_extremes.
Qed.

Lemma statistics_between_extremes_witness :
  let stats := computeStatistics (guarded gdpDataset) spreadEconomies in
  StronglySorted Qle (values stats)
  /\ (0 < min stats)%Q
  /\ (forall v, In v (values stats) -> (min stats <= v <= max stats)%Q)
  /\ In (min stats) (values stats)
  /\ In (max stats) (values stats)
  /\ (min stats <= median stats <= max stats)%Q.
Proof.
  apply (statistics_between_extremes (guarded gdpDataset) spreadEconomies
                                     1%Q [2; 3; 4; 100]%Q).
  vm_compute. reflexivity.
Defined.

Lemma atPercent_mono (values : list Q) (k k' : nat) :
  StronglySorted Qle values -> values <> [] ->
  (k <= k' < 100)%nat ->
  (atPercent values k <= atPercent values k')%Q.
Proof.
  intros Hsorted Hne [Hk Hk']. unfold atPercent.
  apply sorted_nth; [exact Hsorted|]. split.
  - apply Nat.Div0.div_le_mono. nia.
  - apply percent_index_in_range; [|exact Hk'].
    destruct values; [contradiction | simpl; lia].
Qed.

(** X19.  The percentiles read from the sorted values are ordered,
    Q1 <= Q3 <= p95 <= p99 <= max; hence the interquartile range is never
    negative and the outlier threshold never lies below Q3. *)
Theorem percentiles_ordered
    (heightGetter : feature -> JS.completion JS.number)
    (features : list feature) (first : Q) (rest : list Q) :
  positiveValues heightGetter features = first :: rest ->
  (Stats.q1 first rest <= Stats.q3 first rest)%Q
  /\ (Stats.q3 first rest <= Stats.p95 first rest)%Q
  /\ (Stats.p95 first rest <= Stats.p99 first rest)%Q
  /\ (Stats.p99 first rest <= Stats.max first rest)%Q
  /\ (0 <= Stats.iqr first rest)%Q
  /\ (Stats.q3 first rest <= Stats.outlierThreshold first rest)%Q.
Proof.
  intros Hvalues.
  pose proof (positiveValues_sorted heightGetter features) as Hsorted.
  rewrite Hvalues in Hsorted.
  assert (Hne : first :: rest <> []) by discriminate.
  unfold Stats.outlierThreshold, Stats.iqr, Stats.q1, Stats.q3, Stats.p95,
    Stats.p99.
  change 0.25%Q with (Z.of_nat 25 # 100).
  change 0.75%Q with (Z.of_nat 75 # 100).
  change 0.95%Q with (Z.of_nat 95 # 100).
  change 0.99%Q with (Z.of_nat 99 # 100).
  rewrite !percentile_atPercent.
  pose proof (atPercent_mono _ 25 75 Hsorted Hne ltac:(lia)) as H1.
  pose proof (atPercent_mono _ 75 95 Hsorted Hne ltac:(lia)) as H2.
  pose proof (atPercent_mono _ 95 99 Hsorted Hne ltac:(lia)) as H3.
  assert (H4 : (atPercent (first :: rest) 99 <= Stats.max first rest)%Q).
  { apply maxOf_greatest. unfold atPercent. apply nth_In.
    apply percent_index_in_range; simpl; lia. }
  repeat split; try assumption; lra.
Qed.

Lemma percentiles_ordered_witness :
  (Stats.q1 1 [2; 3; 4; 100] <= Stats.q3 1 [2; 3; 4; 100])%Q
  /\ (Stats.q3 1 [2; 3; 4; 100] <= Stats.p95 1 [2; 3; 4; 100])%Q
  /\ (Stats.p95 1 [2; 3; 4; 100] <= Stats.p99 1 [2; 3; 4; 100])%Q
  /\ (Stats.p99 1 [2; 3; 4; 100] <= Stats.max 1 [2; 3; 4; 100])%Q
  /\ (0 <= Stats.iqr 1 [2; 3; 4; 100])%Q
  /\ (Stats.q3 1 [2; 3; 4; 100] <= Stats.outlierThreshold 1 [2; 3; 4; 100])%Q.
Proof.
  apply (percentiles_ordered (guarded gdpDataset) spreadEconomies
                             1%Q [2; 3; 4; 100]%Q).
  vm_compute. reflexivity.
Defined.

(* ================================================================== *)
(** * Outliers and heights                                             *)
(* ================================================================== *)

Lemma quotient_mono (v w d : Q) :
  (0 < d)%Q -> (v <= w)%Q -> (v / d <= w / d)%Q.
Proof.
  intros Hd Hvw. unfold Qdiv. apply Qmult_le_compat_r; [exact Hvw|].
  apply Qlt_le_weak, Qinv_lt_0_compat, Hd.
Qed.

Lemma floor_one_positive (x : Q) : (0 < Qmax x 1)%Q.
Proof. pose proof (Q.le_max_r x 1). lra. Qed.

(** The test that selects the outliers is monotone in the value. *)
Lemma outlier_test_mono (t p95 mean v w : Q) :
  (v <= w)%Q ->
  JS.gtb v t || JS.gtb (v / Qmax p95 1) 2.5 || JS.gtb (v / Qmax mean 1) 6.0
    = true ->
  JS.gtb w t || JS.gtb (w / Qmax p95 1) 2.5 || JS.gtb (w / Qmax mean 1) 6.0
    = true.
Proof.
  intros Hvw. rewrite !orb_true_iff, !gtb_gt.
  pose proof (quotient_mono v w _ (floor_one_positive p95) Hvw).
  pose proof (quotient_mono v w _ (floor_one_positive mean) Hvw).
  intros [[H1|H2]|H3]; [left; left | left; right | right]; lra.
Qed.

Lemma outliers_of_result (first : Q) (rest : list Q) (v : Q) :
  In v (outliers (Stats.result first rest)) ->
  Stats.isExtremeCrusher first rest = true
  /\ In v (Stats.extremeOutliers first rest).
Proof.
  unfold Stats.result. cbn [outliers].
  destruct (Stats.isExtremeCrusher first rest); [auto | intros []].
Qed.

(** X20.  The outliers are the top of the distribution: each of them is one
    of the values, every value that is at least as large as an outlier is an
    outlier too, and when there is any outlier the maximum is one. *)
Theorem outliers_are_top_values
    (heightGetter : feature -> JS.completion JS.number)
    (features : list feature) (first : Q) (rest : list Q) :
  positiveValues heightGetter features = first :: rest ->
  let stats := computeStatistics heightGetter features in
  (forall v, In v (outliers stats) -> In v (values stats))
  /\ (forall v w, In v (outliers stats) -> In w (values stats) ->
                  (v <= w)%Q -> In w (outliers stats))
  /\ (outliers stats <> [] -> In (max stats) (outliers stats)).
Proof.
  intros Hvalues stats. subst stats.
  rewrite (computeStatistics_result _ _ _ _ Hvalues).
  assert (Hsub : forall v, In v (outliers (Stats.result first rest)) ->
                           In v (first :: rest)).
  { intros v Hv. apply outliers_of_result in Hv as [_ Hv].
    apply filter_In in Hv. tauto. }
  assert (Hup : forall v w, In v (outliers (Stats.result first rest)) ->
                            In w (first :: rest) -> (v <= w)%Q ->
                            In w (outliers (Stats.result first rest))).
  { intros v w Hv Hw Hvw. apply outliers_of_result in Hv as [Hcrush Hv].
    unfold Stats.result. cbn [outliers]. rewrite Hcrush.
    apply filter_In in Hv as [_ Htest].
    apply filter_In. split; [exact Hw|].
    exact (outlier_test_mono _ _ _ v w Hvw Htest). }
  split; [exact Hsub|]. split; [exact Hup|].
  intros Hne.
  assert (Hsome : exists v, In v (outliers (Stats.result first rest))).
  { destruct (outliers (Stats.result first rest)) as [|v vs];
      [contradiction | exists v; now left]. }
  destruct Hsome as [v Hv]. apply (Hup v).
  - exact Hv.
  - apply maxOf_In.
  - apply maxOf_greatest, Hsub, Hv.
Qed.

Lemma outliers_are_top_values_witness :
  let stats := computeStatistics (guarded gdpDataset) spreadEconomies in
  (forall v, In v (outliers stats) -> In v (values stats))
  /\ (forall v w, In v (outliers stats) -> In w (values stats) ->
                  (v <= w)%Q -> In w (outliers stats))
  /\ (outliers stats <> [] -> In (max stats) (outliers stats)).
Proof.
  apply (outliers_are_top_values (guarded gdpDataset) spreadEconomies
                                 1%Q [2; 3; 4; 100]%Q).
  vm_compute. reflexivity.
Defined.

Lemma includes_In (xs : list Q) (v : Q) :
  In v xs -> JS.includes xs v = true.
Proof.
  intros Hv. unfold JS.includes. apply existsb_exists.
  exists v. split; [exact Hv|]. apply Qeq_bool_iff. reflexivity.
Qed.

Lemma normalize_outlier (stats : HeightStatistics) (v : Q) :
  In v (outliers stats) ->
  (adjustedMax stats < v)%Q -> (v <= max stats)%Q ->
  exists n, normalize stats v = Some n /\ (1 <= n <= 1.8)%Q.
Proof.
  intros Hin Habove Hbelow. unfold normalize.
  rewrite (includes_In _ _ Hin), (proj2 (gtb_gt _ _) Habove).
  cbn [andb]. unfold quotient. rewrite eqb_false by lra.
  cbn [mbind option_bind]. eexists. split; [reflexivity|].
  set (r := ((v - adjustedMax stats) / (max stats - adjustedMax stats))%Q).
  assert (0 < r)%Q by (apply Qlt_shift_div_l; lra).
  assert (r <= 1)%Q by (apply Qle_shift_div_r; lra).
  lra.
Qed.

(** X21.  An outlier that exceeds the adjusted maximum is normalised into
    the overflow band: its normalised value is defined, at least 1 and at
    most 1.8. *)
Theorem outlier_normalized_in_band
    (heightGetter : feature -> JS.completion JS.number)
    (features : list feature) (first : Q) (rest : list Q) (v : Q) :
  positiveValues heightGetter features = first :: rest ->
  let stats := computeStatistics heightGetter features in
  In v (outliers stats) ->
  (adjustedMax stats < v)%Q ->
  exists n, normalize stats v = Some n /\ (1 <= n <= 1.8)%Q.
Proof.
  intros Hvalues stats Hin Habove.
  apply normalize_outlier; [exact Hin | exact Habove|].
  subst stats. rewrite (computeStatistics_result _ _ _ _ Hvalues) in *.
  apply outliers_of_result in Hin as [_ Hin]. apply filter_In in Hin as [Hin _].
  apply (maxOf_greatest rest first v Hin).
Qed.

Lemma outlier_normalized_in_band_witness :
  exists n,
    normalize (computeStatistics (guarded gdpDataset) spreadEconomies) 100
      = Some n
    /\ (1 <= n <= 1.8)%Q.
Proof.
  apply (outlier_normalized_in_band (guarded gdpDataset) spreadEconomies
                                      1%Q [2; 3; 4; 100]%Q 100%Q).
  - vm_compute. reflexivity.
  - vm_compute. now left.
  - vm_compute. reflexivity.
Defined.

Lemma power_positive_unit (x : Q) (p : positive) :
  (0 <= x <= 1)%Q -> (0 <= Qpower_positive x p <= 1)%Q.
Proof.
  intros Hx. induction p as [|p IH] using Pos.peano_ind.
  - exact Hx.
  - rewrite <- Pos.add_1_r, Qpower_plus_positive.
    change (Qpower_positive x 1) with x.
    set (y := Qpower_positive x p) in *. nra.
Qed.

Lemma sampleMath_unitPower : unitPower sampleMath.
Proof.
  intros x e Hx He. cbn [pow sampleMath].
  assert (Hfloor : (0 <= Qfloor e)%Z).
  { change 0%Z with (Qfloor 0). apply Qfloor_resp_le. lra. }
  destruct (Qfloor e) as [|p|p]; [simpl; lra | | lia].
  apply power_positive_unit, Hx.
Qed.

Lemma positiveValues_In
    (heightGetter : feature -> JS.completion JS.number)
    (features : list feature) (f : feature) :
  In f features -> (0 < numberOf (heightGetter f))%Q ->
  In (numberOf (heightGetter f)) (positiveValues heightGetter features).
Proof.
  intros Hf Hpos. unfold positiveValues.
  apply sortAscending_In, filter_In. split.
  - now apply (in_map (fun feat => numberOf (heightGetter feat))).
  - now apply gtb_gt.
Qed.

(** X22.  When the adjusted maximum stays above the minimum, the height of
    every polygon of the elevated layer whose value is not an outlier lies
    between the base height and the base height plus the multiplier of the
    dataset, for every enabled dataset and with no polygon hovered. *)
Theorem height_in_range_above_minimum (M : Math)
    (catalogue : gmap string Dataset.t) (heightFilter : string)
    (dataset : Dataset.t) (useDataDrivenRegions : bool)
    (features : list feature) (country : polygonDatum) :
  unitPower M ->
  catalogue !! heightFilter = Some dataset ->
  Dataset.disabled dataset = false ->
  heightFilter <> "none" ->
  layer country = "elevated" ->
  In (feat country) features ->
  let stats := computeStatistics (guarded dataset) features in
  let value := numberOf (guarded dataset (feat country)) in
  (min stats < adjustedMax stats)%Q ->
  JS.includes (outliers stats) value = false ->
  exists h,
    getPolygonHeight M catalogue useDataDrivenRegions None heightFilter stats
                     country = JS.Normal (Some h)
    /\ (baseHeight <= h
        <= baseHeight + heightMultiplier catalogue heightFilter)%Q.
Proof.
  intros Hpow Hkey Henabled Hfilter Hlayer Hfeat stats value Hrange Hout.
  assert (Hgetter : HEIGHT_GETTERS catalogue !! heightFilter
                    = Some (guarded dataset)).
  { apply HEIGHT_GETTERS_lookup. exists dataset. auto. }
  assert (Hheight : exists h,
             calculatedHeight M catalogue heightFilter stats value = Some h
             /\ (baseHeight <= h
                 <= baseHeight + heightMultiplier catalogue heightFilter)%Q).
  { destruct (JS.gtb value 0) eqn:Hpos.
    - apply gtb_gt in Hpos.
      pose proof (positiveValues_In (guarded dataset) features (feat country)
                    Hfeat Hpos) as Hin.
      apply calculatedHeight_in_range; try assumption.
      + subst stats.
        destruct (positiveValues (guarded dataset) features)
          as [|first rest] eqn:Hvalues; [destruct Hin|].
        rewrite (computeStatistics_result _ _ _ _ Hvalues).
        apply (minOf_least rest first _ Hin).
      + intros _. subst stats.
        destruct (positiveValues (guarded dataset) features)
          as [|first rest] eqn:Hvalues; [destruct Hin|].
        rewrite (computeStatistics_result _ _ _ _ Hvalues). discriminate.
    - exists baseHeight. split.
      + unfold calculatedHeight. now rewrite Hpos.
      + pose proof (heightMultiplier_positive catalogue heightFilter). lra. }
  destruct Hheight as (h & Hcalc & Hh).
  exists (h + 0)%Q. split; [|lra].
  unfold getPolygonHeight. rewrite Hlayer.
  change (String.eqb "elevated" "surface") with false. cbv iota.
  rewrite (proj2 (String.eqb_neq _ _) Hfilter). cbn [negb].
  rewrite Hgetter. cbn [JS.bind]. fold value. rewrite Hcalc. reflexivity.
Qed.

Lemma height_in_range_above_minimum_witness :
  exists h,
    getPolygonHeight sampleMath offlineCatalogue false None "gdp"
      (computeStatistics (guarded gdpDataset) spreadEconomies)
      (elevated 1 (gdpFeature 2))
      = JS.Normal (Some h)
    /\ (baseHeight <= h <= baseHeight + heightMultiplier offlineCatalogue "gdp")%Q.
Proof.
  apply (height_in_range_above_minimum sampleMath offlineCatalogue "gdp"
           gdpDataset false spreadEconomies (elevated 1 (gdpFeature 2))).
  - exact sampleMath_unitPower.
  - vm_compute. reflexivity.
  - reflexivity.
  - discriminate.
  - reflexivity.
  - simpl. tauto.
  - vm_compute. reflexivity.
  - vm_compute. reflexivity.
Defined.

(* ================================================================== *)
(** * The dataset selection over every sequence of actions             *)
(* ================================================================== *)

Lemma existsb_eqb_In (x : string) (xs : list string) :
  existsb (String.eqb x) xs = true <-> In x xs.
Proof.
  rewrite existsb_exists. split.
  - intros (y & Hy & Heq). apply String.eqb_eq in Heq. now subst y.
  - intros Hx. exists x. split; [exact Hx | apply String.eqb_refl].
Qed.

Lemma remove_absent (x : string) (xs : list string) :
  ~ In x xs -> List.filter (fun id => negb (String.eqb id x)) xs = xs.
Proof.
  induction xs as [|y ys IH]; intros Hx; [reflexivity|].
  cbn [List.filter].
  destruct (String.eqb_spec y x) as [->|Hne].
  - destruct Hx. now left.
  - cbn [negb]. f_equal. apply IH. intros Hin. apply Hx. now right.
Qed.

Lemma remove_In (x y : string) (xs : list string) :
  In y (List.filter (fun id => negb (String.eqb id x)) xs)
  <-> In y xs /\ y <> x.
Proof.
  rewrite filter_In, negb_true_iff, String.eqb_neq. tauto.
Qed.

Lemma remove_NoDup (x : string) (xs : list string) :
  NoDup xs -> NoDup (List.filter (fun id => negb (String.eqb id x)) xs).
Proof. rewrite !NoDup_ListNoDup. apply List.NoDup_filter. Qed.

Lemma select_NoDup (catalogue : gmap string Dataset.t) (datasetId : string)
    (prev : list string) :
  NoDup prev -> NoDup (handleDatasetSelect catalogue datasetId prev).
Proof.
  intros Hnd. unfold handleDatasetSelect.
  destruct (from_option Dataset.disabled false (catalogue !! datasetId));
    [exact Hnd|].
  destruct (existsb (String.eqb datasetId) prev) eqn:Hin.
  - now apply remove_NoDup.
  - apply NoDup_app. split; [exact Hnd|]. split; [|apply NoDup_singleton].
    intros x Hx Hx'. apply list_elem_of_singleton in Hx'. subst x.
    apply list_elem_of_In in Hx.
    apply existsb_eqb_In in Hx. congruence.
Qed.

(** X23.  Whatever the sequence of actions, no dataset is selected twice:
    the selected identifiers, and with them the keys of the height buttons,
    are pairwise distinct. *)
Theorem selected_datasets_distinct (catalogue : gmap string Dataset.t)
    (events : list event) :
  NoDup (selectedDatasets (run catalogue events))
  /\ NoDup (heightFilterButtons (selectedDatasets (run catalogue events))).
Proof.
  assert (Hrun : NoDup (selectedDatasets (run catalogue events))).
  { unfold run.
    assert (Hinit : NoDup (selectedDatasets initialSelection))
      by (apply (bool_decide_unpack _); vm_compute; exact I).
    revert Hinit. generalize initialSelection.
    induction events as [|e events IH]; intros st Hst; [exact Hst|].
    cbn [fold_left]. apply IH.
    destruct e as [datasetId|datasetId|key]; cbn [dispatch selectedDatasets].
    - now apply select_NoDup.
    - now apply remove_NoDup.
    - destruct (existsb (String.eqb key)
                  (heightFilterButtons (selectedDatasets st))); exact Hst. }
  split; [exact Hrun|].
  unfold heightFilterButtons. now rewrite map_id.
Qed.

(** X24.  Choosing an enabled dataset twice in a row restores the selection:
    the list itself when the dataset was not selected, and the same
    identifiers, with the dataset moved to the end, when it was.  A disabled
    dataset changes nothing. *)
Theorem select_twice_restores (catalogue : gmap string Dataset.t)
    (datasetId : string) (prev : list string) :
  NoDup prev ->
  let twice :=
    handleDatasetSelect catalogue datasetId
      (handleDatasetSelect catalogue datasetId prev) in
  Permutation twice prev
  /\ (~ In datasetId prev -> twice = prev)
  /\ (from_option Dataset.disabled false (catalogue !! datasetId) = true ->
      handleDatasetSelect catalogue datasetId prev = prev).
Proof.
  intros Hnd twice. subst twice. unfold handleDatasetSelect.
  destruct (from_option Dataset.disabled false (catalogue !! datasetId));
    [repeat split; reflexivity|].
  set (others := List.filter (fun id => negb (String.eqb id datasetId)) prev).
  destruct (existsb (String.eqb datasetId) prev) eqn:Hsel.
  - apply existsb_eqb_In in Hsel.
    assert (Hgone : existsb (String.eqb datasetId) others = false).
    { apply not_true_is_false. rewrite existsb_eqb_In. unfold others.
      rewrite remove_In. tauto. }
    rewrite Hgone. split; [|split; [tauto | discriminate]].
    apply NoDup_Permutation.
    + apply NoDup_app. split; [now apply remove_NoDup|].
      split; [|apply NoDup_singleton].
      intros x Hx Hx'. apply list_elem_of_singleton in Hx'. subst x.
      apply list_elem_of_In, remove_In in Hx. tauto.
    + exact Hnd.
    + intros x. rewrite elem_of_app, list_elem_of_singleton.
      rewrite !list_elem_of_In. unfold others. rewrite remove_In.
      destruct (String.eqb_spec x datasetId) as [->|Hne]; tauto.
  - assert (Habsent : ~ In datasetId prev).
    { rewrite <- existsb_eqb_In. congruence. }
    assert (Hnow : existsb (String.eqb datasetId) (prev ++ [datasetId]) = true).
    { apply existsb_eqb_In, in_or_app. right. now left. }
    rewrite Hnow.
    assert (Hback : List.filter (fun id => negb (String.eqb id datasetId))
                      (prev ++ [datasetId]) = prev).
    { rewrite List.filter_app, (remove_absent _ _ Habsent).
      cbn [List.filter]. rewrite String.eqb_refl. cbn [negb].
      apply app_nil_r. }
    rewrite Hback. repeat split; [reflexivity | discriminate].
Qed.

Lemma select_twice_restores_witness :
  let twice :=
    handleDatasetSelect offlineCatalogue "gdp"
      (handleDatasetSelect offlineCatalogue "gdp" ["gdp"; "area"]) in
  Permutation twice ["gdp"; "area"]
  /\ (~ In "gdp" ["gdp"; "area"] -> twice = ["gdp"; "area"])
  /\ (from_option Dataset.disabled false (offlineCatalogue !! "gdp") = true ->
      handleDatasetSelect offlineCatalogue "gdp" ["gdp"; "area"]
      = ["gdp"; "area"]).
Proof.
  apply (select_twice_restores offlineCatalogue "gdp" ["gdp"; "area"]).
  apply (bool_decide_unpack _). vm_compute. exact I.
Defined.

Lemma filter_keeps_known (catalogue : gmap string Dataset.t)
    (datasetId : string) (prev : list string) :
  Forall (enabledKey catalogue) prev ->
  Forall (enabledKey catalogue)
         (List.filter (fun id => negb (String.eqb id datasetId)) prev).
Proof.
  intros Hall. apply List.Forall_forall. intros x Hx.
  apply filter_In in Hx as [Hx _].
  exact (proj1 (List.Forall_forall _ _) Hall x Hx).
Qed.

Lemma dispatch_selectionKnown (catalogue : gmap string Dataset.t)
    (st : selection) (e : event) :
  offered catalogue e ->
  selectionKnown catalogue st ->
  selectionKnown catalogue (dispatch catalogue st e).
Proof.
  intros Hoffered [Hsel Hfilter].
  destruct e as [datasetId|datasetId|key]; cbn [dispatch].
  - split; [|exact Hfilter]. cbn [selectedDatasets].
    unfold handleDatasetSelect. destruct Hoffered as [dataset Hkey].
    rewrite Hkey. cbn [from_option].
    destruct (Dataset.disabled dataset) eqn:Hdis; [exact Hsel|].
    destruct (existsb (String.eqb datasetId) (selectedDatasets st)).
    + now apply filter_keeps_known.
    + apply Forall_app. split; [exact Hsel|].
      constructor; [|constructor]. exists dataset. auto.
  - split; [|exact Hfilter]. now apply filter_keeps_known.
  - destruct (existsb (String.eqb key)
                (heightFilterButtons (selectedDatasets st))) eqn:Hbutton;
      [|split; assumption].
    split; [exact Hsel|]. cbn [heightFilter].
    destruct (String.eqb (heightFilter st) key); [now left | right].
    apply existsb_eqb_In in Hbutton.
    unfold heightFilterButtons in Hbutton. rewrite map_id in Hbutton.
    exact (proj1 (List.Forall_forall _ _) Hsel key Hbutton).
Qed.

Lemma initialSelection_known
    (external : string -> feature -> JS.completion JS.number) :
  selectionKnown (AVAILABLE_DATASETS external) initialSelection.
Proof.
  split; [|now left].
  unfold initialSelection, selectedDatasets.
  repeat (constructor;
          [eexists; split; [vm_compute; reflexivity | reflexivity]|]).
  constructor.
Qed.

(** X25.  As long as datasets are chosen among the identifiers of the
    catalogue, the height filter always names an enabled dataset or is
    "none": the statistics are computed, and the height of every polygon is
    evaluated, without an exception, for every collection of features. *)
Theorem height_statistics_never_fail
    (external : string -> feature -> JS.completion JS.number)
    (M : Math) (useDataDrivenRegions : bool) (hoverD : option polygonDatum)
    (events : list event) (features : list feature) (country : polygonDatum) :
  let catalogue := AVAILABLE_DATASETS external in
  Forall (offered catalogue) events ->
  let heightFilter := heightFilter (run catalogue events) in
  exists stats,
    heightStats catalogue features heightFilter = JS.Normal stats
    /\ exists height,
         getPolygonHeight M catalogue useDataDrivenRegions hoverD heightFilter
                          stats country = JS.Normal height.
Proof.
  intros catalogue Hoffered filter.
  assert (Hknown : selectionKnown catalogue (run catalogue events)).
  { unfold run.
    pose proof (initialSelection_known external) as Hinit.
    fold catalogue in Hinit. revert Hinit. generalize initialSelection.
    induction Hoffered as [|e events He _ IH]; intros st Hst; [exact Hst|].
    cbn [fold_left]. apply IH. now apply dispatch_selectionKnown. }
  destruct Hknown as [_ Hfilter]. fold filter in Hfilter.
  unfold heightStats, getPolygonHeight.
  destruct Hfilter as [Hnone|(dataset & Hkey & Henabled)].
  - rewrite Hnone. rewrite orb_true_r. eexists. split; [reflexivity|].
    destruct (String.eqb (layer country) "surface");
      eexists; reflexivity.
  - assert (Hgetter : HEIGHT_GETTERS catalogue !! filter
                      = Some (guarded dataset)).
    { apply HEIGHT_GETTERS_lookup. exists dataset. auto. }
    rewrite Hgetter.
    destruct ((length features =? 0)%nat || String.eqb filter "none");
      (eexists; split; [reflexivity|]);
      destruct (String.eqb (layer country) "surface");
      try (eexists; reflexivity);
      destruct (negb (String.eqb filter "none")); eexists; reflexivity.
Qed.

Lemma height_statistics_never_fail_witness :
  let catalogue := offlineCatalogue in
  let heightFilter :=
    heightFilter (run catalogue [SelectDataset "gold_production";
                                 ClickHeightButton "gold_production";
                                 DeselectDataset "gold_production"]) in
  exists stats,
    heightStats catalogue spreadEconomies heightFilter = JS.Normal stats
    /\ exists height,
         getPolygonHeight sampleMath catalogue false None heightFilter
                          stats (elevated 1 (gdpFeature 2))
           = JS.Normal height.
Proof.
  apply (height_statistics_never_fail (fun _ _ => JS.Normal (JS.Num 0))
           sampleMath false None
           [SelectDataset "gold_production";
            ClickHeightButton "gold_production";
            DeselectDataset "gold_production"]
           spreadEconomies (elevated 1 (gdpFeature 2))).
  repeat constructor; eexists; vm_compute; reflexivity.
Defined.

(* ================================================================== *)
(** * The derived regions as a partition                               *)
(* ================================================================== *)

Lemma mapPush_entries (regionMap : list (string * list feature))
    (key : string) (country : feature) (k : string) (members : list feature) :
  NoDup (map fst regionMap) ->
  In (k, members) (mapPush regionMap key country) ->
  (k <> key /\ In (k, members) regionMap)
  \/ (k = key
      /\ exists old, members = old ++ [country]
                     /\ (In (key, old) regionMap
                         \/ (old = [] /\ ~ In key (map fst regionMap)))).
Proof.
  induction regionMap as [|[k0 m0] rest IH]; intros Hnd Hin.
  - destruct Hin as [[= <- <-]|[]]. right. split; [reflexivity|].
    exists []. split; [reflexivity|]. right. split; [reflexivity | intros []].
  - cbn [map fst] in Hnd. apply NoDup_cons in Hnd as [Hk0 Hnd].
    cbn [mapPush] in Hin. destruct (String.eqb_spec k0 key) as [->|Hne].
    + destruct Hin as [[= <- <-]|Hin].
      * right. split; [reflexivity|]. exists m0. split; [reflexivity|].
        left. now left.
      * left. split; [|now right]. intros ->. apply Hk0.
        apply list_elem_of_In. now apply (in_map fst) in Hin.
    + destruct Hin as [[= <- <-]|Hin]; [left; split; [exact Hne | now left]|].
      destruct (IH Hnd Hin) as [[Hk Hold]|[-> (old & -> & Hold)]].
      * left. split; [exact Hk | now right].
      * right. split; [reflexivity|]. exists old. split; [reflexivity|].
        destruct Hold as [Hold|[-> Hfresh]]; [left; now right | right].
        split; [reflexivity|]. intros [Heq|Hin']; [now apply Hne | now apply Hfresh].
Qed.

Lemma mapPush_covers (regionMap : list (string * list feature))
    (key : string) (country : feature) (k : string) :
  k = key \/ In k (map fst regionMap) ->
  In k (map fst (mapPush regionMap key country)).
Proof.
  induction regionMap as [|[k0 m0] rest IH]; intros Hk.
  - destruct Hk as [->|[]]. now left.
  - cbn [mapPush]. destruct (String.eqb_spec k0 key) as [->|Hne].
    + destruct Hk as [->|Hk]; [now left | exact Hk].
    + destruct Hk as [->|[<-|Hk]].
      * right. apply IH. now left.
      * now left.
      * right. apply IH. now right.
Qed.

Lemma derivedMembers_snoc (key : string) (done : list feature)
    (country : feature) :
  derivedMembers key (done ++ [country])
  = derivedMembers key done
    ++ (if regionEqb (getCountryRegion true country) (Named key)
        then [country] else []).
Proof. unfold derivedMembers. now rewrite List.filter_app. Qed.

Lemma derivedMembers_none (key : string) (done : list feature) :
  (forall c, In c done -> getCountryRegion true c <> Named key) ->
  derivedMembers key done = [].
Proof.
  intros Hnone. unfold derivedMembers.
  induction done as [|c done IH]; [reflexivity|]. cbn [List.filter].
  destruct (regionEqb (getCountryRegion true c) (Named key)) eqn:Heq.
  - apply regionEqb_eq in Heq. now destruct (Hnone c (or_introl eq_refl)).
  - apply IH. intros c' Hc'. apply Hnone. now right.
Qed.

(** X26.  [createDataDrivenRegions] partitions the collection by the key
    that [getCountryRegion] computes in derived mode: the keys of the map are
    distinct, the members listed under a key are exactly the features with
    that key, in the order of the collection, no region is empty, and every
    feature is listed under its key. *)
Theorem derived_regions_partition (countries : list feature)
    (regionMap : list (string * list feature)) :
  createDataDrivenRegions countries = JS.Normal regionMap ->
  NoDup (map fst regionMap)
  /\ (forall key members,
        In (key, members) regionMap ->
        members = derivedMembers key countries /\ members <> [])
  /\ (forall country,
        In country countries ->
        In (getCountryRegion true country) (map Named (map fst regionMap))).
Proof.
  unfold createDataDrivenRegions. intros Hrun.
  change countries with ([] ++ countries) at 1 2.
  revert Hrun.
  apply (forEach_prefix
           (fun done m =>
              NoDup (map fst m)
              /\ (forall key members,
                    In (key, members) m ->
                    members = derivedMembers key done /\ members <> [])
              /\ (forall country,
                    In country done ->
                    In (getCountryRegion true country)
                       (map Named (map fst m)))));
    [|split; [apply NoDup_nil_2 | split; [intros ? ? [] | intros ? []]]].
  intros done country m m' (Hnd & Hmembers & Hcover) Hstep.
  destruct (properties country) as [bag|] eqn:Hbag; [|discriminate].
  injection Hstep as <-.
  set (key := derivedRegionKey (continentOf (Some bag))
                               (subregionOf (Some bag))).
  assert (Hkey : getCountryRegion true country = Named key)
    by (unfold getCountryRegion; now rewrite Hbag).
  split; [|split].
  - refine (proj1 (mapPush_keys m key country (done ++ [country]) Hnd _ _)).
    + apply List.Forall_forall. intros [k ms] Hin c Hc. cbn [snd] in Hc.
      destruct (Hmembers k ms Hin) as [-> _].
      apply filter_In in Hc as [Hc _]. apply in_or_app. now left.
    + apply in_or_app. right. now left.
  - intros k members Hin. rewrite derivedMembers_snoc, Hkey.
    cbn [regionEqb].
    apply (mapPush_entries m key country k members Hnd) in Hin
      as [[Hk Hin]|[-> (old & -> & Hold)]].
    + assert (Hne : key <> k) by congruence.
      rewrite (proj2 (String.eqb_neq _ _) Hne), app_nil_r.
      now apply Hmembers.
    + rewrite String.eqb_refl. split; [|now destruct old].
      f_equal. destruct Hold as [Hold|[-> Hfresh]].
      * now apply Hmembers.
      * symmetry. apply derivedMembers_none. intros c Hc Heq.
        apply Hfresh. specialize (Hcover c Hc). rewrite Heq in Hcover.
        apply in_map_iff in Hcover as (k & [= ->] & Hk). exact Hk.
  - intros c Hc.
    change (getCountryRegion true c)
      with (Named (derivedRegionKey (continentOf (properties c))
                                    (subregionOf (properties c)))).
    apply in_map, mapPush_covers.
    apply in_app_or in Hc as [Hc|[<-|[]]].
    + right. specialize (Hcover c Hc).
      apply in_map_iff in Hcover as (k & Hk & Hin).
      assert (Hname : derivedRegionKey (continentOf (properties c))
                                       (subregionOf (properties c)) = k).
      { unfold getCountryRegion in Hk. now injection Hk. }
      now rewrite Hname.
    + left. unfold getCountryRegion in Hkey. now injection Hkey.
Qed.

Lemma derived_regions_partition_witness :
  let regionMap := returned (createDataDrivenRegions [france; spain; italy]) in
  NoDup (map fst regionMap)
  /\ (forall key members,
        In (key, members) regionMap ->
        members = derivedMembers key [france; spain; italy] /\ members <> [])
  /\ (forall country,
        In country [france; spain; italy] ->
        In (getCountryRegion true country) (map Named (map fst regionMap))).
Proof.
  apply (derived_regions_partition [france; spain; italy]).
  vm_compute. reflexivity.
Defined.

Lemma final_exponent_bands (x : Q) :
  inBands (if JS.gtb x 1.0
           then Qmax 1.1 (Qmin 3.5 x)
           else Qmax 0.3 (Qmin 0.95 x)).
Proof.
  unfold inBands. destruct (JS.gtb x 1.0).
  - right. split; [apply Q.le_max_l|].
    apply Q.max_lub; [lra | apply Q.le_min_l].
  - left. split; [apply Q.le_max_l|].
    apply Q.max_lub; [lra | apply Q.le_min_l].
Qed.

(** X27.  Whatever [Math.sqrt] returns, the adaptive exponent of a
    non-empty set of values is defined and lies in one of the two bands
    [0.3, 0.95] and [1.1, 3.5]: it is never 1 and never in the gap between
    0.95 and 1.1. *)
Theorem adaptive_exponent_bands (M : Math) (stats : HeightStatistics) :
  values stats <> [] ->
  exists exponent,
    adaptiveExponent M stats = Some exponent
    /\ inBands exponent
    /\ ~ (exponent == 1)%Q.
Proof.
  intros Hne. unfold adaptiveExponent.
  destruct (values stats) as [|v vs]; [contradiction|].
  cbv zeta. eexists. split; [reflexivity|].
  match goal with
  | |- inBands (if JS.gtb ?x _ then _ else _) /\ _ =>
      pose proof (final_exponent_bands x) as Hbands
  end.
  split; [exact Hbands|].
  unfold inBands in Hbands. intros Hone. rewrite Hone in Hbands. lra.
Qed.

Lemma adaptive_exponent_bands_witness :
  exists exponent,
    adaptiveExponent sampleMath
      (computeStatistics (guarded gdpDataset) spreadEconomies) = Some exponent
    /\ inBands exponent
    /\ ~ (exponent == 1)%Q.
Proof.
  apply (adaptive_exponent_bands sampleMath
           (computeStatistics (guarded gdpDataset) spreadEconomies)).
  vm_compute. discriminate.
Defined.

(* ================================================================== *)
(** * The number of shared points                                      *)
(* ================================================================== *)








(* ================================================================== *)
(** * Segments and shared points (C5)                                  *)
(* ================================================================== *)








(** The corner is one common point and two close positions. *)
Example corner_counts :
  commonPoints 0.01 [(0, 0); (1, 0); (1, 1); (0, 1); (0, 0)]%Q
                    [(1, 1); (2, 1); (2, 2); (1, 2); (1, 1)]%Q
  = [(1, 1)%Q]
  /\ closePositions 0.01 [(0, 0); (1, 0); (1, 1); (0, 1); (0, 0)]%Q
                         [(1, 1); (2, 1); (2, 2); (1, 2); (1, 1)]%Q
     = [(1, 1); (1, 1)]%Q
  /\ map coordinates
         (returned (pushBoundary sampleMath "manual_boundary" "west_europe"
                                 "south_europe" [] france cornerSquare))
     = [[(1, 1); (1, 1)]%Q].
Proof. repeat split; vm_compute; reflexivity. Qed.
